(** * Adafruit_CircuitPython_BLE: advertising-data codec and HID descriptor parser

    A shallow embedding of
    - [adafruit_ble/advertising/__init__.py]: [decode_data], [compute_length],
      [encode_data], the field descriptors, [Advertisement] and the printing
      helpers [to_hex] and [to_bytes_literal];
    - [adafruit_ble/services/standard/hid.py]: [HIDService._init_devices];
    - [adafruit_ble/__init__.py]: [BLEConnection], over a native connection
      that is a parameter.

    Python values are given types: byte strings are [list byte], integers are
    [Z], positions in a buffer are [nat]. A [dict] is an association list in
    insertion order whose keys are pairwise distinct. An exception is a value
    of [exn]; a [while] loop is a fixpoint on a fuel argument, and the
    theorems on termination show that the fuel handed to it is never used
    up. The builtins and [struct] are modelled as CPython evaluates them. *)

From Stdlib Require Import String.
From Stdlib.Strings Require Import Byte.
From Stdlib Require Import List ZArith Lia Bool.
Import ListNotations.

Set Implicit Arguments.
Local Open Scope Z_scope.

(** ** Python exceptions and outcomes *)

Inductive exn : Type :=
| IndexError
| TypeError
| ValueError
| KeyError
| StructError                      (* struct.error *)
| RuntimeError (msg : string)
| NotImplementedError (msg : string).

Inductive outcome (A : Type) : Type :=
| Return (a : A)
| Raise (e : exn)
| OutOfFuel.

Arguments Return {A} a.
Arguments Raise {A} e.
Arguments OutOfFuel {A}.

Definition bind {A B : Type} (c : outcome A) (k : A -> outcome B) : outcome B :=
  match c with
  | Return a => k a
  | Raise e => Raise e
  | OutOfFuel => OutOfFuel
  end.

Notation "x <- c ;; k" := (bind c (fun x => k))
  (at level 61, c at next level, right associativity).

(** The two ways a loop body ends an iteration. *)
Inductive control (S A : Type) : Type :=
| Continue (s : S)
| Break (a : A).

Arguments Continue {S A} s.
Arguments Break {S A} a.

(** ** Bytes, sequences and slices *)

Definition bytes := list byte.

Definition byte_Z (b : byte) : Z := Z.of_N (Byte.to_N b).
Definition byte_nat (b : byte) : nat := N.to_nat (Byte.to_N b).

(** The byte whose value is [z mod 256]. *)
Definition byte_of_Z (z : Z) : byte :=
  match Byte.of_N (Z.to_N (z mod 256)) with
  | Some b => b
  | None => x00
  end.

(** [l[a:b]] for [0 <= a]: out-of-range bounds are clamped. *)
Definition slice {A : Type} (l : list A) (a b : nat) : list A :=
  firstn (b - a) (skipn a l).

(** [l[a:b] = v] on a bytearray, for [0 <= a <= b]. *)
Definition slice_assign {A : Type} (l : list A) (a b : nat) (v : list A) : list A :=
  firstn a l ++ v ++ skipn b l.

(** [l[n]] for [0 <= n]. *)
Definition index {A : Type} (l : list A) (n : nat) : outcome A :=
  match nth_error l n with
  | Some x => Return x
  | None => Raise IndexError
  end.

(** [l[n] = x] on a list, for [0 <= n]. *)
Fixpoint set_index {A : Type} (l : list A) (n : nat) (x : A) : outcome (list A) :=
  match l, n with
  | [], _ => Raise IndexError
  | _ :: t, O => Return (x :: t)
  | h :: t, S n' => t' <- set_index t n' x ;; Return (h :: t')
  end.

(** ** The [struct] module, for formats of one integer *)

Module PyStruct.

Inductive byte_order : Type := LittleEndian | BigEndian.

Inductive int_code : Type :=
| Code_b | Code_B | Code_h | Code_H | Code_i | Code_I | Code_q | Code_Q.

Record format : Type := Format { order : byte_order; code : int_code }.

(** ["B"], ["<b"] and ["<H"], the formats the library uses. *)
Definition fmt_B : format := Format LittleEndian Code_B.
Definition fmt_b : format := Format LittleEndian Code_b.
Definition fmt_H : format := Format LittleEndian Code_H.

Definition width (c : int_code) : nat :=
  match c with
  | Code_b | Code_B => 1
  | Code_h | Code_H => 2
  | Code_i | Code_I => 4
  | Code_q | Code_Q => 8
  end%nat.

Definition signed (c : int_code) : bool :=
  match c with
  | Code_b | Code_h | Code_i | Code_q => true
  | _ => false
  end.

Definition calcsize (f : format) : nat := width (code f).

Definition modulus (f : format) : Z := 256 ^ Z.of_nat (calcsize f).

Fixpoint le_bytes (n : nat) (z : Z) : bytes :=
  match n with
  | O => []
  | S n' => byte_of_Z (z mod 256) :: le_bytes n' (z / 256)
  end.

Fixpoint le_value (bs : bytes) : Z :=
  match bs with
  | [] => 0
  | b :: r => byte_Z b + 256 * le_value r
  end.

Definition arrange (f : format) (bs : bytes) : bytes :=
  match order f with
  | LittleEndian => bs
  | BigEndian => rev bs
  end.

Definition in_range (f : format) (v : Z) : bool :=
  if signed (code f)
  then (- (modulus f / 2) <=? v) && (v <? modulus f / 2)
  else (0 <=? v) && (v <? modulus f).

(** [struct.pack(f, v)] *)
Definition pack (f : format) (v : Z) : outcome bytes :=
  if in_range f v
  then Return (arrange f (le_bytes (calcsize f) (v mod modulus f)))
  else Raise StructError.

Definition interpret (f : format) (u : Z) : Z :=
  if signed (code f) && (modulus f / 2 <=? u) then u - modulus f else u.

(** [struct.unpack_from(f, data, offset)[0]] *)
Definition unpack_from (f : format) (data : bytes) (offset : nat) : outcome Z :=
  if (offset + calcsize f <=? length data)%nat
  then Return (interpret f
                 (le_value (arrange f (slice data offset (offset + calcsize f)))))
  else Raise StructError.

(** [struct.unpack(f, data)[0]]: the buffer has exactly the format's size. *)
Definition unpack (f : format) (data : bytes) : outcome Z :=
  if (length data =? calcsize f)%nat
  then unpack_from f data 0
  else Raise StructError.

(** [struct.pack_into(f, buffer, offset, v)]; the result is the buffer after
    the write. *)
Definition pack_into (f : format) (buffer : bytes) (offset : nat) (v : Z)
  : outcome bytes :=
  if (offset + calcsize f <=? length buffer)%nat
  then bs <- pack f v ;;
       Return (slice_assign buffer offset (offset + calcsize f) bs)
  else Raise StructError.

End PyStruct.

(** ** Insertion-ordered dictionaries with integer keys *)

Module Dict.

Section Ops.
Variable V : Type.

Definition t : Type := list (Z * V).

Fixpoint get (d : t) (k : Z) : option V :=
  match d with
  | [] => None
  | (k', v) :: r => if k' =? k then Some v else get r k
  end.

(** [k in d] *)
Definition mem (d : t) (k : Z) : bool :=
  match get d k with Some _ => true | None => false end.

(** [d[k] = v]: an existing key keeps its position, a new key goes last. *)
Fixpoint set (d : t) (k : Z) (v : V) : t :=
  match d with
  | [] => [(k, v)]
  | (k', v') :: r => if k' =? k then (k', v) :: r else (k', v') :: set r k v
  end.

Definition keys (d : t) : list Z := map fst d.
Definition values (d : t) : list V := map snd d.

End Ops.

End Dict.

(** ** advertising/__init__.py: the length-prefixed codec *)

(** What a [data_dict] entry can hold: a byte string, the [AdvertisingFlags]
    object a [LazyField] binds (it has [__len__] and [__bytes__]), or a list
    built by [decode_data] for a repeated key. *)
#[warnings="-register-all"] Inductive value : Type :=
| VBytes (b : bytes)
| VFlags (flags : Z)
| VList (items : list value).

Definition data_dict_t : Type := Dict.t value.

(** [len(v)] *)
Definition py_len (v : value) : nat :=
  match v with
  | VBytes b => length b
  | VFlags _ => 1%nat                     (* AdvertisingFlags.__len__ *)
  | VList items => length items
  end.

(** [AdvertisingFlags.__bytes__]: the one-byte [bytearray] it returns;
    [encoded[0] = self.flags] needs a value in [range(256)]. *)
Definition AdvertisingFlags_bytes (flags : Z) : outcome bytes :=
  if (0 <=? flags) && (flags <? 256) then Return [byte_of_Z flags]
  else Raise ValueError.

(** The builtin [bytes(v)], as CPython evaluates it. On the flags object it
    calls [__bytes__] and then rejects the result, which is a [bytearray] and
    not a [bytes]: [TypeError: __bytes__ returned non-bytes]. *)
Definition py_bytes (v : value) : outcome bytes :=
  match v with
  | VBytes b => Return b
  | VFlags flags => _ <- AdvertisingFlags_bytes flags ;; Raise TypeError
  | VList _ => Raise TypeError
  end.

(** [b"".join(items)]: every item has to be a byte string. *)
Fixpoint join (items : list value) : outcome bytes :=
  match items with
  | [] => Return []
  | VBytes b :: r => rest <- join r ;; Return (b ++ rest)
  | _ :: _ => Raise TypeError
  end.

(** [if isinstance(value, list): value = b"".join(value)] *)
Definition joined (v : value) : outcome value :=
  match v with
  | VList items => b <- join items ;; Return (VBytes b)
  | _ => Return v
  end.

(** The body of the [if key in data_dict: ... else: ...] of [decode_data]. *)
Definition store (data_dict : data_dict_t) (key : Z) (v : bytes) : data_dict_t :=
  match Dict.get data_dict key with
  | Some (VList items) => Dict.set data_dict key (VList (items ++ [VBytes v]))
  | Some old => Dict.set data_dict key (VList [old; VBytes v])
  | None => Dict.set data_dict key (VBytes v)
  end.

Section Codec.

Variable key_encoding : PyStruct.format.

Local Abbreviation key_size := (PyStruct.calcsize key_encoding).

(** One iteration of the [while] loop of [decode_data], entered with
    [i < len(data)]. *)
Definition decode_body (data : bytes) (i : nat) (data_dict : data_dict_t)
  : outcome (control (nat * data_dict_t) data_dict_t) :=
  let item_length := byte_nat (nth i data x00) in
  let i := (i + 1)%nat in
  if (item_length =? 0)%nat then Return (Break data_dict)
  else
    key <- PyStruct.unpack_from key_encoding data i ;;
    let v := slice data (i + key_size) (i + item_length) in
    Return (Continue ((i + item_length)%nat, store data_dict key v)).

Fixpoint decode_loop (data : bytes) (fuel : nat) (i : nat) (data_dict : data_dict_t)
  : outcome data_dict_t :=
  if (length data <=? i)%nat then Return data_dict
  else
    match fuel with
    | O => OutOfFuel
    | S fuel' =>
        c <- decode_body data i data_dict ;;
        match c with
        | Break d => Return d
        | Continue (i', d) => decode_loop data fuel' i' d
        end
    end.

Definition decode_data (data : bytes) : outcome data_dict_t :=
  decode_loop data (length data) 0 [].

(** The [value_size] sum of [compute_length]. *)
Fixpoint value_size (vs : list value) : nat :=
  match vs with
  | [] => 0
  | VList items :: r => fold_right (fun subv n => py_len subv + n) 0 items + value_size r
  | v :: r => py_len v + value_size r
  end%nat.

Definition compute_length (data_dict : data_dict_t) : nat :=
  (length data_dict + length data_dict * key_size
   + value_size (Dict.values data_dict))%nat.

(** The [for key, value in data_dict.items()] loop of [encode_data]. *)
Fixpoint encode_loop (items : list (Z * value)) (data : bytes) (i : nat)
  : outcome bytes :=
  match items with
  | [] => Return data
  | (key, v) :: r =>
      v <- joined v ;;
      let item_length := (key_size + py_len v)%nat in
      data <- PyStruct.pack_into PyStruct.fmt_B data i (Z.of_nat item_length) ;;
      data <- PyStruct.pack_into key_encoding data (i + 1) key ;;
      b <- py_bytes v ;;
      let data := slice_assign data (i + 1 + key_size) (i + 1 + item_length) b in
      encode_loop r data (i + 1 + item_length)
  end.

Definition encode_data (data_dict : data_dict_t) : outcome bytes :=
  let length := compute_length data_dict in
  let data := repeat x00 length in
  encode_loop data_dict data 0.

End Codec.

(** ** advertising/__init__.py: field descriptors and [Advertisement] *)

(** [AdvertisingFlag(bit_position).__get__], on the [flags] integer of the
    [AdvertisingFlags] object. *)
Definition AdvertisingFlag_get (bit_position : Z) (flags : Z) : bool :=
  let _bitmask := Z.shiftl 1 bit_position in
  negb (Z.land flags _bitmask =? 0).

(** [AdvertisingFlag(bit_position).__set__] *)
Definition AdvertisingFlag_set (bit_position : Z) (flags : Z) (v : bool) : Z :=
  let _bitmask := Z.shiftl 1 bit_position in
  if v then Z.lor flags _bitmask else Z.land flags (Z.lnot _bitmask).

Definition limited_discovery : Z -> bool := AdvertisingFlag_get 0.
Definition general_discovery : Z -> bool := AdvertisingFlag_get 1.
Definition le_only : Z -> bool := AdvertisingFlag_get 2.

(** A scan result of the native adapter. *)
Record ScanEntry : Type := {
  advertisement_bytes : bytes;
  entry_address : bytes;
  entry_rssi : Z;
  entry_connectable : bool;
  entry_scan_response : bool
}.

(** An [Advertisement] instance. [flags_attr] is the instance attribute that
    [LazyField.__get__] binds with [setattr]; the object it names is the one
    stored in [data_dict], so both carry the same [flags]. *)
Record Advertisement : Type := {
  data_dict : data_dict_t;
  address : option bytes;
  _rssi : option Z;
  connectable : bool;
  mutable : bool;
  scan_response : bool;
  flags_attr : option Z
}.

Definition with_data_dict (obj : Advertisement) (d : data_dict_t) : Advertisement :=
  {| data_dict := d; address := address obj; _rssi := _rssi obj;
     connectable := connectable obj; mutable := mutable obj;
     scan_response := scan_response obj; flags_attr := flags_attr obj |}.

Definition with_mutable (obj : Advertisement) (m : bool) : Advertisement :=
  {| data_dict := data_dict obj; address := address obj; _rssi := _rssi obj;
     connectable := connectable obj; mutable := m;
     scan_response := scan_response obj; flags_attr := flags_attr obj |}.

(** [Advertisement.__init__] *)
Definition Advertisement_init : Advertisement :=
  {| data_dict := []; address := None; _rssi := None; connectable := false;
     mutable := true; scan_response := false; flags_attr := None |}.

(** [Advertisement.from_entry] *)
Definition from_entry (entry : ScanEntry) : outcome Advertisement :=
  d <- decode_data PyStruct.fmt_B (advertisement_bytes entry) ;;
  Return {| data_dict := d;
            address := Some (entry_address entry);
            _rssi := Some (entry_rssi entry);
            connectable := entry_connectable entry;
            mutable := false;
            scan_response := entry_scan_response entry;
            flags_attr := None |}.

(** [Advertisement.__bytes__] and [Advertisement.__len__] *)
Definition Advertisement_bytes (obj : Advertisement) : outcome bytes :=
  encode_data PyStruct.fmt_B (data_dict obj).

Definition Advertisement_len (obj : Advertisement) : nat :=
  compute_length PyStruct.fmt_B (data_dict obj).

(** [AdvertisingFlags.__init__]: the value given to [self.flags]. From a
    stored list the code takes the first element, a byte string and not an
    integer: the constructor returns, and the [TypeError] comes with the
    first flag read or [__bytes__] on the object. A flags object of this
    model holds an integer, so the model raises that [TypeError] at the
    constructor; the facts about [flags] below are stated for dictionaries
    that hold no list under the type code. *)
Definition AdvertisingFlags_init (advertisement : Advertisement) (_adt : Z)
  : outcome Z :=
  match Dict.get (data_dict advertisement) _adt with
  | Some (VBytes b) => x <- index b 0 ;; Return (byte_Z x)
  | Some (VList []) => Raise IndexError
  | Some (VList (_ :: _)) => Raise TypeError
  | Some (VFlags _) => Raise TypeError
  | None => if mutable advertisement then Return 6 (* 0b110 *) else Return 0
  end.

(** [LazyField(AdvertisingFlags, "flags", advertising_data_type=_adt).__get__]:
    the bound object, if any, and the advertisement afterwards. *)
Definition LazyField_get (_adt : Z) (obj : Advertisement)
  : outcome (option Z * Advertisement) :=
  if negb (mutable obj) && negb (Dict.mem (data_dict obj) _adt)
  then Return (None, obj)
  else
    bound_class <- AdvertisingFlags_init obj _adt ;;
    Return (Some bound_class,
            {| data_dict := Dict.set (data_dict obj) _adt (VFlags bound_class);
               address := address obj; _rssi := _rssi obj;
               connectable := connectable obj; mutable := mutable obj;
               scan_response := scan_response obj;
               flags_attr := Some bound_class |}).

(** Reading [obj.flags]: the instance attribute once it is bound, the
    descriptor of the class before that ([advertising_data_type=0x01]). *)
Definition Advertisement_flags (obj : Advertisement)
  : outcome (option Z * Advertisement) :=
  match flags_attr obj with
  | Some bound_class => Return (Some bound_class, obj)
  | None => LazyField_get 1 obj
  end.

(** A [str] is held as its UTF-8 text; [value.encode("utf-8")] yields the
    bytes of that text. *)
Definition encode_utf8 (s : string) : bytes := list_byte_of_string s.

(** [String(advertising_data_type=_adt).__set__] *)
Definition String_set (_adt : Z) (obj : Advertisement) (v : string)
  : outcome Advertisement :=
  Return (with_data_dict obj (Dict.set (data_dict obj) _adt (VBytes (encode_utf8 v)))).

(** [Struct(_format, advertising_data_type=_adt).__get__] *)
Definition Struct_get (_format : PyStruct.format) (_adt : Z) (obj : Advertisement)
  : outcome (option Z) :=
  match Dict.get (data_dict obj) _adt with
  | None => Return None
  | Some (VBytes b) => x <- PyStruct.unpack _format b ;; Return (Some x)
  | Some _ => Raise TypeError
  end.

(** [Struct(_format, advertising_data_type=_adt).__set__] *)
Definition Struct_set (_format : PyStruct.format) (_adt : Z) (obj : Advertisement)
  (v : Z) : outcome Advertisement :=
  b <- PyStruct.pack _format v ;;
  Return (with_data_dict obj (Dict.set (data_dict obj) _adt (VBytes b))).

(** The descriptors of class [Advertisement]. *)
Definition short_name_set := String_set 8.
Definition complete_name_set := String_set 9.
Definition tx_power_set := Struct_set PyStruct.fmt_b 10.
Definition tx_power_get := Struct_get PyStruct.fmt_b 10.

(** ** services/standard/hid.py: [HIDService._init_devices] *)

Definition _ITEM_TYPE_MAIN : Z := 0.
Definition _ITEM_TYPE_GLOBAL : Z := 1.
Definition _ITEM_TYPE_LOCAL : Z := 2.

Definition _MAIN_ITEM_TAG_START_COLLECTION : Z := 10.   (* 0b1010 *)
Definition _MAIN_ITEM_TAG_END_COLLECTION : Z := 12.     (* 0b1100 *)
Definition _MAIN_ITEM_TAG_INPUT : Z := 8.               (* 0b1000 *)
Definition _MAIN_ITEM_TAG_OUTPUT : Z := 9.              (* 0b1001 *)
Definition _MAIN_ITEM_TAG_FEATURE : Z := 11.            (* 0b1011 *)

(** A register table: [None] or the data bytes of the last item written. *)
Definition table : Type := list (option bytes).

Inductive item_tag : Type := input | output.

(** An entry of a ["mains"] list: a nested collection (the dict with a
    ["type"] key) or an Input/Output item (the dict with a ["tag"] key). *)
#[warnings="-register-all"] Inductive main : Type :=
| Collection (type : bytes) (locals globals : table) (mains : list main)
| Item (tag : item_tag) (locals globals : table).

(** A collection dict while it is on the [collections] stack or in
    [top_level_collections]. *)
Record collection : Type := {
  c_type : bytes;
  c_locals : table;
  c_globals : table;
  c_mains : list main
}.

Definition as_main (c : collection) : main :=
  Collection (c_type c) (c_locals c) (c_globals c) (c_mains c).

Definition append_main (c : collection) (m : main) : collection :=
  {| c_type := c_type c; c_locals := c_locals c; c_globals := c_globals c;
     c_mains := c_mains c ++ [m] |}.

(** [l.pop()]: the list without its last element, and that element. *)
Definition pop {A : Type} (l : list A) : outcome (list A * A) :=
  match rev l with
  | [] => Raise IndexError
  | x :: r => Return (rev r, x)
  end.

(** [collections[-1]["mains"].append(m)] *)
Definition append_to_last (collections : list collection) (m : main)
  : outcome (list collection) :=
  match rev collections with
  | [] => Raise IndexError
  | c :: r => Return (rev r ++ [append_main c m])
  end.

Record parser : Type := {
  global_table : table;
  local_table : table;
  collections : list collection;
  top_level_collections : list collection
}.

Definition initial_parser : parser :=
  {| global_table := repeat None 10;
     local_table := repeat None 3;
     collections := [];
     top_level_collections := [] |}.

(** The branches of [if _type == ...] on one item. *)
Definition parse_item (_type tag : Z) (data : bytes) (p : parser) : outcome parser :=
  if _type =? _ITEM_TYPE_GLOBAL then
    g <- set_index (global_table p) (Z.to_nat tag) (Some data) ;;
    Return {| global_table := g; local_table := local_table p;
              collections := collections p;
              top_level_collections := top_level_collections p |}
  else if _type =? _ITEM_TYPE_MAIN then
    p' <- (if tag =? _MAIN_ITEM_TAG_START_COLLECTION then
             Return {| global_table := global_table p;
                       local_table := local_table p;
                       collections :=
                         collections p ++
                         [{| c_type := data; c_locals := local_table p;
                             c_globals := global_table p; c_mains := [] |}];
                       top_level_collections := top_level_collections p |}
           else if tag =? _MAIN_ITEM_TAG_END_COLLECTION then
             popped <- pop (collections p) ;;
             let (rest, c) := popped : list collection * collection in
             match rest with
             | [] =>
                 Return {| global_table := global_table p;
                           local_table := local_table p;
                           collections := rest;
                           top_level_collections := top_level_collections p ++ [c] |}
             | _ :: _ =>
                 cs <- append_to_last rest (as_main c) ;;
                 Return {| global_table := global_table p;
                           local_table := local_table p;
                           collections := cs;
                           top_level_collections := top_level_collections p |}
             end
           else if tag =? _MAIN_ITEM_TAG_INPUT then
             cs <- append_to_last (collections p)
                     (Item input (local_table p) (global_table p)) ;;
             Return {| global_table := global_table p;
                       local_table := local_table p;
                       collections := cs;
                       top_level_collections := top_level_collections p |}
           else if tag =? _MAIN_ITEM_TAG_OUTPUT then
             cs <- append_to_last (collections p)
                     (Item output (local_table p) (global_table p)) ;;
             Return {| global_table := global_table p;
                       local_table := local_table p;
                       collections := cs;
                       top_level_collections := top_level_collections p |}
           else Raise (RuntimeError "Unsupported main item in HID descriptor")) ;;
    Return {| global_table := global_table p';
              local_table := repeat None 3;
              collections := collections p';
              top_level_collections := top_level_collections p' |}
  else
    l <- set_index (local_table p) (Z.to_nat tag) (Some data) ;;
    Return {| global_table := global_table p; local_table := l;
              collections := collections p;
              top_level_collections := top_level_collections p |}.

(** The fields of the prefix byte [b] of an item. *)
Definition item_tag_of (b : Z) : Z := Z.shiftr (Z.land b 240) 4.      (* (b & 0xf0) >> 4 *)
Definition item_type_of (b : Z) : Z := Z.shiftr (Z.land b 12) 2.      (* (b & 0b1100) >> 2 *)
Definition item_size_of (b : Z) : nat :=
  let size := Z.land b 3 in                                          (* b & 0b11 *)
  if size =? 3 then 4%nat else Z.to_nat size.

(** One iteration of the [while] loop, entered with [i < len(hid_descriptor)]:
    the next position and the parser state. *)
Definition parse_body (hid_descriptor : bytes) (i : nat) (p : parser)
  : outcome (nat * parser) :=
  let b := byte_Z (nth i hid_descriptor x00) in
  let tag := item_tag_of b in
  let _type := item_type_of b in
  let size := item_size_of b in
  let i := (i + 1)%nat in
  let data := slice hid_descriptor i (i + size) in
  p' <- parse_item _type tag data p ;;
  Return ((i + size)%nat, p').

Fixpoint parse_loop (hid_descriptor : bytes) (fuel : nat) (i : nat) (p : parser)
  : outcome parser :=
  if (length hid_descriptor <=? i)%nat then Return p
  else
    match fuel with
    | O => OutOfFuel
    | S fuel' =>
        s <- parse_body hid_descriptor i p ;;
        parse_loop hid_descriptor fuel' (fst s) (snd s)
    end.

(** The item loop of [_init_devices]: the completed top-level collections. *)
Definition parse_descriptor (hid_descriptor : bytes) : outcome (list collection) :=
  p <- parse_loop hid_descriptor (length hid_descriptor) 0 initial_parser ;;
  Return (top_level_collections p).

(** An entry of the [reports] dict. *)
Record report : Type := { input_size : Z; output_size : Z }.

Definition reports_t : Type := Dict.t report.

(** [x[0]] for an entry [x] of a register table. *)
Definition first_byte (x : option bytes) : outcome Z :=
  match x with
  | None => Raise TypeError
  | Some data => b <- index data 0 ;; Return (byte_Z b)
  end.

(** [[x[0] for x in l]] *)
Fixpoint first_bytes (l : table) : outcome (list Z) :=
  match l with
  | [] => Return []
  | x :: r => z <- first_byte x ;; zs <- first_bytes r ;; Return (z :: zs)
  end.

(** [report_size, report_id, report_count = [x[0] for x in globals[7:10]]] *)
Definition item_fields (globals : table) : outcome (Z * Z * Z) :=
  zs <- first_bytes (slice globals 7 10) ;;
  match zs with
  | [report_size; report_id; report_count] =>
      Return (report_size, report_id, report_count)
  | _ => Raise ValueError
  end.

(** The [else] branch of the loop of [get_report_info], on an item. *)
Definition report_info_item (tag : item_tag) (globals : table) (reports : reports_t)
  : outcome reports_t :=
  fields <- item_fields globals ;;
  let '(report_size, report_id, report_count) := fields in
  let reports :=
    if Dict.mem reports report_id then reports
    else Dict.set reports report_id {| input_size := 0; output_size := 0 |} in
  match Dict.get reports report_id with
  | None => Raise KeyError
  | Some r =>
      Return
        (Dict.set reports report_id
           match tag with
           | input => {| input_size := input_size r + report_size * report_count;
                         output_size := output_size r |}
           | output => {| input_size := input_size r;
                          output_size := output_size r + report_size * report_count |}
           end)
  end.

(** One iteration of [for main in collection["mains"]]; the inner [fix] is
    the loop of the recursive call [get_report_info(main, reports)]. *)
Fixpoint report_info_main (m : main) (reports : reports_t) : outcome reports_t :=
  match m with
  | Collection _ _ _ mains =>
      (fix each (l : list main) (reports : reports_t) : outcome reports_t :=
         match l with
         | [] => Return reports
         | m' :: r => reports <- report_info_main m' reports ;; each r reports
         end) mains reports
  | Item tag _ globals => report_info_item tag globals reports
  end.

Fixpoint report_info_mains (l : list main) (reports : reports_t) : outcome reports_t :=
  match l with
  | [] => Return reports
  | m :: r => reports <- report_info_main m reports ;; report_info_mains r reports
  end.

Definition get_report_info (c : collection) (reports : reports_t) : outcome reports_t :=
  report_info_mains (c_mains c) reports.

(** A report endpoint appended to [self.devices]. *)
Inductive device : Type :=
| ReportOut (report_id usage_page usage : Z) (max_length : Z)
| ReportIn (report_id usage_page usage : Z) (max_length : Z).

(** The body of [for collection in top_level_collections]: the devices it
    appends. *)
Definition collection_devices (c : collection) : outcome (list device) :=
  t <- index (c_type c) 0 ;;
  if negb (byte_Z t =? 1)
  then Raise (NotImplementedError "Only Application top level collections supported.")
  else
    g <- index (c_globals c) 0 ;;
    usage_page <- first_byte g ;;
    l <- index (c_locals c) 0 ;;
    usage <- first_byte l ;;
    reports <- get_report_info c [] ;;
    if (1 <? length reports)%nat
    then Raise (NotImplementedError
                  "Only on report id per Application collection supported")
    else
      first <- index reports 0 ;;
      let (report_id, r) := first : Z * report in
      let out :=
        if 0 <? output_size r
        then [ReportOut report_id usage_page usage (output_size r / 8)]
        else [] in
      match Dict.get reports report_id with
      | None => Raise KeyError
      | Some r' =>
          Return (out ++
                  if 0 <? input_size r'
                  then [ReportIn report_id usage_page usage (input_size r' / 8)]
                  else [])
      end.

Fixpoint devices_loop (cs : list collection) (devices : list device)
  : outcome (list device) :=
  match cs with
  | [] => Return devices
  | c :: r => ds <- collection_devices c ;; devices_loop r (devices ++ ds)
  end.

(** [HIDService._init_devices], on the report map: the final [self.devices]. *)
Definition _init_devices (hid_descriptor : bytes) : outcome (list device) :=
  tops <- parse_descriptor hid_descriptor ;;
  devices_loop tops [].

(** The bytes [encode_data] frames for an entry: the joined list, or
    [bytes(value)]. *)
Definition entry_bytes (v : value) : outcome bytes :=
  match v with
  | VList items => join items
  | _ => py_bytes v
  end.

(** An entry [encode_data] accepts under [key_encoding]: the key is in the
    range of the format, the value converts to bytes, and key and value
    together fit the one-byte length field. *)
Definition encodable (key_encoding : PyStruct.format) (e : Z * value) : bool :=
  PyStruct.in_range key_encoding (fst e)
  && match entry_bytes (snd e) with
     | Return b => (PyStruct.calcsize key_encoding + length b <=? 255)%nat
     | _ => false
     end.

(** The entry as a single byte string, when it converts to one. *)
Definition flatten (v : value) : value :=
  match entry_bytes v with
  | Return b => VBytes b
  | _ => v
  end.

Definition flatten_entry (e : Z * value) : Z * value := (fst e, flatten (snd e)).

(** The length byte, the packed key and the value bytes of one record. *)
Definition record_bytes (key_encoding : PyStruct.format) (key : Z) (b : bytes)
  : bytes :=
  byte_of_Z (Z.of_nat (PyStruct.calcsize key_encoding + length b))
  :: PyStruct.arrange key_encoding
       (PyStruct.le_bytes (PyStruct.calcsize key_encoding)
          (key mod PyStruct.modulus key_encoding))
  ++ b.

(** What [compute_length] adds to [value_size] for one value. *)
Definition entry_len (v : value) : nat :=
  match v with
  | VList items => fold_right (fun subv n => py_len subv + n)%nat 0%nat items
  | _ => py_len v
  end.

(** The bytes [compute_length] counts for a list of entries, entry by
    entry. *)
Definition records_size (key_encoding : PyStruct.format) (items : list (Z * value))
  : nat :=
  fold_right
    (fun e n => 1 + PyStruct.calcsize key_encoding + entry_len (snd e) + n)%nat
    0%nat items.

(** The records of a list of entries, one after the other. *)
Definition records (key_encoding : PyStruct.format) (items : list (Z * value))
  : bytes :=
  flat_map
    (fun e => match entry_bytes (snd e) with
              | Return b => record_bytes key_encoding (fst e) b
              | _ => []
              end)
    items.

(** The dictionary after [decode_data] has stored the bytes of each entry in
    turn. *)
Definition stored (items : list (Z * value)) (d : data_dict_t) : data_dict_t :=
  fold_left
    (fun d e => match entry_bytes (snd e) with
                | Return b => store d (fst e) b
                | _ => d
                end)
    items d.

(** The positions and dictionaries the loop of [decode_data] passes through:
    the state before the first iteration, and the state after each iteration
    that continues. *)
Inductive decode_reaches (key_encoding : PyStruct.format) (data : bytes)
  : nat -> data_dict_t -> Prop :=
| reaches_start : decode_reaches key_encoding data 0 []
| reaches_next i d i' d' :
    decode_reaches key_encoding data i d ->
    (i < length data)%nat ->
    decode_body key_encoding data i d = Return (Continue (i', d')) ->
    decode_reaches key_encoding data i' d'.

(** The states the item loop of [_init_devices] passes through. *)
Inductive parse_reaches (hid_descriptor : bytes) : nat -> parser -> Prop :=
| parse_start : parse_reaches hid_descriptor 0 initial_parser
| parse_next i p i' p' :
    parse_reaches hid_descriptor i p ->
    (i < length hid_descriptor)%nat ->
    parse_body hid_descriptor i p = Return (i', p') ->
    parse_reaches hid_descriptor i' p'.

(** The Input and Output items beneath an entry of a ["mains"] list, in the
    order [get_report_info] visits them: the tag and the snapshot of the
    global table of each. *)
Fixpoint items_of (m : main) : list (item_tag * table) :=
  match m with
  | Collection _ _ _ mains =>
      (fix each (l : list main) : list (item_tag * table) :=
         match l with
         | [] => []
         | m' :: r => items_of m' ++ each r
         end) mains
  | Item tag _ globals => [(tag, globals)]
  end.

Definition items_of_collection (c : collection) : list (item_tag * table) :=
  flat_map items_of (c_mains c).

(** [report_info_item] on each item of a list in turn. *)
Fixpoint report_info_items (l : list (item_tag * table)) (reports : reports_t)
  : outcome reports_t :=
  match l with
  | [] => Return reports
  | (tag, globals) :: r =>
      reports <- report_info_item tag globals reports ;;
      report_info_items r reports
  end.

(** The report ID an item carries, when its global slots 7 to 9 can be
    read. *)
Definition report_id_of (item : item_tag * table) : option Z :=
  match item_fields (snd item) with
  | Return (_, report_id, _) => Some report_id
  | _ => None
  end.

(** What [decode_data] leaves under a key: a byte string, or a list of at
    least two byte strings. *)
Definition decoded_value (v : value) : bool :=
  match v with
  | VBytes _ => true
  | VFlags _ => false
  | VList items =>
      (2 <=? length items)%nat
      && forallb (fun x => match x with VBytes _ => true | _ => false end) items
  end.

(** The snapshots held by an entry of a ["mains"] list, and by the entries
    beneath it, have the sizes of the register tables: 3 local slots and 10
    global slots. *)
Fixpoint well_sized (m : main) : bool :=
  match m with
  | Collection _ locals globals mains =>
      (length locals =? 3)%nat && (length globals =? 10)%nat
      && forallb well_sized mains
  | Item _ locals globals =>
      (length locals =? 3)%nat && (length globals =? 10)%nat
  end.

Definition well_sized_collection (c : collection) : bool :=
  (length (c_locals c) =? 3)%nat && (length (c_globals c) =? 10)%nat
  && forallb well_sized (c_mains c).

Definition well_sized_parser (p : parser) : bool :=
  (length (global_table p) =? 10)%nat && (length (local_table p) =? 3)%nat
  && forallb well_sized_collection (collections p)
  && forallb well_sized_collection (top_level_collections p).

(** [report_size * report_count] of an item, when its slots can be read. *)
Definition item_bits (item : item_tag * table) : Z :=
  match item_fields (snd item) with
  | Return (report_size, _, report_count) => report_size * report_count
  | _ => 0
  end.

Definition is_input (item : item_tag * table) : bool :=
  match fst item with input => true | output => false end.

(** The bits of the Input items, and of the Output items, of a list. *)
Definition input_bits (items : list (item_tag * table)) : Z :=
  fold_right (fun item n => if is_input item then item_bits item + n else n) 0 items.

Definition output_bits (items : list (item_tag * table)) : Z :=
  fold_right (fun item n => if is_input item then n else item_bits item + n) 0 items.

(** ** advertising/__init__.py: printing helpers *)

(** ["{:02x}".format(v)] for a byte [v]: two lower-case hexadecimal digits. *)
Definition hex_digit (n : N) : Ascii.ascii :=
  match String.get (N.to_nat n) "0123456789abcdef" with
  | Some c => c
  | None => Ascii.zero
  end.

Definition format_02x (v : byte) : string :=
  String (hex_digit (Byte.to_N v / 16))
    (String (hex_digit (Byte.to_N v mod 16)) EmptyString).

(** [sep.join(parts)] *)
Fixpoint str_join (sep : string) (parts : list string) : string :=
  match parts with
  | [] => EmptyString
  | [s] => s
  | s :: r => (s ++ sep ++ str_join sep r)%string
  end.

Definition to_hex (seq : bytes) : string :=
  str_join " " (map format_02x seq).

(** The double quote character. *)
Definition quote : string := String (Ascii.ascii_of_nat 34) EmptyString.

Definition to_bytes_literal (seq : bytes) : string :=
  (("b" ++ quote)
   ++ str_join "" (map (fun v => "\x" ++ format_02x v) seq)
   ++ quote)%string.

(** [Advertisement.__repr__] *)
Definition Advertisement_repr (obj : Advertisement) : outcome string :=
  data <- encode_data PyStruct.fmt_B (data_dict obj) ;;
  Return ("Advertisement(data=" ++ to_bytes_literal data ++ ")")%string.

(** ** __init__.py: [BLEConnection] *)

Section Connection.

(** The native connection: its state, and the result and the state after a
    call of [discover_remote_services((uuid.bleio_uuid,))]. Remote services
    and UUIDs are what the native layer makes them; a UUID is identified by
    an integer. *)
Variable bleio_connection : Type.
Variable bleio_service : Type.
Variable discover_remote_services :
  bleio_connection -> Z -> list bleio_service * bleio_connection.

(** A [Service] class, with its [uuid] attribute; constructing it around a
    remote service gives the service object, held here as the class and the
    remote service. *)
Variable service_class : Type.
Variable class_uuid : service_class -> Z.

Definition service : Type := (service_class * bleio_service)%type.

(** A key of [in] and of subscription: a [Service] class or a UUID. *)
Inductive connection_key : Type :=
| KeyClass (cls : service_class)
| KeyUuid (uuid : Z).

Record BLEConnection : Type := {
  _bleio_connection : bleio_connection;
  _discovered_bleio_services : Dict.t bleio_service;
  _constructed_services : Dict.t service
}.

(** [BLEConnection.__init__] *)
Definition BLEConnection_init (c : bleio_connection) : BLEConnection :=
  {| _bleio_connection := c;
     _discovered_bleio_services := [];
     _constructed_services := [] |}.

(** [BLEConnection._discover_remote] *)
Definition _discover_remote (self : BLEConnection) (uuid : Z)
  : option bleio_service * BLEConnection :=
  match Dict.get (_discovered_bleio_services self) uuid with
  | Some remote_service => (Some remote_service, self)
  | None =>
      let (results, c) := discover_remote_services (_bleio_connection self) uuid in
      match results with
      | remote_service :: _ =>
          (Some remote_service,
           {| _bleio_connection := c;
              _discovered_bleio_services :=
                Dict.set (_discovered_bleio_services self) uuid remote_service;
              _constructed_services := _constructed_services self |})
      | [] =>
          (None,
           {| _bleio_connection := c;
              _discovered_bleio_services := _discovered_bleio_services self;
              _constructed_services := _constructed_services self |})
      end
  end.

Definition key_uuid (key : connection_key) : Z :=
  match key with
  | KeyClass cls => class_uuid cls
  | KeyUuid uuid => uuid
  end.

(** [BLEConnection.__contains__] *)
Definition BLEConnection_contains (self : BLEConnection) (key : connection_key)
  : bool * BLEConnection :=
  let (remote_service, self) := _discover_remote self (key_uuid key) in
  (match remote_service with Some _ => true | None => false end, self).

(** [BLEConnection.__getitem__]: the result, or [KeyError], and the
    connection afterwards. *)
Definition BLEConnection_getitem (self : BLEConnection) (key : connection_key)
  : outcome (option service) * BLEConnection :=
  let uuid := key_uuid key in
  match Dict.get (_constructed_services self) uuid with
  | Some s => (Return (Some s), self)
  | None =>
      let (remote_service, self) := _discover_remote self uuid in
      match remote_service with
      | Some remote_service =>
          match key with
          | KeyClass cls =>
              let constructed_service := (cls, remote_service) in
              (Return (Some constructed_service),
               {| _bleio_connection := _bleio_connection self;
                  _discovered_bleio_services := _discovered_bleio_services self;
                  _constructed_services :=
                    Dict.set (_constructed_services self) uuid constructed_service |})
          | KeyUuid _ => (Return None, self)
          end
      | None => (Raise KeyError, self)
      end
  end.

End Connection.

(** The value of a hexadecimal digit and of a two-digit group; they undo
    [hex_digit] and [format_02x]. *)
Definition unhex_digit (c : Ascii.ascii) : N :=
  match String.index 0 (String c EmptyString) "0123456789abcdef" with
  | Some n => N.of_nat n
  | None => 0%N
  end.

Definition parse_02x (s : string) : option byte :=
  match s with
  | String c1 (String c2 EmptyString) =>
      Byte.of_N (16 * unhex_digit c1 + unhex_digit c2)
  | _ => None
  end.

(** A native connection to try [BLEConnection] on: its state counts the
    discovery calls made, and the peer has the one service 100, under
    UUID 6. *)
Definition counting_discover (calls : nat) (uuid : Z) : list Z * nat :=
  (if uuid =? 6 then [100] else [], S calls).

(** * Facts *)

Unset Implicit Arguments.

(** ** The model on small inputs *)

Example decode_two_records :
  decode_data PyStruct.fmt_B [x02; x01; x06; x04; x09; x61; x62; x63]
  = Return [(1, VBytes [x06]); (9, VBytes [x61; x62; x63])].
Proof. reflexivity. Qed.

Example decode_repeated_key :
  decode_data PyStruct.fmt_B [x02; x07; x0a; x02; x07; x0b; x02; x07; x0c]
  = Return [(7, VList [VBytes [x0a]; VBytes [x0b]; VBytes [x0c]])].
Proof. reflexivity. Qed.

Example decode_length_byte_only :
  decode_data PyStruct.fmt_B [x05] = Raise StructError.
Proof. reflexivity. Qed.

Example encode_two_records :
  encode_data PyStruct.fmt_B [(1, VBytes [x06]); (9, VBytes [x61; x62; x63])]
  = Return [x02; x01; x06; x04; x09; x61; x62; x63].
Proof. reflexivity. Qed.

Example encode_wide_key :
  encode_data PyStruct.fmt_H [(258, VBytes [x06])] = Return [x03; x02; x01; x06].
Proof. reflexivity. Qed.

Example encode_field_too_large :
  encode_data PyStruct.fmt_B [(1, VBytes (repeat x00 255))] = Raise StructError.
Proof. vm_compute. reflexivity. Qed.

Example tx_power_roundtrip :
  (adv <- tx_power_set Advertisement_init (-20) ;; tx_power_get adv)
  = Return (Some (-20)).
Proof. reflexivity. Qed.

Example tx_power_out_of_range :
  tx_power_set Advertisement_init 200 = Raise StructError.
Proof. reflexivity. Qed.

Example feature_item_unsupported :
  _init_devices [x05; x01; x09; x06; xa1; x01; xb1; x02; xc0]
  = Raise (RuntimeError "Unsupported main item in HID descriptor").
Proof. vm_compute. reflexivity. Qed.

Example physical_collection_unsupported :
  _init_devices [x05; x01; x09; x06; xa1; x00; xc0]
  = Raise (NotImplementedError "Only Application top level collections supported.").
Proof. vm_compute. reflexivity. Qed.

Example output_before_input :
  _init_devices
    [x05; x01; x09; x06; xa1; x01; x85; x01; x75; x08;
     x95; x08; x81; x02;            (* Input, 8 x 8 bits *)
     x95; x01; x91; x02;            (* Output, 1 x 8 bits *)
     xc0]
  = Return [ReportOut 1 1 6 1; ReportIn 1 1 6 8].
Proof. vm_compute. reflexivity. Qed.

(** ** Bytes *)

Lemma byte_Z_range (b : byte) : 0 <= byte_Z b < 256.
Proof.
  unfold byte_Z. pose proof (Byte.to_N_bounded b). lia.
Qed.

Lemma byte_nat_range (b : byte) : (byte_nat b <= 255)%nat.
Proof.
  unfold byte_nat. pose proof (Byte.to_N_bounded b). lia.
Qed.

Lemma byte_Z_of_Z (z : Z) : 0 <= z < 256 -> byte_Z (byte_of_Z z) = z.
Proof.
  intros Hz. unfold byte_of_Z, byte_Z.
  rewrite Z.mod_small by lia.
  destruct (Byte.of_N (Z.to_N z)) eqn:E.
  - apply Byte.to_of_N in E. rewrite E. lia.
  - apply Byte.of_N_None_iff in E. lia.
Qed.

Lemma byte_nat_of_Z (n : nat) :
  (n <= 255)%nat -> byte_nat (byte_of_Z (Z.of_nat n)) = n.
Proof.
  intros Hn. pose proof (byte_Z_of_Z (Z.of_nat n)) as H.
  unfold byte_Z in H. unfold byte_nat. lia.
Qed.

Lemma byte_of_Z_byte_Z (b : byte) : byte_of_Z (byte_Z b) = b.
Proof.
  unfold byte_of_Z. pose proof (byte_Z_range b) as H.
  rewrite Z.mod_small by lia. unfold byte_Z.
  rewrite N2Z.id, Byte.of_to_N. reflexivity.
Qed.

(** ** Slices *)

Lemma slice_app_middle {A : Type} (pre mid post : list A) :
  slice (pre ++ mid ++ post) (length pre) (length pre + length mid) = mid.
Proof.
  unfold slice. rewrite skipn_app, skipn_all, Nat.sub_diag. simpl.
  replace (length pre + length mid - length pre)%nat with (length mid + 0)%nat by lia.
  rewrite firstn_app_2. simpl. apply app_nil_r.
Qed.

Lemma slice_to_end {A : Type} (l : list A) (a b : nat) :
  (length l <= b)%nat -> slice l a b = skipn a l.
Proof.
  intros H. unfold slice. apply firstn_all2. rewrite length_skipn. lia.
Qed.

Lemma slice_assign_middle {A : Type} (pre old mid post : list A) :
  length old = length mid ->
  slice_assign (pre ++ old ++ post) (length pre) (length pre + length mid) mid
  = pre ++ mid ++ post.
Proof.
  intros H. unfold slice_assign.
  rewrite firstn_app, firstn_all, Nat.sub_diag. simpl. rewrite app_nil_r.
  rewrite skipn_app, skipn_all2 by lia. simpl.
  replace (length pre + length mid - length pre)%nat with (length old) by lia.
  rewrite skipn_app, skipn_all, Nat.sub_diag. reflexivity.
Qed.

(** ** The loop of [decode_data] *)

Section DecodeLoop.

Variable key_encoding : PyStruct.format.
Variable data : bytes.

Local Abbreviation key_size := (PyStruct.calcsize key_encoding).
Local Abbreviation item_length_at i := (byte_nat (nth i data x00)).

Lemma unpack_from_cases (offset : nat) :
  (exists key, PyStruct.unpack_from key_encoding data offset = Return key
               /\ (offset + key_size <= length data)%nat)
  \/ (PyStruct.unpack_from key_encoding data offset = Raise StructError
      /\ (length data < offset + key_size)%nat).
Proof.
  unfold PyStruct.unpack_from.
  destruct (offset + key_size <=? length data)%nat eqn:E.
  - left. eexists. split; [reflexivity | now apply Nat.leb_le].
  - right. split; [reflexivity | now apply Nat.leb_gt].
Qed.

(** The three ways an iteration ends. *)
Lemma decode_body_cases (i : nat) (d : data_dict_t) :
  (item_length_at i = 0%nat /\ decode_body key_encoding data i d = Return (Break d))
  \/ (item_length_at i <> 0%nat
      /\ (length data < i + 1 + key_size)%nat
      /\ decode_body key_encoding data i d = Raise StructError)
  \/ (item_length_at i <> 0%nat
      /\ (i + 1 + key_size <= length data)%nat
      /\ exists key,
           PyStruct.unpack_from key_encoding data (i + 1) = Return key
           /\ decode_body key_encoding data i d
              = Return (Continue
                          ((i + 1 + item_length_at i)%nat,
                           store d key
                             (slice data (i + 1 + key_size)
                                (i + 1 + item_length_at i))))).
Proof.
  unfold decode_body.
  destruct (item_length_at i =? 0)%nat eqn:E.
  - left. apply Nat.eqb_eq in E. auto.
  - apply Nat.eqb_neq in E. right.
    destruct (unpack_from_cases (i + 1)) as [(key & Hk & Hle) | (Hk & Hlt)];
      rewrite Hk; simpl.
    + right. repeat split; auto. exists key. auto.
    + left. auto.
Qed.

Lemma decode_body_advances (i i' : nat) (d d' : data_dict_t) :
  decode_body key_encoding data i d = Return (Continue (i', d')) ->
  (1 <= item_length_at i)%nat /\ i' = (i + 1 + item_length_at i)%nat.
Proof.
  intros H.
  destruct (decode_body_cases i d)
    as [(_ & E) | [(_ & _ & E) | (Hn & _ & key & _ & E)]];
    rewrite E in H; try discriminate.
  injection H as <- _. lia.
Qed.

(** Any two amounts of fuel that cover the rest of the buffer give the same
    result. *)
Lemma decode_loop_fuel (f1 : nat) :
  forall (f2 i : nat) (d : data_dict_t),
    (length data - i <= f1)%nat -> (length data - i <= f2)%nat ->
    decode_loop key_encoding data f1 i d = decode_loop key_encoding data f2 i d.
Proof.
  induction f1 as [|f1 IH]; intros f2 i d H1 H2.
  - destruct f2; simpl; destruct (length data <=? i)%nat eqn:E; try reflexivity;
      apply Nat.leb_gt in E; lia.
  - destruct f2; simpl; destruct (length data <=? i)%nat eqn:E; try reflexivity;
      apply Nat.leb_gt in E; try lia.
    destruct (decode_body key_encoding data i d) as [[[i' d']|d']|e|] eqn:B;
      simpl; try reflexivity.
    apply decode_body_advances in B. apply IH; lia.
Qed.

Lemma decode_loop_enough_fuel (fuel : nat) :
  forall (i : nat) (d : data_dict_t),
    (length data - i <= fuel)%nat ->
    decode_loop key_encoding data fuel i d <> OutOfFuel.
Proof.
  induction fuel as [|fuel IH]; intros i d H; simpl;
    destruct (length data <=? i)%nat eqn:E; try discriminate;
    apply Nat.leb_gt in E; try lia.
  destruct (decode_body_cases i d)
    as [(_ & B) | [(_ & _ & B) | (Hn & _ & key & _ & B)]];
    rewrite B; simpl; try discriminate.
  apply IH. lia.
Qed.

(** From a state the loop passes through, the rest of the loop decides the
    result of [decode_data]. *)
Lemma decode_reaches_result (i : nat) (d : data_dict_t) :
  decode_reaches key_encoding data i d ->
  decode_data key_encoding data
  = decode_loop key_encoding data (length data - i) i d.
Proof.
  induction 1 as [|i d i' d' Hr IH Hlt Hb].
  - unfold decode_data. rewrite Nat.sub_0_r. reflexivity.
  - rewrite IH.
    destruct (length data - i)%nat as [|k] eqn:Ek; [lia|].
    simpl. destruct (length data <=? i)%nat eqn:E;
      [apply Nat.leb_le in E; lia|].
    rewrite Hb. simpl.
    apply decode_body_advances in Hb.
    apply decode_loop_fuel; lia.
Qed.

End DecodeLoop.

(** C10: [decode_data] terminates on every buffer and key encoding. An
    iteration either stops on a zero length byte, or raises the error of
    [struct.unpack_from], or moves the position on by [1 + item_length] with
    [item_length >= 1]; so fuel equal to what is left of the buffer is never
    used up, and [decode_data] returns or raises. *)
Theorem decode_data_terminates :
  forall (key_encoding : PyStruct.format) (data : bytes),
    (forall (i : nat) (d : data_dict_t),
        let item_length := byte_nat (nth i data x00) in
        match decode_body key_encoding data i d with
        | Return (Break d') => item_length = 0%nat /\ d' = d
        | Return (Continue (i', _)) =>
            (1 <= item_length)%nat /\ i' = (i + 1 + item_length)%nat /\ (i < i')%nat
        | Raise e => (1 <= item_length)%nat /\ e = StructError
        | OutOfFuel => False
        end)
    /\ (forall (i extra : nat) (d : data_dict_t),
           decode_loop key_encoding data (length data - i + extra) i d <> OutOfFuel)
    /\ ((exists d, decode_data key_encoding data = Return d)
        \/ (exists e, decode_data key_encoding data = Raise e)).
Proof.
  intros key_encoding data. split; [|split].
  - intros i d item_length. subst item_length.
    destruct (decode_body_cases key_encoding data i d)
      as [(H0 & B) | [(Hn & _ & B) | (Hn & _ & key & _ & B)]];
      rewrite B; repeat split; auto; lia.
  - intros i extra d. apply decode_loop_enough_fuel. lia.
  - pose proof (decode_loop_enough_fuel key_encoding data (length data) 0 [])
      as H.
    unfold decode_data.
    destruct (decode_loop key_encoding data (length data) 0 []) as [d|e|].
    + left. eauto.
    + right. eauto.
    + exfalso. apply H; [lia | reflexivity].
Qed.

(** At a zero length byte the loop breaks and the dictionary built so far is
    the result. *)
Lemma decode_loop_breaks_at_zero (key_encoding : PyStruct.format) (data : bytes)
  (i : nat) (d : data_dict_t) :
  decode_reaches key_encoding data i d ->
  nth_error data i = Some x00 ->
  decode_data key_encoding data = Return d.
Proof.
  intros Hr Hz.
  rewrite (decode_reaches_result _ _ _ _ Hr).
  assert (Hlt : (i < length data)%nat)
    by (apply nth_error_Some; congruence).
  destruct (length data - i)%nat as [|k] eqn:Ek; [lia|].
  simpl. destruct (length data <=? i)%nat eqn:E;
    [apply Nat.leb_le in E; lia|].
  unfold decode_body.
  rewrite (nth_error_nth _ _ x00 Hz). reflexivity.
Qed.

(** C3, as stated, fails: the record at position 0 of this three-byte buffer
    declares five bytes, which reads past the end of the buffer, and
    [decode_data] returns a dictionary; no error is raised. *)
Lemma decode_data_truncated_record_returns :
  let data := [x05; x01; x02] in
  decode_reaches PyStruct.fmt_B data 0 []
  /\ byte_nat (nth 0 data x00) = 5%nat
  /\ (length data < 0 + 1 + 5)%nat
  /\ decode_data PyStruct.fmt_B data = Return [(1, VBytes [x02])]
  /\ ~ (exists e, decode_data PyStruct.fmt_B data = Raise e).
Proof.
  cbv zeta. repeat split.
  - apply reaches_start.
  - simpl. lia.
  - intros [e H]. discriminate H.
Qed.

(** C3, amended: when the loop of [decode_data] arrives at a record whose
    nonzero declared length reads past the end of the buffer, the slice that
    takes the value is cut at the end of the buffer and [decode_data] returns
    the dictionary with that shortened value stored; it fails, with the error
    of [struct.unpack_from], only when the bytes left after the length byte
    are fewer than the key needs. *)
Theorem decode_data_truncated_record :
  forall (key_encoding : PyStruct.format) (data : bytes) (i : nat) (d : data_dict_t),
    let key_size := PyStruct.calcsize key_encoding in
    let item_length := byte_nat (nth i data x00) in
    decode_reaches key_encoding data i d ->
    (i < length data)%nat ->
    item_length <> 0%nat ->
    (length data < i + 1 + item_length)%nat ->
    if (i + 1 + key_size <=? length data)%nat
    then exists key,
        PyStruct.unpack_from key_encoding data (i + 1) = Return key
        /\ decode_data key_encoding data
           = Return (store d key (skipn (i + 1 + key_size) data))
    else decode_data key_encoding data = Raise StructError.
Proof.
  intros key_encoding data i d key_size item_length Hr Hlt Hn Hpast.
  subst key_size item_length.
  rewrite (decode_reaches_result _ _ _ _ Hr).
  destruct (length data - i)%nat as [|k] eqn:Ek; [lia|].
  simpl. destruct (length data <=? i)%nat eqn:E;
    [apply Nat.leb_le in E; lia|].
  destruct (decode_body_cases key_encoding data i d)
    as [(H0 & B) | [(_ & Hshort & B) | (_ & Hfit & key & Hk & B)]].
  - contradiction.
  - rewrite B. simpl.
    destruct (i + 1 + PyStruct.calcsize key_encoding <=? length data)%nat eqn:F;
      [apply Nat.leb_le in F; lia | reflexivity].
  - rewrite B. simpl.
    destruct (i + 1 + PyStruct.calcsize key_encoding <=? length data)%nat eqn:F;
      [|apply Nat.leb_gt in F; lia].
    exists key. split; [exact Hk|].
    rewrite slice_to_end by lia.
    destruct k as [|k]; simpl;
      destruct (length data <=? i + 1 + byte_nat (nth i data x00))%nat eqn:G;
      try reflexivity; apply Nat.leb_gt in G; lia.
Qed.

Lemma decode_data_truncated_record_witness :
  exists key,
    PyStruct.unpack_from PyStruct.fmt_B [x05; x01; x02] 1 = Return key
    /\ decode_data PyStruct.fmt_B [x05; x01; x02]
       = Return (store [] key [x02]).
Proof.
  apply (decode_data_truncated_record PyStruct.fmt_B [x05; x01; x02] 0 []).
  - apply reaches_start.
  - simpl. lia.
  - vm_compute. lia.
  - vm_compute. lia.
Defined.

(** ** [struct]: packing and unpacking *)

Section StructFacts.

Import PyStruct.

Lemma length_le_bytes (n : nat) : forall z, length (le_bytes n z) = n.
Proof.
  induction n as [|n IH]; intros z; simpl; [reflexivity | now rewrite IH].
Qed.

Lemma length_arrange (f : format) (bs : bytes) : length (arrange f bs) = length bs.
Proof.
  unfold arrange. destruct (order f); [reflexivity | apply length_rev].
Qed.

Lemma arrange_arrange (f : format) (bs : bytes) : arrange f (arrange f bs) = bs.
Proof.
  unfold arrange. destruct (order f); [reflexivity | apply rev_involutive].
Qed.

Lemma le_value_le_bytes (n : nat) :
  forall z, 0 <= z < 256 ^ Z.of_nat n -> le_value (le_bytes n z) = z.
Proof.
  induction n as [|n IH]; intros z Hz.
  - simpl in *. lia.
  - rewrite Nat2Z.inj_succ, Z.pow_succ_r in Hz by lia.
    cbn [le_bytes le_value].
    rewrite byte_Z_of_Z by (apply Z.mod_pos_bound; lia).
    rewrite IH.
    + pose proof (Z.div_mod z 256 ltac:(lia)). lia.
    + split; [apply Z.div_pos; lia | apply Z.div_lt_upper_bound; lia].
Qed.

Lemma modulus_pos (f : format) : 0 < modulus f.
Proof.
  unfold modulus. apply Z.pow_pos_nonneg; lia.
Qed.

Lemma calcsize_pos (f : format) : (1 <= calcsize f)%nat.
Proof.
  unfold calcsize. destruct (code f); simpl; lia.
Qed.

Lemma interpret_mod (f : format) (v : Z) :
  in_range f v = true -> interpret f (v mod modulus f) = v.
Proof.
  unfold in_range, interpret.
  assert (Hm : modulus f = 2 * (modulus f / 2) /\ 0 < modulus f).
  { destruct f as [o c]; destruct c; vm_compute; split; reflexivity. }
  destruct Hm as [Hev Hpos].
  destruct (signed (code f)); simpl; intros H;
    apply andb_prop in H; destruct H as [Hlo Hhi].
  - apply Z.leb_le in Hlo. apply Z.ltb_lt in Hhi.
    destruct (Z_lt_dec v 0) as [Hneg|Hnn].
    + replace (v mod modulus f) with (v + modulus f).
      * destruct (modulus f / 2 <=? v + modulus f) eqn:E;
          [lia | apply Z.leb_gt in E; lia].
      * apply Z.mod_unique with (q := -1); lia.
    + rewrite Z.mod_small by lia.
      destruct (modulus f / 2 <=? v) eqn:E;
        [apply Z.leb_le in E; lia | reflexivity].
  - apply Z.leb_le in Hlo. apply Z.ltb_lt in Hhi.
    apply Z.mod_small. lia.
Qed.

Lemma pack_in_range (f : format) (v : Z) :
  in_range f v = true ->
  pack f v = Return (arrange f (le_bytes (calcsize f) (v mod modulus f))).
Proof.
  intros H. unfold pack. rewrite H. reflexivity.
Qed.

Lemma pack_length (f : format) (v : Z) (bs : bytes) :
  pack f v = Return bs -> length bs = calcsize f.
Proof.
  unfold pack. destruct (in_range f v); [|discriminate].
  intros H. injection H as <-. now rewrite length_arrange, length_le_bytes.
Qed.

Lemma pack_B (n : nat) :
  (n <= 255)%nat -> pack fmt_B (Z.of_nat n) = Return [byte_of_Z (Z.of_nat n)].
Proof.
  intros Hn.
  assert (R : in_range fmt_B (Z.of_nat n) = true).
  { unfold in_range. change (signed (code fmt_B)) with false.
    change (modulus fmt_B) with 256. cbv iota.
    apply andb_true_intro; split; [apply Z.leb_le | apply Z.ltb_lt]; lia. }
  rewrite (pack_in_range _ _ R).
  change (modulus fmt_B) with 256. change (calcsize fmt_B) with 1%nat.
  unfold arrange. cbn [order fmt_B le_bytes].
  rewrite !(Z.mod_small (Z.of_nat n) 256) by lia. reflexivity.
Qed.

(** Unpacking where a key was packed gives the key back. *)
Lemma unpack_from_packed (f : format) (v : Z) (pre post : bytes) :
  in_range f v = true ->
  unpack_from f
    (pre ++ arrange f (le_bytes (calcsize f) (v mod modulus f)) ++ post)
    (length pre)
  = Return v.
Proof.
  intros H. unfold unpack_from.
  set (kb := arrange f (le_bytes (calcsize f) (v mod modulus f))).
  assert (Hl : length kb = calcsize f)
    by (unfold kb; now rewrite length_arrange, length_le_bytes).
  destruct (length pre + calcsize f <=? length (pre ++ kb ++ post))%nat eqn:E.
  - rewrite <- Hl, slice_app_middle. unfold kb.
    rewrite arrange_arrange, le_value_le_bytes.
    + now rewrite interpret_mod.
    + apply Z.mod_pos_bound. apply modulus_pos.
  - apply Nat.leb_gt in E. rewrite !length_app in E. lia.
Qed.

Lemma pack_into_middle (f : format) (v : Z) (bs pre old post : bytes) :
  pack f v = Return bs ->
  length old = calcsize f ->
  pack_into f (pre ++ old ++ post) (length pre) v = Return (pre ++ bs ++ post).
Proof.
  intros Hp Hl. unfold pack_into.
  destruct (length pre + calcsize f <=? length (pre ++ old ++ post))%nat eqn:E.
  - rewrite Hp. simpl. pose proof (pack_length _ _ _ Hp) as Hb.
    rewrite <- Hb. rewrite slice_assign_middle by lia. reflexivity.
  - apply Nat.leb_gt in E. rewrite !length_app in E. lia.
Qed.

Lemma pack_into_length (f : format) (v : Z) (buffer buffer' : bytes) (offset : nat) :
  pack_into f buffer offset v = Return buffer' -> length buffer' = length buffer.
Proof.
  unfold pack_into.
  destruct (offset + calcsize f <=? length buffer)%nat eqn:E; [|discriminate].
  apply Nat.leb_le in E.
  destruct (pack f v) as [bs| |] eqn:Hp; simpl; try discriminate.
  intros H. injection H as <-. apply pack_length in Hp.
  unfold slice_assign.
  rewrite !length_app, length_firstn, length_skipn. lia.
Qed.

End StructFacts.

(** ** [compute_length] and [encode_data] *)

Ltac bind_inv H x E :=
  match type of H with
  | bind ?c _ = Return _ =>
      destruct c as [x| |] eqn:E; simpl in H; try discriminate H
  end.

Lemma join_length (items : list value) :
  forall b, join items = Return b ->
            length b = fold_right (fun subv n => py_len subv + n)%nat 0%nat items.
Proof.
  induction items as [|v r IH]; intros b H; simpl in H.
  - injection H as <-. reflexivity.
  - destruct v as [b0| |]; try discriminate H.
    bind_inv H rest E. injection H as <-.
    rewrite length_app. simpl. now rewrite (IH rest).
Qed.

Lemma entry_bytes_length (v : value) (b : bytes) :
  entry_bytes v = Return b -> length b = entry_len v.
Proof.
  destruct v as [b0|flags|items]; simpl.
  - intros H. now injection H as <-.
  - unfold AdvertisingFlags_bytes.
    destruct ((0 <=? flags) && (flags <? 256)); discriminate.
  - apply join_length.
Qed.

Lemma joined_entry (v v' : value) :
  joined v = Return v' ->
  py_len v' = entry_len v /\ py_bytes v' = entry_bytes v.
Proof.
  destruct v as [b0|flags|items]; simpl; intros H.
  - injection H as <-. auto.
  - injection H as <-. auto.
  - bind_inv H b E. injection H as <-. simpl.
    split; [now apply join_length | reflexivity].
Qed.

Lemma joined_of_entry_bytes (v : value) (b : bytes) :
  entry_bytes v = Return b ->
  exists v', joined v = Return v' /\ py_len v' = length b /\ py_bytes v' = Return b.
Proof.
  destruct v as [b0|flags|items]; simpl; intros H.
  - injection H as <-. eauto.
  - unfold AdvertisingFlags_bytes in H.
    destruct ((0 <=? flags) && (flags <? 256)); discriminate H.
  - rewrite H. simpl. eauto.
Qed.

Lemma value_size_cons (v : value) (vs : list value) :
  value_size (v :: vs) = (entry_len v + value_size vs)%nat.
Proof.
  destruct v; reflexivity.
Qed.

Lemma compute_length_records_size (key_encoding : PyStruct.format) (d : data_dict_t) :
  compute_length key_encoding d = records_size key_encoding d.
Proof.
  unfold compute_length, Dict.values.
  induction d as [|[k v] r IH]; [reflexivity|].
  cbn [map snd records_size fold_right length].
  rewrite value_size_cons. fold (records_size key_encoding r).
  rewrite <- IH. cbn [snd]. lia.
Qed.

Lemma encode_loop_length (key_encoding : PyStruct.format) (items : list (Z * value)) :
  forall (data : bytes) (i : nat) (buf : bytes),
    (i + records_size key_encoding items <= length data)%nat ->
    encode_loop key_encoding items data i = Return buf ->
    length buf = length data.
Proof.
  induction items as [|[key v] r IH]; intros data i buf Hfit H.
  - simpl in H. now injection H as <-.
  - cbn [encode_loop] in H.
    cbn [records_size fold_right snd] in Hfit.
    fold (records_size key_encoding r) in Hfit.
    bind_inv H v' Ev.
    apply joined_entry in Ev. destruct Ev as [Hlen Hbytes].
    bind_inv H data1 E1. apply pack_into_length in E1.
    bind_inv H data2 E2. apply pack_into_length in E2.
    bind_inv H b Eb.
    symmetry in Hbytes. apply entry_bytes_length in Hbytes. clear Eb.
    apply IH in H.
    + rewrite H. unfold slice_assign.
      rewrite !length_app, length_firstn, length_skipn. lia.
    + unfold slice_assign.
      rewrite !length_app, length_firstn, length_skipn. lia.
Qed.

(** C2: whenever [encode_data] returns a buffer, [compute_length] is the
    number of bytes of that buffer. *)
Theorem compute_length_exact :
  forall (key_encoding : PyStruct.format) (data_dict : data_dict_t) (buf : bytes),
    encode_data key_encoding data_dict = Return buf ->
    compute_length key_encoding data_dict = length buf.
Proof.
  intros key_encoding d buf H. unfold encode_data in H.
  apply encode_loop_length in H.
  - rewrite H. now rewrite repeat_length.
  - rewrite repeat_length, compute_length_records_size. lia.
Qed.

Lemma compute_length_exact_witness :
  compute_length PyStruct.fmt_B
    [(1, VBytes [x06]); (9, VBytes [x61; x62; x63]);
     (255, VList [VBytes [x01]; VBytes [x02]])]
  = length [x02; x01; x06; x04; x09; x61; x62; x63; x03; xff; x01; x02].
Proof.
  apply (compute_length_exact PyStruct.fmt_B
           [(1, VBytes [x06]); (9, VBytes [x61; x62; x63]);
            (255, VList [VBytes [x01]; VBytes [x02]])]).
  reflexivity.
Defined.

Lemma pack_into_at (f : PyStruct.format) (v : Z) (bs l1 old l2 : bytes) (n : nat) :
  PyStruct.pack f v = Return bs ->
  length old = PyStruct.calcsize f ->
  n = length l1 ->
  PyStruct.pack_into f (l1 ++ old ++ l2) n v = Return (l1 ++ bs ++ l2).
Proof.
  intros Hp Hl ->. now apply pack_into_middle.
Qed.

Lemma slice_assign_at {A : Type} (l1 old mid l2 : list A) (a b : nat) :
  a = length l1 -> b = (a + length mid)%nat -> length old = length mid ->
  slice_assign (l1 ++ old ++ l2) a b mid = l1 ++ mid ++ l2.
Proof.
  intros -> -> H. now apply slice_assign_middle.
Qed.

Lemma split_length {A : Type} (l : list A) (n m : nat) :
  length l = (n + m)%nat ->
  exists l1 l2, l = l1 ++ l2 /\ length l1 = n /\ length l2 = m.
Proof.
  intros H. exists (firstn n l), (skipn n l).
  rewrite firstn_skipn, length_firstn, length_skipn. repeat split; lia.
Qed.

Lemma encodable_inv (key_encoding : PyStruct.format) (key : Z) (v : value) :
  encodable key_encoding (key, v) = true ->
  PyStruct.in_range key_encoding key = true
  /\ exists b, entry_bytes v = Return b
               /\ (PyStruct.calcsize key_encoding + length b <= 255)%nat.
Proof.
  unfold encodable. cbn [fst snd]. intros H.
  apply andb_prop in H. destruct H as [Hr Hb]. split; [exact Hr|].
  destruct (entry_bytes v) as [b| |]; try discriminate.
  exists b. split; [reflexivity | now apply Nat.leb_le].
Qed.

(** On entries it accepts, the loop of [encode_data] overwrites the part of
    the buffer it was sized for with the records of the entries. *)
Lemma encode_loop_records (key_encoding : PyStruct.format) (items : list (Z * value)) :
  forall pre mid post : bytes,
    Forall (fun e => encodable key_encoding e = true) items ->
    length mid = records_size key_encoding items ->
    encode_loop key_encoding items (pre ++ mid ++ post) (length pre)
    = Return (pre ++ records key_encoding items ++ post).
Proof.
  induction items as [|[key v] r IH]; intros pre mid post Hall Hlen.
  - destruct mid; [reflexivity | discriminate Hlen].
  - inversion Hall as [|e l He Hr]; subst e l.
    apply encodable_inv in He. destruct He as (Hrange & b & Hb & Hfit).
    cbn [records_size fold_right snd] in Hlen.
    fold (records_size key_encoding r) in Hlen.
    rewrite <- (entry_bytes_length _ _ Hb) in Hlen.
    destruct mid as [|o mid1]; [discriminate Hlen|].
    destruct (split_length mid1 (PyStruct.calcsize key_encoding)
                (length b + records_size key_encoding r))
      as (ok & mid2 & -> & Hok & Hmid2); [simpl in Hlen; lia|].
    destruct (split_length mid2 (length b) (records_size key_encoding r) Hmid2)
      as (ov & mid' & -> & Hov & Hmid').
    destruct (joined_of_entry_bytes _ _ Hb) as (v' & Hj & Hl & Hpb).
    cbn [encode_loop]. rewrite Hj. cbn [bind]. rewrite Hl.
    replace (pre ++ (o :: ok ++ ov ++ mid') ++ post)
      with (pre ++ [o] ++ (ok ++ ov ++ mid' ++ post))
      by (cbn [app]; now rewrite <- !app_assoc).
    rewrite (pack_into_at _ _ _ pre [o] _ _ (pack_B _ Hfit) eq_refl eq_refl).
    cbn [bind].
    set (lb := byte_of_Z (Z.of_nat (PyStruct.calcsize key_encoding + length b))).
    replace (pre ++ [lb] ++ ok ++ ov ++ mid' ++ post)
      with ((pre ++ [lb]) ++ ok ++ (ov ++ mid' ++ post))
      by (now rewrite <- !app_assoc).
    rewrite (pack_into_at _ _ _ (pre ++ [lb]) ok _ _
               (pack_in_range _ _ Hrange) Hok)
      by (rewrite length_app; reflexivity).
    cbn [bind]. rewrite Hpb. cbn [bind].
    set (kb := PyStruct.arrange key_encoding
                 (PyStruct.le_bytes (PyStruct.calcsize key_encoding)
                    (key mod PyStruct.modulus key_encoding))).
    assert (Hkb : length kb = PyStruct.calcsize key_encoding)
      by (unfold kb; now rewrite length_arrange, length_le_bytes).
    replace ((pre ++ [lb]) ++ kb ++ ov ++ mid' ++ post)
      with ((pre ++ [lb] ++ kb) ++ ov ++ (mid' ++ post))
      by (now rewrite <- !app_assoc).
    rewrite (slice_assign_at (pre ++ [lb] ++ kb) ov b (mid' ++ post))
      by (rewrite ?length_app; cbn [length]; lia).
    replace (length pre + 1 + (PyStruct.calcsize key_encoding + length b))%nat
      with (length ((pre ++ [lb] ++ kb) ++ b))
      by (rewrite !length_app; cbn [length]; lia).
    rewrite app_assoc. rewrite (IH _ mid' post Hr Hmid').
    f_equal. cbn [records flat_map fst snd]. rewrite Hb.
    unfold record_bytes. fold lb kb. fold (records key_encoding r).
    cbn [app]. rewrite <- !app_assoc. reflexivity.
Qed.

(** ** Decoding what was encoded *)

Lemma decode_body_record (key_encoding : PyStruct.format) (key : Z)
  (b pre post : bytes) (d : data_dict_t) :
  PyStruct.in_range key_encoding key = true ->
  (PyStruct.calcsize key_encoding + length b <= 255)%nat ->
  decode_body key_encoding (pre ++ record_bytes key_encoding key b ++ post)
    (length pre) d
  = Return (Continue ((length pre + length (record_bytes key_encoding key b))%nat,
                      store d key b)).
Proof.
  intros Hrange Hfit. unfold decode_body, record_bytes.
  set (ks := PyStruct.calcsize key_encoding) in *.
  set (lb := byte_of_Z (Z.of_nat (ks + length b))).
  set (kb := PyStruct.arrange key_encoding
               (PyStruct.le_bytes ks (key mod PyStruct.modulus key_encoding))).
  assert (Hkb : length kb = ks)
    by (unfold kb; now rewrite length_arrange, length_le_bytes).
  assert (Hks : (1 <= ks)%nat) by apply calcsize_pos.
  cbn [app]. rewrite nth_middle.
  assert (Hlb : byte_nat lb = (ks + length b)%nat)
    by (apply byte_nat_of_Z; exact Hfit).
  rewrite Hlb.
  destruct (ks + length b =? 0)%nat eqn:E; [apply Nat.eqb_eq in E; lia|].
  replace (pre ++ lb :: (kb ++ b) ++ post)
    with ((pre ++ [lb]) ++ kb ++ (b ++ post))
    by (rewrite <- !app_assoc; reflexivity).
  replace (length pre + 1)%nat with (length (pre ++ [lb]))
    by (rewrite length_app; reflexivity).
  unfold kb, ks. rewrite (unpack_from_packed _ _ _ _ Hrange).
  fold ks. fold kb. cbn [bind].
  replace ((pre ++ [lb]) ++ kb ++ b ++ post)
    with ((pre ++ [lb] ++ kb) ++ b ++ post)
    by (rewrite <- !app_assoc; reflexivity).
  replace (length (pre ++ [lb]) + ks)%nat with (length (pre ++ [lb] ++ kb))
    by (rewrite !length_app; cbn [length]; lia).
  replace (length (pre ++ [lb]) + (ks + length b))%nat
    with (length (pre ++ [lb] ++ kb) + length b)%nat
    by (rewrite !length_app; cbn [length]; lia).
  rewrite slice_app_middle.
  do 3 f_equal. rewrite !length_app. cbn [length]. rewrite length_app. lia.
Qed.

Lemma records_app (key_encoding : PyStruct.format) (l1 l2 : list (Z * value)) :
  records key_encoding (l1 ++ l2) = records key_encoding l1 ++ records key_encoding l2.
Proof.
  unfold records. apply flat_map_app.
Qed.

Lemma decode_reaches_records (key_encoding : PyStruct.format)
  (items : list (Z * value)) :
  forall post : bytes,
    Forall (fun e => encodable key_encoding e = true) items ->
    decode_reaches key_encoding (records key_encoding items ++ post)
      (length (records key_encoding items)) (stored items []).
Proof.
  induction items as [|[key v] r IH] using rev_ind; intros post Hall.
  - apply reaches_start.
  - apply Forall_app in Hall. destruct Hall as [Hr He].
    inversion He as [|e l Hkv _]; subst e l.
    apply encodable_inv in Hkv. destruct Hkv as (Hrange & b & Hb & Hfit).
    rewrite records_app.
    assert (Hrec : records key_encoding [(key, v)] = record_bytes key_encoding key b).
    { cbn [records flat_map fst snd]. rewrite Hb. apply app_nil_r. }
    rewrite Hrec, <- app_assoc.
    unfold stored. rewrite fold_left_app. fold (stored r []).
    cbn [fold_left fst snd]. rewrite Hb.
    eapply reaches_next.
    + apply IH. exact Hr.
    + rewrite !length_app. unfold record_bytes. cbn [length]. lia.
    + rewrite decode_body_record by assumption.
      now rewrite length_app.
Qed.

Lemma decode_data_records (key_encoding : PyStruct.format) (items : list (Z * value)) :
  Forall (fun e => encodable key_encoding e = true) items ->
  decode_data key_encoding (records key_encoding items) = Return (stored items []).
Proof.
  intros Hall.
  pose proof (decode_reaches_records key_encoding items [] Hall) as Hr.
  rewrite app_nil_r in Hr.
  rewrite (decode_reaches_result _ _ _ _ Hr).
  rewrite Nat.sub_diag. simpl. now rewrite Nat.leb_refl.
Qed.

Lemma dict_get_None {V : Type} (d : Dict.t V) (k : Z) :
  ~ In k (Dict.keys d) -> Dict.get d k = None.
Proof.
  induction d as [|[k' v] r IH]; intros H; simpl; [reflexivity|].
  simpl in H. destruct (k' =? k) eqn:E.
  - apply Z.eqb_eq in E. tauto.
  - apply IH. tauto.
Qed.

Lemma dict_set_new {V : Type} (d : Dict.t V) (k : Z) (v : V) :
  ~ In k (Dict.keys d) -> Dict.set d k v = d ++ [(k, v)].
Proof.
  induction d as [|[k' v'] r IH]; intros H; simpl; [reflexivity|].
  simpl in H. destruct (k' =? k) eqn:E.
  - apply Z.eqb_eq in E. tauto.
  - rewrite IH by tauto. reflexivity.
Qed.

Lemma store_new (d : data_dict_t) (key : Z) (b : bytes) :
  ~ In key (Dict.keys d) -> store d key b = d ++ [(key, VBytes b)].
Proof.
  intros H. unfold store. rewrite (dict_get_None _ _ H).
  now apply dict_set_new.
Qed.

Lemma stored_distinct (key_encoding : PyStruct.format) (items : list (Z * value)) :
  forall d : data_dict_t,
    Forall (fun e => encodable key_encoding e = true) items ->
    NoDup (Dict.keys d ++ Dict.keys items) ->
    stored items d = d ++ map flatten_entry items.
Proof.
  induction items as [|[key v] r IH]; intros d Hall Hnd.
  - simpl. now rewrite app_nil_r.
  - inversion Hall as [|e l He Hr]; subst e l.
    apply encodable_inv in He. destruct He as (_ & b & Hb & _).
    cbn [stored fold_left fst snd]. rewrite Hb.
    fold (stored r (store d key b)).
    assert (Hnew : ~ In key (Dict.keys d)).
    { intros Hin. apply NoDup_remove_2 in Hnd. apply Hnd.
      apply in_or_app. now left. }
    rewrite (store_new _ _ _ Hnew). rewrite IH.
    + rewrite <- app_assoc. cbn [map app]. unfold flatten_entry at 2.
      cbn [fst snd]. unfold flatten. now rewrite Hb.
    + exact Hr.
    + unfold Dict.keys in *. rewrite map_app. cbn [map fst app] in *.
      rewrite <- app_assoc. exact Hnd.
Qed.

(** C8: when the loop of [decode_data] arrives at a position that holds a
    zero length byte, [decode_data] returns, without an error, the dictionary
    of the records decoded up to there, whatever bytes follow. In particular
    the records of entries that [encode_data] accepts, followed by a zero
    byte and arbitrary bytes, decode to what the records alone decode to. *)
Theorem decode_data_stops_at_zero_length :
  forall (key_encoding : PyStruct.format) (data : bytes) (i : nat) (d : data_dict_t),
    decode_reaches key_encoding data i d ->
    nth_error data i = Some x00 ->
    decode_data key_encoding data = Return d
    /\ forall (items : list (Z * value)) (garbage : bytes),
        Forall (fun e => encodable key_encoding e = true) items ->
        decode_data key_encoding (records key_encoding items ++ x00 :: garbage)
        = decode_data key_encoding (records key_encoding items).
Proof.
  intros key_encoding data i d Hr Hz. split.
  - exact (decode_loop_breaks_at_zero _ _ _ _ Hr Hz).
  - intros items garbage Hall.
    rewrite (decode_data_records _ _ Hall).
    apply decode_loop_breaks_at_zero with (i := length (records key_encoding items)).
    + now apply decode_reaches_records.
    + rewrite nth_error_app2, Nat.sub_diag by lia. reflexivity.
Qed.

Lemma decode_data_stops_at_zero_length_witness :
  decode_data PyStruct.fmt_B [x02; x01; x06; x00; xff; x07; xff]
  = Return [(1, VBytes [x06])].
Proof.
  apply (decode_data_stops_at_zero_length
           PyStruct.fmt_B [x02; x01; x06; x00; xff; x07; xff] 3).
  - eapply reaches_next with (i := 0%nat) (d := []).
    + apply reaches_start.
    + simpl. lia.
    + reflexivity.
  - reflexivity.
Defined.

(** C1, as stated, fails on an entry that holds a sequence: [encode_data]
    joins the two values into one record, and [decode_data] gives back one
    byte string, not the sequence. *)
Lemma roundtrip_loses_sequence :
  let m := [(1, VList [VBytes [x61]; VBytes [x62]])] in
  forallb (encodable PyStruct.fmt_B) m = true
  /\ encode_data PyStruct.fmt_B m = Return [x03; x01; x61; x62]
  /\ decode_data PyStruct.fmt_B [x03; x01; x61; x62]
     = Return [(1, VBytes [x61; x62])]
  /\ decode_data PyStruct.fmt_B [x03; x01; x61; x62] <> Return m.
Proof.
  cbv zeta. repeat split. discriminate.
Qed.

(** C1, amended: for a dictionary with distinct keys whose entries
    [encode_data] accepts (key in the range of the key format, key and value
    within the one-byte length), encoding succeeds and decoding the buffer
    with the same key format returns every entry as a single byte string: an
    entry that held one byte string comes back unchanged, and an entry that
    held a sequence comes back as the concatenation of the sequence in order.
    A dictionary of single byte strings therefore comes back as it was. *)
Theorem encode_decode_roundtrip :
  forall (key_encoding : PyStruct.format) (m : data_dict_t),
    NoDup (Dict.keys m) ->
    Forall (fun e => encodable key_encoding e = true) m ->
    exists buf,
      encode_data key_encoding m = Return buf
      /\ decode_data key_encoding buf = Return (map flatten_entry m)
      /\ (Forall (fun e => exists b, snd e = VBytes b) m ->
          decode_data key_encoding buf = Return m).
Proof.
  intros key_encoding m Hnd Hall.
  exists (records key_encoding m).
  assert (Henc : encode_data key_encoding m = Return (records key_encoding m)).
  { unfold encode_data.
    pose proof (encode_loop_records key_encoding m []
                  (repeat x00 (compute_length key_encoding m)) [] Hall) as H.
    rewrite !app_nil_r in H. cbn [app length] in H.
    apply H. now rewrite repeat_length, compute_length_records_size. }
  assert (Hdec : decode_data key_encoding (records key_encoding m)
                 = Return (map flatten_entry m)).
  { rewrite (decode_data_records _ _ Hall).
    now rewrite (stored_distinct key_encoding m [] Hall Hnd). }
  repeat split; [exact Henc | exact Hdec |].
  intros Hsingle. rewrite Hdec.
  assert (Hid : map flatten_entry m = m).
  { clear - Hsingle.
    induction Hsingle as [|[k v] r [b Hb] _ IH]; [reflexivity|].
    cbn [map]. rewrite IH. cbn [snd] in Hb. subst v. reflexivity. }
  now rewrite Hid.
Qed.

Lemma encode_decode_roundtrip_witness :
  exists buf,
    encode_data PyStruct.fmt_H [(1, VBytes [x06]); (513, VBytes [x61; x62])]
    = Return buf
    /\ decode_data PyStruct.fmt_H buf
       = Return (map flatten_entry [(1, VBytes [x06]); (513, VBytes [x61; x62])])
    /\ (Forall (fun e => exists b, snd e = VBytes b)
          [(1, VBytes [x06]); (513, VBytes [x61; x62])] ->
        decode_data PyStruct.fmt_H buf
        = Return [(1, VBytes [x06]); (513, VBytes [x61; x62])]).
Proof.
  apply (encode_decode_roundtrip PyStruct.fmt_H
           [(1, VBytes [x06]); (513, VBytes [x61; x62])]).
  - repeat constructor; simpl; intuition discriminate.
  - repeat constructor.
Defined.

(** ** Field descriptors *)

Lemma from_entry_immutable (entry : ScanEntry) (adv : Advertisement) :
  from_entry entry = Return adv ->
  mutable adv = false /\ flags_attr adv = None.
Proof.
  unfold from_entry.
  destruct (decode_data PyStruct.fmt_B (advertisement_bytes entry)); simpl;
    try discriminate.
  intros H. injection H as <-. auto.
Qed.

(** C4, as stated, fails in its second half: on a received advertisement
    without a flags entry, reading [flags] gives [None]; there is no flags
    object whose three flags could be read as false. *)
Lemma received_flags_absent :
  let entry := {| advertisement_bytes := [x02; x09; x41];
                  entry_address := [x01; x02; x03; x04; x05; x06];
                  entry_rssi := -40;
                  entry_connectable := true;
                  entry_scan_response := false |} in
  exists adv,
    from_entry entry = Return adv
    /\ mutable adv = false
    /\ Dict.mem (data_dict adv) 1 = false
    /\ Advertisement_flags adv = Return (None, adv)
    /\ ~ (exists flags adv',
             Advertisement_flags adv = Return (Some flags, adv')
             /\ general_discovery flags = false
             /\ le_only flags = false
             /\ limited_discovery flags = false).
Proof.
  cbv zeta. eexists. split; [reflexivity|].
  repeat split. intros (flags & adv' & H & _). discriminate H.
Qed.

(** C4, amended: on an advertisement without a flags entry whose [flags]
    attribute is not bound yet, reading [flags] binds, when the advertisement
    is mutable, a flags object of byte [0b110], for which general_discovery
    and le_only are true and limited_discovery is false, and stores it in the
    dictionary; when the advertisement is immutable the read yields [None]
    and leaves the advertisement as it was. Only the constructor of the flags
    object, run on such an immutable advertisement, would set the byte 0,
    for which the three flags are false. *)
Theorem flags_defaults :
  forall adv : Advertisement,
    flags_attr adv = None ->
    Dict.mem (data_dict adv) 1 = false ->
    if mutable adv
    then exists adv',
        Advertisement_flags adv = Return (Some 6, adv')
        /\ data_dict adv' = Dict.set (data_dict adv) 1 (VFlags 6)
        /\ flags_attr adv' = Some 6
        /\ general_discovery 6 = true
        /\ le_only 6 = true
        /\ limited_discovery 6 = false
    else Advertisement_flags adv = Return (None, adv)
         /\ AdvertisingFlags_init adv 1 = Return 0
         /\ general_discovery 0 = false
         /\ le_only 0 = false
         /\ limited_discovery 0 = false.
Proof.
  intros adv Hattr Habsent.
  unfold Advertisement_flags, LazyField_get, AdvertisingFlags_init.
  rewrite Hattr, Habsent.
  unfold Dict.mem in Habsent.
  destruct (Dict.get (data_dict adv) 1) eqn:G; [discriminate|].
  destruct (mutable adv); simpl.
  - eexists. repeat split.
  - repeat split.
Qed.

Lemma flags_defaults_witness :
  exists adv',
    Advertisement_flags Advertisement_init = Return (Some 6, adv')
    /\ data_dict adv' = Dict.set (data_dict Advertisement_init) 1 (VFlags 6)
    /\ flags_attr adv' = Some 6
    /\ general_discovery 6 = true
    /\ le_only 6 = true
    /\ limited_discovery 6 = false.
Proof.
  apply (flags_defaults Advertisement_init); reflexivity.
Defined.

Lemma dict_get_set {V : Type} (d : Dict.t V) (k : Z) (v : V) :
  Dict.get (Dict.set d k v) k = Some v.
Proof.
  induction d as [|[k' v'] r IH]; simpl.
  - now rewrite Z.eqb_refl.
  - destruct (k' =? k) eqn:E; simpl; rewrite E; [reflexivity | exact IH].
Qed.

(** C9, as stated, fails: on a received, immutable advertisement the write
    [tx_power = 200] raises [struct.error], since 200 is outside the range
    of the field's format [<b]. *)
Lemma received_tx_power_out_of_range :
  let entry := {| advertisement_bytes := [x02; x0a; x04];
                  entry_address := [x01; x02; x03; x04; x05; x06];
                  entry_rssi := -40;
                  entry_connectable := true;
                  entry_scan_response := false |} in
  exists adv,
    from_entry entry = Return adv
    /\ mutable adv = false
    /\ tx_power_get adv = Return (Some 4)
    /\ tx_power_set adv 200 = Raise StructError.
Proof.
  cbv zeta. eexists. split; [reflexivity|]. repeat split.
Qed.

(** C9, amended: on an immutable advertisement a String write never raises,
    and a Struct write raises exactly when the value is outside the range of
    the field's format, with [struct.error]. A write that returns has put
    the encoded bytes (the UTF-8 bytes of the string, the packed bytes of
    the number) under the field's type code; the advertisement stays
    immutable and its other attributes are untouched. The [mutable] flag is
    never consulted: the same write on a mutable advertisement with the same
    dictionary returns or raises alike and leaves the same dictionary. *)
Theorem set_field_ignores_mutable :
  forall (adv : Advertisement) (_adt : Z),
    mutable adv = false ->
    (forall s : string,
        exists adv',
          String_set _adt adv s = Return adv'
          /\ data_dict adv'
             = Dict.set (data_dict adv) _adt (VBytes (encode_utf8 s))
          /\ Dict.get (data_dict adv') _adt = Some (VBytes (encode_utf8 s))
          /\ mutable adv' = false
          /\ (address adv', _rssi adv', connectable adv', scan_response adv',
              flags_attr adv')
             = (address adv, _rssi adv, connectable adv, scan_response adv,
                flags_attr adv))
    /\ (forall (_format : PyStruct.format) (v : Z),
           if PyStruct.in_range _format v
           then exists (b : bytes) (adv' : Advertisement),
               PyStruct.pack _format v = Return b
               /\ Struct_set _format _adt adv v = Return adv'
               /\ data_dict adv' = Dict.set (data_dict adv) _adt (VBytes b)
               /\ Dict.get (data_dict adv') _adt = Some (VBytes b)
               /\ mutable adv' = false
               /\ (address adv', _rssi adv', connectable adv',
                   scan_response adv', flags_attr adv')
                  = (address adv, _rssi adv, connectable adv,
                     scan_response adv, flags_attr adv)
           else Struct_set _format _adt adv v = Raise StructError)
    /\ (forall twin : Advertisement,
           mutable twin = true ->
           data_dict twin = data_dict adv ->
           (forall s : string,
               exists twin',
                 String_set _adt twin s = Return twin'
                 /\ data_dict twin'
                    = Dict.set (data_dict adv) _adt (VBytes (encode_utf8 s)))
           /\ (forall (_format : PyStruct.format) (v : Z),
                  if PyStruct.in_range _format v
                  then exists (b : bytes) (twin' : Advertisement),
                      PyStruct.pack _format v = Return b
                      /\ Struct_set _format _adt twin v = Return twin'
                      /\ data_dict twin'
                         = Dict.set (data_dict adv) _adt (VBytes b)
                  else Struct_set _format _adt twin v = Raise StructError)).
Proof.
  intros adv _adt Himm. split; [|split].
  - intros s. eexists. split; [reflexivity|].
    cbn [with_data_dict data_dict mutable address _rssi connectable
         scan_response flags_attr].
    repeat split; [apply dict_get_set | exact Himm].
  - intros _format v. unfold Struct_set, PyStruct.pack.
    destruct (PyStruct.in_range _format v); [|reflexivity].
    eexists. eexists. split; [reflexivity|]. cbn [bind]. split; [reflexivity|].
    cbn [with_data_dict data_dict mutable address _rssi connectable
         scan_response flags_attr].
    repeat split; [apply dict_get_set | exact Himm].
  - intros twin _ Hd. split.
    + intros s. eexists. split; [reflexivity|].
      cbn [with_data_dict data_dict]. now rewrite Hd.
    + intros _format v. unfold Struct_set, PyStruct.pack.
      destruct (PyStruct.in_range _format v); [|reflexivity].
      eexists. eexists. split; [reflexivity|]. cbn [bind]. split; [reflexivity|].
      cbn [with_data_dict data_dict]. now rewrite Hd.
Qed.

Lemma set_field_ignores_mutable_witness :
  let adv := {| data_dict := [(9, VBytes [x41])];
                address := Some [x01; x02; x03; x04; x05; x06];
                _rssi := Some (-40);
                connectable := true;
                mutable := false;
                scan_response := false;
                flags_attr := None |} in
  let twin := {| data_dict := [(9, VBytes [x41])];
                 address := None; _rssi := None; connectable := false;
                 mutable := true; scan_response := false;
                 flags_attr := Some 6 |} in
  (exists adv',
      String_set 9 adv "Bo" = Return adv'
      /\ data_dict adv' = [(9, VBytes [x42; x6f])]
      /\ Dict.get (data_dict adv') 9 = Some (VBytes [x42; x6f])
      /\ mutable adv' = false
      /\ (address adv', _rssi adv', connectable adv', scan_response adv',
          flags_attr adv')
         = (Some [x01; x02; x03; x04; x05; x06], Some (-40), true, false, None))
  /\ (exists adv',
         Struct_set PyStruct.fmt_b 10 adv (-8) = Return adv'
         /\ data_dict adv' = [(9, VBytes [x41]); (10, VBytes [xf8])]
         /\ Dict.get (data_dict adv') 10 = Some (VBytes [xf8])
         /\ mutable adv' = false
         /\ (address adv', _rssi adv', connectable adv', scan_response adv',
             flags_attr adv')
            = (Some [x01; x02; x03; x04; x05; x06], Some (-40), true, false,
               None))
  /\ Struct_set PyStruct.fmt_b 10 adv 200 = Raise StructError
  /\ (exists twin',
         String_set 9 twin "Bo" = Return twin'
         /\ data_dict twin' = [(9, VBytes [x42; x6f])])
  /\ Struct_set PyStruct.fmt_b 10 twin 200 = Raise StructError.
Proof.
  intros adv twin.
  pose proof (set_field_ignores_mutable adv 9 eq_refl) as H9.
  pose proof (set_field_ignores_mutable adv 10 eq_refl) as H10.
  split; [exact (proj1 H9 "Bo"%string)|].
  split.
  { destruct (proj1 (proj2 H10) PyStruct.fmt_b (-8))
      as (b & adv' & Hp & Hset & Hd & Hg & Hm & Hrest).
    injection Hp as <-. exists adv'. repeat split; assumption. }
  split; [exact (proj1 (proj2 H10) PyStruct.fmt_b 200)|].
  split; [exact (proj1 (proj2 (proj2 H9) twin eq_refl eq_refl) "Bo"%string)|].
  exact (proj2 (proj2 (proj2 H10) twin eq_refl eq_refl) PyStruct.fmt_b 200).
Defined.

(** ** The item loop of [_init_devices] *)

Lemma set_index_fuel {A : Type} (l : list A) :
  forall (n : nat) (x : A), set_index l n x <> OutOfFuel.
Proof.
  induction l as [|h t IH]; intros [|n] x; simpl; try discriminate.
  destruct (set_index t n x) eqn:S; simpl; try discriminate.
  exfalso. revert S. apply IH.
Qed.

Lemma pop_fuel {A : Type} (l : list A) : pop l <> OutOfFuel.
Proof.
  unfold pop. destruct (rev l); discriminate.
Qed.

Lemma append_to_last_fuel (cs : list collection) (m : main) :
  append_to_last cs m <> OutOfFuel.
Proof.
  unfold append_to_last. destruct (rev cs); discriminate.
Qed.

Lemma parse_item_fuel (_type tag : Z) (data : bytes) (p : parser) :
  parse_item _type tag data p <> OutOfFuel.
Proof.
  unfold parse_item.
  destruct (_type =? _ITEM_TYPE_GLOBAL).
  { destruct (set_index (global_table p) (Z.to_nat tag) (Some data)) eqn:S;
      simpl; try discriminate. exfalso. revert S. apply set_index_fuel. }
  destruct (_type =? _ITEM_TYPE_MAIN).
  2:{ destruct (set_index (local_table p) (Z.to_nat tag) (Some data)) eqn:S;
        simpl; try discriminate. exfalso. revert S. apply set_index_fuel. }
  destruct (tag =? _MAIN_ITEM_TAG_START_COLLECTION); [discriminate|].
  destruct (tag =? _MAIN_ITEM_TAG_END_COLLECTION).
  { destruct (pop (collections p)) as [[rest c]| |] eqn:P; simpl;
      try discriminate.
    - destruct rest as [|c0 rest]; simpl; [discriminate|].
      destruct (append_to_last (c0 :: rest) (as_main c)) eqn:Q; simpl;
        try discriminate. exfalso. revert Q. apply append_to_last_fuel.
    - exfalso. revert P. apply pop_fuel. }
  destruct (tag =? _MAIN_ITEM_TAG_INPUT).
  { destruct (append_to_last (collections p) _) eqn:Q; simpl;
      try discriminate. exfalso. revert Q. apply append_to_last_fuel. }
  destruct (tag =? _MAIN_ITEM_TAG_OUTPUT).
  { destruct (append_to_last (collections p) _) eqn:Q; simpl;
      try discriminate. exfalso. revert Q. apply append_to_last_fuel. }
  discriminate.
Qed.

Section ParseLoop.

Variable hid_descriptor : bytes.

Lemma parse_body_advances (i i' : nat) (p p' : parser) :
  parse_body hid_descriptor i p = Return (i', p') -> (i < i')%nat.
Proof.
  unfold parse_body.
  destruct (parse_item _ _ _ p) as [q|e|]; simpl; try discriminate.
  intros H. injection H as <- _. lia.
Qed.

Lemma parse_loop_fuel (f1 : nat) :
  forall (f2 i : nat) (p : parser),
    (length hid_descriptor - i <= f1)%nat ->
    (length hid_descriptor - i <= f2)%nat ->
    parse_loop hid_descriptor f1 i p = parse_loop hid_descriptor f2 i p.
Proof.
  induction f1 as [|f1 IH]; intros f2 i p H1 H2.
  - destruct f2; simpl; destruct (length hid_descriptor <=? i)%nat eqn:E;
      try reflexivity; apply Nat.leb_gt in E; lia.
  - destruct f2; simpl; destruct (length hid_descriptor <=? i)%nat eqn:E;
      try reflexivity; apply Nat.leb_gt in E; try lia.
    destruct (parse_body hid_descriptor i p) as [[i' p']|e|] eqn:B;
      simpl; try reflexivity.
    apply parse_body_advances in B. apply IH; lia.
Qed.

Lemma parse_body_fuel (i : nat) (p : parser) :
  parse_body hid_descriptor i p <> OutOfFuel.
Proof.
  unfold parse_body.
  destruct (parse_item _ _ _ p) as [q|e|] eqn:P; simpl; try discriminate.
  exfalso. revert P. apply parse_item_fuel.
Qed.

Lemma parse_loop_enough_fuel (fuel : nat) :
  forall (i : nat) (p : parser),
    (length hid_descriptor - i <= fuel)%nat ->
    parse_loop hid_descriptor fuel i p <> OutOfFuel.
Proof.
  induction fuel as [|fuel IH]; intros i p H; simpl;
    destruct (length hid_descriptor <=? i)%nat eqn:E; try discriminate;
    apply Nat.leb_gt in E; try lia.
  destruct (parse_body hid_descriptor i p) as [[i' p']|e|] eqn:B; simpl.
  - apply parse_body_advances in B. apply IH. lia.
  - discriminate.
  - exfalso. revert B. apply parse_body_fuel.
Qed.

Lemma parse_reaches_result (i : nat) (p : parser) :
  parse_reaches hid_descriptor i p ->
  parse_loop hid_descriptor (length hid_descriptor) 0 initial_parser
  = parse_loop hid_descriptor (length hid_descriptor - i) i p.
Proof.
  induction 1 as [|i p i' p' Hr IH Hlt Hb].
  - rewrite Nat.sub_0_r. reflexivity.
  - rewrite IH.
    destruct (length hid_descriptor - i)%nat as [|k] eqn:Ek; [lia|].
    simpl. destruct (length hid_descriptor <=? i)%nat eqn:E;
      [apply Nat.leb_le in E; lia|].
    rewrite Hb. simpl.
    apply parse_body_advances in Hb.
    apply parse_loop_fuel; lia.
Qed.

Lemma parse_descriptor_terminates :
  parse_descriptor hid_descriptor <> OutOfFuel.
Proof.
  unfold parse_descriptor.
  destruct (parse_loop hid_descriptor (length hid_descriptor) 0 initial_parser)
    eqn:L; simpl; try discriminate.
  exfalso. revert L. apply parse_loop_enough_fuel. lia.
Qed.

End ParseLoop.

(** C6: when the item loop arrives, with an empty [collections] stack, at a
    Main item whose tag is Input, Output or End Collection,
    [_init_devices] fails: [collections[-1]] or [collections.pop()] raises
    [IndexError], the failure the specification names MalformedDescriptor. *)
Theorem main_item_outside_collection :
  forall (hid_descriptor : bytes) (i : nat) (p : parser),
    let b := byte_Z (nth i hid_descriptor x00) in
    parse_reaches hid_descriptor i p ->
    (i < length hid_descriptor)%nat ->
    collections p = [] ->
    item_type_of b = _ITEM_TYPE_MAIN ->
    item_tag_of b = _MAIN_ITEM_TAG_INPUT
    \/ item_tag_of b = _MAIN_ITEM_TAG_OUTPUT
    \/ item_tag_of b = _MAIN_ITEM_TAG_END_COLLECTION ->
    _init_devices hid_descriptor = Raise IndexError.
Proof.
  intros desc i p b Hr Hlt Hempty Htype Htag.
  unfold _init_devices, parse_descriptor.
  rewrite (parse_reaches_result _ _ _ Hr).
  destruct (length desc - i)%nat as [|k] eqn:Ek; [lia|].
  simpl. destruct (length desc <=? i)%nat eqn:E;
    [apply Nat.leb_le in E; lia|].
  assert (B : parse_body desc i p = Raise IndexError).
  { unfold parse_body. fold b. rewrite Htype.
    unfold parse_item. rewrite Hempty.
    destruct Htag as [-> | [-> | ->]]; reflexivity. }
  rewrite B. reflexivity.
Qed.

Lemma main_item_outside_collection_witness :
  _init_devices [x05; x01; x81; x02] = Raise IndexError.
Proof.
  apply (main_item_outside_collection [x05; x01; x81; x02] 2
           {| global_table := Some [x01] :: repeat None 9;
              local_table := repeat None 3;
              collections := [];
              top_level_collections := [] |}).
  - eapply parse_next with (i := 0%nat).
    + apply parse_start.
    + simpl. lia.
    + reflexivity.
  - simpl. lia.
  - reflexivity.
  - reflexivity.
  - left. reflexivity.
Defined.


(** C5: the descriptor of one Application collection with Usage Page Generic
    Desktop, Usage Keyboard and a single Input item of Report ID 1, Report
    Size 8 and Report Count 8 (whatever the data byte of the Input item)
    parses to one top-level collection whose reports are exactly report 1
    with 64 input bits and 0 output bits, and [_init_devices] creates exactly
    one device, an input report of 8 bytes, and no output report. *)
Theorem keyboard_descriptor_devices :
  forall input_data : byte,
    let hid_descriptor :=
      [x05; x01;            (* Usage Page (Generic Desktop) *)
       x09; x06;            (* Usage (Keyboard) *)
       xa1; x01;            (* Collection (Application) *)
       x85; x01;            (*   Report ID (1) *)
       x75; x08;            (*   Report Size (8) *)
       x95; x08;            (*   Report Count (8) *)
       x81; input_data;     (*   Input *)
       xc0] in              (* End Collection *)
    let globals :=
      [Some [x01]; None; None; None; None; None; None;
       Some [x08]; Some [x01]; Some [x08]] in
    let c :=
      {| c_type := [x01];
         c_locals := [Some [x06]; None; None];
         c_globals := Some [x01] :: repeat None 9;
         c_mains := [Item input [None; None; None] globals] |} in
    parse_descriptor hid_descriptor = Return [c]
    /\ get_report_info c [] = Return [(1, {| input_size := 64; output_size := 0 |})]
    /\ _init_devices hid_descriptor = Return [ReportIn 1 1 6 8].
Proof.
  intros input_data hid_descriptor globals c.
  assert (P : parse_descriptor hid_descriptor = Return [c])
    by (vm_compute; reflexivity).
  split; [exact P|]. split; [vm_compute; reflexivity|].
  unfold _init_devices. rewrite P. vm_compute. reflexivity.
Qed.

(** ** [get_report_info] *)

(** Induction on an entry of a ["mains"] list, with the property available
    for every entry of a nested collection. *)
Lemma main_nested_ind (P : main -> Prop) :
  (forall type locals globals mains,
      Forall P mains -> P (Collection type locals globals mains)) ->
  (forall tag locals globals, P (Item tag locals globals)) ->
  forall m, P m.
Proof.
  intros HC HI.
  fix F 1. intros [type locals globals mains | tag locals globals].
  - apply HC. induction mains as [|m' r IH]; constructor; [apply F | exact IH].
  - apply HI.
Qed.

Lemma report_info_items_app (l1 l2 : list (item_tag * table)) :
  forall reports,
    report_info_items (l1 ++ l2) reports
    = (reports <- report_info_items l1 reports ;; report_info_items l2 reports).
Proof.
  induction l1 as [|[tag globals] r IH]; intros reports; simpl; [reflexivity|].
  destruct (report_info_item tag globals reports); simpl; auto.
Qed.

Lemma report_info_main_items (m : main) :
  forall reports,
    report_info_main m reports = report_info_items (items_of m) reports.
Proof.
  induction m as [type locals globals mains IH | tag locals globals]
    using main_nested_ind; intros reports.
  - cbn [report_info_main items_of]. revert reports.
    induction IH as [|m' r Hm' _ IHr]; intros reports; [reflexivity|].
    rewrite report_info_items_app, Hm'.
    destruct (report_info_items (items_of m') reports); simpl; auto.
  - simpl. destruct (report_info_item tag globals reports); reflexivity.
Qed.

Lemma get_report_info_items (c : collection) (reports : reports_t) :
  get_report_info c reports
  = report_info_items (items_of_collection c) reports.
Proof.
  unfold get_report_info, items_of_collection.
  revert reports.
  induction (c_mains c) as [|m r IH]; intros reports; [reflexivity|].
  cbn [report_info_mains flat_map].
  rewrite report_info_items_app, report_info_main_items.
  destruct (report_info_items (items_of m) reports); simpl; auto.
Qed.

Lemma dict_keys_set {V : Type} (d : Dict.t V) (k : Z) (v : V) :
  In k (Dict.keys (Dict.set d k v))
  /\ incl (Dict.keys d) (Dict.keys (Dict.set d k v)).
Proof.
  induction d as [|[k' v'] r [IH1 IH2]]; simpl.
  - split; [now left | intros x []].
  - destruct (k' =? k) eqn:E; simpl.
    + apply Z.eqb_eq in E. split; [now left | apply incl_refl].
    + split; [now right|].
      intros x [<- | Hx]; [now left | right; now apply IH2].
Qed.

Lemma report_info_item_keys (tag : item_tag) (globals : table)
  (reports : reports_t) (report_size report_id report_count : Z) :
  item_fields globals = Return (report_size, report_id, report_count) ->
  exists reports',
    report_info_item tag globals reports = Return reports'
    /\ In report_id (Dict.keys reports')
    /\ incl (Dict.keys reports) (Dict.keys reports').
Proof.
  intros Hf. unfold report_info_item. rewrite Hf. cbn [bind].
  unfold Dict.mem.
  destruct (Dict.get reports report_id) as [r|] eqn:G.
  - rewrite G. eexists. split; [reflexivity|].
    split; [apply (proj1 (dict_keys_set _ _ _)) | apply (proj2 (dict_keys_set _ _ _))].
  - rewrite dict_get_set. eexists. split; [reflexivity|].
    split; [apply (proj1 (dict_keys_set _ _ _))|].
    intros x Hx.
    apply (proj2 (dict_keys_set _ report_id _)).
    apply (proj2 (dict_keys_set reports report_id _)). exact Hx.
Qed.

Lemma report_info_items_keys (items : list (item_tag * table)) :
  forall reports,
    Forall (fun item => report_id_of item <> None) items ->
    exists reports',
      report_info_items items reports = Return reports'
      /\ incl (Dict.keys reports) (Dict.keys reports')
      /\ forall item report_id,
          In item items -> report_id_of item = Some report_id ->
          In report_id (Dict.keys reports').
Proof.
  induction items as [|[tag globals] r IH]; intros reports Hall.
  - exists reports. split; [reflexivity|]. split; [apply incl_refl|].
    intros item report_id [].
  - inversion Hall as [|x l Hx Hr]; subst x l.
    unfold report_id_of in Hx. cbn [snd] in Hx.
    destruct (item_fields globals) as [[[rs rid] rc]| |] eqn:Hf;
      try congruence.
    destruct (report_info_item_keys tag globals reports rs rid rc Hf)
      as (reports1 & H1 & Hin1 & Hincl1).
    destruct (IH reports1 Hr) as (reports' & H' & Hincl' & Hids).
    exists reports'. cbn [report_info_items]. rewrite H1. cbn [bind].
    split; [exact H'|]. split; [eapply incl_tran; eauto|].
    intros item report_id [<- | Hin] Hid.
    + unfold report_id_of in Hid. cbn [snd] in Hid. rewrite Hf in Hid.
      injection Hid as <-. now apply Hincl'.
    + eapply Hids; eauto.
Qed.

Lemma two_distinct_members {A : Type} (l : list A) (a b : A) :
  In a l -> In b l -> a <> b -> (1 < length l)%nat.
Proof.
  destruct l as [|x [|y r]]; simpl; intros Ha Hb Hab; try lia.
  destruct Ha as [<- | []], Hb as [<- | []]. congruence.
Qed.

Lemma report_info_items_returned (items : list (item_tag * table)) :
  forall reports reports',
    report_info_items items reports = Return reports' ->
    incl (Dict.keys reports) (Dict.keys reports')
    /\ forall item report_id,
        In item items -> report_id_of item = Some report_id ->
        In report_id (Dict.keys reports').
Proof.
  induction items as [|[tag globals] r IH]; intros reports reports' H.
  - simpl in H. injection H as <-. split; [apply incl_refl|].
    intros item report_id [].
  - cbn [report_info_items] in H.
    destruct (report_info_item tag globals reports) as [reports1| |] eqn:H1;
      cbn [bind] in H; try discriminate H.
    destruct (item_fields globals) as [[[rs rid] rc]| |] eqn:Hf;
      try (unfold report_info_item in H1; rewrite Hf in H1; discriminate H1).
    destruct (report_info_item_keys tag globals reports rs rid rc Hf)
      as (reports1' & H1' & Hin1 & Hincl1).
    rewrite H1 in H1'. injection H1' as <-.
    destruct (IH _ _ H) as [Hincl' Hids].
    split; [eapply incl_tran; eauto|].
    intros item report_id [<- | Hin] Hid.
    + unfold report_id_of in Hid. cbn [snd] in Hid. rewrite Hf in Hid.
      injection Hid as <-. now apply Hincl'.
    + eapply Hids; eauto.
Qed.

(** C7, as stated, fails: the descriptor below is a single Application
    collection whose Input and Output items carry the report IDs 1 and 2,
    and [_init_devices] fails on it with the [TypeError] of the Usage Page
    read, [collection["globals"][0][0]] on a register that was never
    written, before it counts the report IDs. *)
Lemma multiple_report_ids_type_error :
  let hid_descriptor :=
    [xa1; x01;            (* Collection (Application) *)
     x75; x08;            (*   Report Size (8) *)
     x95; x01;            (*   Report Count (1) *)
     x85; x01;            (*   Report ID (1) *)
     x81; x02;            (*   Input *)
     x85; x02;            (*   Report ID (2) *)
     x91; x02;            (*   Output *)
     xc0] in              (* End Collection *)
  let g1 := [None; None; None; None; None; None; None;
             Some [x08]; Some [x01]; Some [x01]] in
  let g2 := [None; None; None; None; None; None; None;
             Some [x08]; Some [x02]; Some [x01]] in
  let c := {| c_type := [x01];
              c_locals := [None; None; None];
              c_globals := repeat None 10;
              c_mains := [Item input [None; None; None] g1;
                          Item output [None; None; None] g2] |} in
  parse_descriptor hid_descriptor = Return [c]
  /\ items_of_collection c = [(input, g1); (output, g2)]
  /\ report_id_of (input, g1) = Some 1
  /\ report_id_of (output, g2) = Some 2
  /\ get_report_info c []
     = Return [(1, {| input_size := 8; output_size := 0 |});
               (2, {| input_size := 0; output_size := 8 |})]
  /\ _init_devices hid_descriptor = Raise TypeError
  /\ _init_devices hid_descriptor
     <> Raise (NotImplementedError
                 "Only on report id per Application collection supported").
Proof.
  cbv zeta. split; [vm_compute; reflexivity|].
  split; [reflexivity|]. split; [reflexivity|]. split; [reflexivity|].
  split; [vm_compute; reflexivity|].
  assert (H : _init_devices
                [xa1; x01; x75; x08; x95; x01; x85; x01; x81; x02;
                 x85; x02; x91; x02; xc0] = Raise TypeError)
    by (vm_compute; reflexivity).
  split; [exact H|]. rewrite H. discriminate.
Qed.

(** C7, amended: a descriptor that parses to a single top-level collection
    holding two Input/Output items that have report size, ID and count set
    and carry different report IDs never yields a device list:
    [_init_devices] fails. The failure is the [NotImplementedError] for more
    than one report ID, which the specification names
    MultipleReportIdsUnsupported, when in addition the collection is of type
    Application, has Usage Page and Usage set, and report size, ID and count
    are set on every Input/Output item of it; otherwise an earlier step of
    [_init_devices] raises first. *)
Theorem multiple_report_ids_unsupported :
  forall (hid_descriptor : bytes) (c : collection)
         (item1 item2 : item_tag * table) (id1 id2 : Z),
    parse_descriptor hid_descriptor = Return [c] ->
    In item1 (items_of_collection c) ->
    In item2 (items_of_collection c) ->
    report_id_of item1 = Some id1 ->
    report_id_of item2 = Some id2 ->
    id1 <> id2 ->
    (forall devices : list device, _init_devices hid_descriptor <> Return devices)
    /\ (forall (t : byte) (usage_page usage : Z),
           index (c_type c) 0 = Return t ->
           byte_Z t = 1 ->
           (g <- index (c_globals c) 0 ;; first_byte g) = Return usage_page ->
           (l <- index (c_locals c) 0 ;; first_byte l) = Return usage ->
           Forall (fun item => report_id_of item <> None) (items_of_collection c) ->
           _init_devices hid_descriptor
           = Raise (NotImplementedError
                      "Only on report id per Application collection supported")).
Proof.
  intros desc c item1 item2 id1 id2 Hparse Hin1 Hin2 Hid1 Hid2 Hneq.
  assert (Hmany : forall reports,
             report_info_items (items_of_collection c) [] = Return reports ->
             (1 <? length reports)%nat = true).
  { intros reports Hrep.
    destruct (report_info_items_returned _ _ _ Hrep) as [_ Hids].
    pose proof (Hids _ _ Hin1 Hid1) as K1.
    pose proof (Hids _ _ Hin2 Hid2) as K2.
    unfold Dict.keys in K1, K2.
    apply Nat.ltb_lt. rewrite <- (length_map fst).
    now apply (two_distinct_members _ id1 id2). }
  split.
  - intros devices H.
    unfold _init_devices in H. rewrite Hparse in H. cbn [bind devices_loop] in H.
    destruct (collection_devices c) as [ds| |] eqn:E; cbn [bind] in H;
      try discriminate H.
    clear H. unfold collection_devices in E.
    destruct (index (c_type c) 0) as [t| |]; cbn [bind] in E; try discriminate E.
    destruct (negb (byte_Z t =? 1)); [discriminate E|].
    destruct (index (c_globals c) 0) as [g| |]; cbn [bind] in E;
      try discriminate E.
    destruct (first_byte g) as [usage_page| |]; cbn [bind] in E;
      try discriminate E.
    destruct (index (c_locals c) 0) as [l| |]; cbn [bind] in E;
      try discriminate E.
    destruct (first_byte l) as [usage| |]; cbn [bind] in E; try discriminate E.
    rewrite get_report_info_items in E.
    destruct (report_info_items (items_of_collection c) []) as [reports| |] eqn:R;
      cbn [bind] in E; try discriminate E.
    rewrite (Hmany reports eq_refl) in E. discriminate E.
  - intros t usage_page usage Htype Happ Hpage Husage Hall.
    unfold _init_devices. rewrite Hparse. cbn [bind devices_loop].
    unfold collection_devices. rewrite Htype. cbn [bind]. rewrite Happ.
    cbn [Z.eqb Pos.eqb negb].
    destruct (index (c_globals c) 0) as [g| |]; cbn [bind] in Hpage |- *;
      try discriminate Hpage.
    rewrite Hpage. cbn [bind].
    destruct (index (c_locals c) 0) as [l| |]; cbn [bind] in Husage |- *;
      try discriminate Husage.
    rewrite Husage. cbn [bind].
    rewrite get_report_info_items.
    destruct (report_info_items_keys (items_of_collection c) [] Hall)
      as (reports & Hrep & _).
    rewrite Hrep. cbn [bind].
    rewrite (Hmany reports Hrep). reflexivity.
Qed.

Lemma multiple_report_ids_unsupported_witness :
  let hid_descriptor :=
    [x05; x01; x09; x06; xa1; x01;
     x75; x08; x95; x01;
     x85; x01; x81; x02;
     x85; x02; x91; x02;
     xc0] in
  (forall devices : list device, _init_devices hid_descriptor <> Return devices)
  /\ _init_devices hid_descriptor
     = Raise (NotImplementedError
                "Only on report id per Application collection supported").
Proof.
  intros hid_descriptor.
  set (g1 := [Some [x01]; None; None; None; None; None; None;
              Some [x08]; Some [x01]; Some [x01]]).
  set (g2 := [Some [x01]; None; None; None; None; None; None;
              Some [x08]; Some [x02]; Some [x01]]).
  set (c := {| c_type := [x01];
               c_locals := [Some [x06]; None; None];
               c_globals := Some [x01] :: repeat None 9;
               c_mains := [Item input [None; None; None] g1;
                           Item output [None; None; None] g2] |}).
  assert (Hparse : parse_descriptor hid_descriptor = Return [c])
    by (vm_compute; reflexivity).
  assert (Hin1 : In (input, g1) (items_of_collection c)) by (simpl; auto).
  assert (Hin2 : In (output, g2) (items_of_collection c)) by (simpl; auto).
  assert (Hneq : 1 <> 2) by discriminate.
  destruct (multiple_report_ids_unsupported hid_descriptor c
              (input, g1) (output, g2) 1 2 Hparse Hin1 Hin2 eq_refl eq_refl Hneq)
    as [Hnone Hraise].
  split; [exact Hnone|].
  apply (Hraise x01 1 6); try reflexivity.
  repeat constructor; discriminate.
Defined.

(** * Further properties of the codec *)

Lemma decode_loop_result_reached (key_encoding : PyStruct.format) (data : bytes)
  (fuel : nat) :
  forall (i : nat) (d0 d : data_dict_t),
    decode_reaches key_encoding data i d0 ->
    decode_loop key_encoding data fuel i d0 = Return d ->
    exists i', decode_reaches key_encoding data i' d.
Proof.
  induction fuel as [|fuel IH]; intros i d0 d Hr H; simpl in H;
    destruct (length data <=? i)%nat eqn:E;
    try (injection H as <-; eauto; fail); try discriminate H.
  apply Nat.leb_gt in E.
  destruct (decode_body key_encoding data i d0) as [[[i' d']|d']|e|] eqn:B;
    simpl in H; try discriminate H.
  - eapply IH; [|exact H]. eapply reaches_next; eauto.
  - destruct (decode_body_cases key_encoding data i d0)
      as [(_ & B') | [(_ & _ & B') | (_ & _ & key & _ & B')]];
      rewrite B' in B; try discriminate B.
    injection B as <-. injection H as <-. eauto.
Qed.

(** The dictionary [decode_data] returns is one the loop passed through. *)
Lemma decode_data_result_reached (key_encoding : PyStruct.format) (data : bytes)
  (d : data_dict_t) :
  decode_data key_encoding data = Return d ->
  exists i, decode_reaches key_encoding data i d.
Proof.
  intros H. eapply decode_loop_result_reached; [apply reaches_start | exact H].
Qed.

(** A property of dictionaries that [store] keeps holds of every dictionary
    the loop passes through. *)
Lemma decode_reaches_invariant (P : data_dict_t -> Prop) :
  P [] ->
  (forall d key v, P d -> P (store d key v)) ->
  forall key_encoding data i d,
    decode_reaches key_encoding data i d -> P d.
Proof.
  intros H0 Hstore key_encoding data i d Hr.
  induction Hr as [|i d i' d' Hr IH Hlt Hb]; [exact H0|].
  destruct (decode_body_cases key_encoding data i d)
    as [(_ & B) | [(_ & _ & B) | (_ & _ & key & _ & B)]];
    rewrite B in Hb; try discriminate Hb.
  injection Hb as _ <-. now apply Hstore.
Qed.

Lemma dict_keys_set_cases {V : Type} (d : Dict.t V) (k : Z) (v : V) :
  (In k (Dict.keys d) /\ Dict.keys (Dict.set d k v) = Dict.keys d)
  \/ (~ In k (Dict.keys d) /\ Dict.keys (Dict.set d k v) = Dict.keys d ++ [k]).
Proof.
  induction d as [|[k' v'] r IH]; simpl.
  - right. split; [tauto | reflexivity].
  - destruct (k' =? k) eqn:E.
    + apply Z.eqb_eq in E. left. split; [now left | reflexivity].
    + apply Z.eqb_neq in E. simpl.
      destruct IH as [[Hin Hk] | [Hnin Hk]]; rewrite Hk.
      * left. split; [now right | reflexivity].
      * right. split; [intros [?|?]; tauto | reflexivity].
Qed.

Lemma dict_set_NoDup {V : Type} (d : Dict.t V) (k : Z) (v : V) :
  NoDup (Dict.keys d) -> NoDup (Dict.keys (Dict.set d k v)).
Proof.
  intros H.
  destruct (dict_keys_set_cases d k v) as [[_ ->] | [Hnin ->]]; [exact H|].
  apply NoDup_app; [exact H | repeat constructor; simpl; tauto |].
  intros x Hx [<- | []]. contradiction.
Qed.

Lemma store_NoDup (d : data_dict_t) (key : Z) (v : bytes) :
  NoDup (Dict.keys d) -> NoDup (Dict.keys (store d key v)).
Proof.
  intros H. unfold store.
  destruct (Dict.get d key) as [[b|flags|items]|]; now apply dict_set_NoDup.
Qed.

(** X1: the dictionary that [decode_data] returns has pairwise distinct keys:
    a type code that occurs again in the buffer is merged into the entry it
    already has. *)
Theorem decode_data_keys_distinct :
  forall (key_encoding : PyStruct.format) (data : bytes) (d : data_dict_t),
    decode_data key_encoding data = Return d ->
    NoDup (Dict.keys d).
Proof.
  intros key_encoding data d H.
  apply decode_data_result_reached in H. destruct H as [i Hr].
  apply (decode_reaches_invariant (fun d => NoDup (Dict.keys d)))
    with (key_encoding := key_encoding) (data := data) (i := i).
  - constructor.
  - intros d0 key v. apply store_NoDup.
  - exact Hr.
Qed.

Lemma decode_data_keys_distinct_witness :
  NoDup (Dict.keys [(7, VList [VBytes [x0a]; VBytes [x0b]]); (9, VBytes [x41])]).
Proof.
  apply (decode_data_keys_distinct PyStruct.fmt_B
           [x02; x07; x0a; x02; x09; x41; x02; x07; x0b]).
  reflexivity.
Defined.

Lemma dict_get_Forall {V : Type} (R : V -> Prop) (d : Dict.t V) (k : Z) (v : V) :
  Forall (fun e => R (snd e)) d -> Dict.get d k = Some v -> R v.
Proof.
  induction d as [|[k' v'] r IH]; simpl; intros H G; [discriminate|].
  inversion H as [|e l He Hr]; subst e l.
  destruct (k' =? k); [injection G as <-; exact He | now apply IH].
Qed.

Lemma dict_set_Forall {V : Type} (R : V -> Prop) (d : Dict.t V) (k : Z) (v : V) :
  Forall (fun e => R (snd e)) d -> R v ->
  Forall (fun e => R (snd e)) (Dict.set d k v).
Proof.
  induction d as [|[k' v'] r IH]; simpl; intros H Hv.
  - repeat constructor. exact Hv.
  - inversion H as [|e l He Hr]; subst e l.
    destruct (k' =? k); constructor; auto.
Qed.

Lemma store_decoded (d : data_dict_t) (key : Z) (v : bytes) :
  Forall (fun e => decoded_value (snd e) = true) d ->
  Forall (fun e => decoded_value (snd e) = true) (store d key v).
Proof.
  intros H. unfold store.
  destruct (Dict.get d key) as [old|] eqn:G.
  - pose proof (dict_get_Forall (fun x => decoded_value x = true) _ _ _ H G) as Hold.
    destruct old as [b|flags|items]; try discriminate Hold;
      apply (dict_set_Forall (fun x => decoded_value x = true)); auto.
    cbn [decoded_value] in Hold |- *.
    apply andb_prop in Hold. destruct Hold as [Hlen Hall].
    apply Nat.leb_le in Hlen. apply andb_true_intro. split.
    + apply Nat.leb_le. rewrite length_app. cbn [length]. lia.
    + rewrite forallb_app, Hall. reflexivity.
  - apply (dict_set_Forall (fun x => decoded_value x = true)); auto.
Qed.

(** X2: every value of the dictionary that [decode_data] returns is a byte
    string or a list of at least two byte strings; no list is empty or has
    one element, and no list holds anything but byte strings. *)
Theorem decode_data_values_shape :
  forall (key_encoding : PyStruct.format) (data : bytes) (d : data_dict_t),
    decode_data key_encoding data = Return d ->
    Forall (fun e => decoded_value (snd e) = true) d.
Proof.
  intros key_encoding data d H.
  apply decode_data_result_reached in H. destruct H as [i Hr].
  apply (decode_reaches_invariant
           (fun d => Forall (fun e => decoded_value (snd e) = true) d))
    with (key_encoding := key_encoding) (data := data) (i := i).
  - constructor.
  - intros d0 key v. apply store_decoded.
  - exact Hr.
Qed.

Lemma decode_data_values_shape_witness :
  Forall (fun e => decoded_value (snd e) = true)
    [(7, VList [VBytes [x0a]; VBytes [x0b]]); (9, VBytes [x41])].
Proof.
  apply (decode_data_values_shape PyStruct.fmt_B
           [x02; x07; x0a; x02; x09; x41; x02; x07; x0b]).
  reflexivity.
Defined.

Lemma store_first (key : Z) (v : bytes) :
  store [] key v = [(key, VBytes v)].
Proof. reflexivity. Qed.

Lemma store_second (key : Z) (old : value) (v : bytes) :
  (forall l, old <> VList l) ->
  store [(key, old)] key v = [(key, VList [old; VBytes v])].
Proof.
  intros H. unfold store. simpl. rewrite Z.eqb_refl.
  destruct old as [b|flags|items]; simpl; rewrite ?Z.eqb_refl; try reflexivity.
  now destruct (H items).
Qed.

Lemma store_append (key : Z) (l : list value) (v : bytes) :
  store [(key, VList l)] key v = [(key, VList (l ++ [VBytes v]))].
Proof.
  unfold store. simpl. rewrite Z.eqb_refl. reflexivity.
Qed.

Lemma stored_same_key (key : Z) (vs : list bytes) :
  forall l : list value,
    stored (map (fun v => (key, VBytes v)) vs) [(key, VList l)]
    = [(key, VList (l ++ map VBytes vs))].
Proof.
  induction vs as [|v r IH]; intros l.
  - simpl. now rewrite app_nil_r.
  - cbn [map stored fold_left fst snd entry_bytes py_bytes].
    rewrite store_append.
    fold (stored (map (fun v => (key, VBytes v)) r)
            [(key, VList (l ++ [VBytes v]))]).
    rewrite IH, <- app_assoc. reflexivity.
Qed.

(** X3: records that repeat one type code decode to a single entry whose
    list holds the values in the order of the records. *)
Theorem decode_data_collects_in_order :
  forall (key_encoding : PyStruct.format) (key : Z) (v1 v2 : bytes)
         (vs : list bytes),
    PyStruct.in_range key_encoding key = true ->
    Forall (fun v => (PyStruct.calcsize key_encoding + length v <= 255)%nat)
      (v1 :: v2 :: vs) ->
    decode_data key_encoding
      (records key_encoding (map (fun v => (key, VBytes v)) (v1 :: v2 :: vs)))
    = Return [(key, VList (map VBytes (v1 :: v2 :: vs)))].
Proof.
  intros key_encoding key v1 v2 vs Hrange Hfit.
  rewrite decode_data_records.
  - f_equal. cbn [map stored fold_left fst snd entry_bytes py_bytes].
    rewrite store_first, store_second by discriminate.
    fold (stored (map (fun v => (key, VBytes v)) vs)
            [(key, VList [VBytes v1; VBytes v2])]).
    now rewrite stored_same_key.
  - apply Forall_map. revert Hfit. apply Forall_impl. intros v Hv.
    unfold encodable. cbn [fst snd entry_bytes py_bytes]. rewrite Hrange.
    now apply Nat.leb_le.
Qed.

Lemma decode_data_collects_in_order_witness :
  decode_data PyStruct.fmt_H
    (records PyStruct.fmt_H
       (map (fun v => (513, VBytes v)) [[x0a]; [x0b; x0c]; []]))
  = Return [(513, VList (map VBytes [[x0a]; [x0b; x0c]; []]))].
Proof.
  apply (decode_data_collects_in_order PyStruct.fmt_H 513 [x0a] [x0b; x0c] [[]]).
  - reflexivity.
  - repeat constructor; simpl; lia.
Defined.

Lemma encode_data_records (key_encoding : PyStruct.format) (m : data_dict_t) :
  Forall (fun e => encodable key_encoding e = true) m ->
  encode_data key_encoding m = Return (records key_encoding m).
Proof.
  intros Hall. unfold encode_data.
  pose proof (encode_loop_records key_encoding m []
                (repeat x00 (compute_length key_encoding m)) [] Hall) as H.
  rewrite !app_nil_r in H. cbn [app length] in H.
  apply H. now rewrite repeat_length, compute_length_records_size.
Qed.

Lemma flatten_entry_bytes (v : value) (b : bytes) :
  entry_bytes v = Return b -> entry_bytes (flatten v) = Return b.
Proof.
  intros H. unfold flatten. rewrite H. reflexivity.
Qed.

Lemma flatten_encodable (key_encoding : PyStruct.format) (m : data_dict_t) :
  Forall (fun e => encodable key_encoding e = true) m ->
  Forall (fun e => encodable key_encoding e = true) (map flatten_entry m)
  /\ records key_encoding (map flatten_entry m) = records key_encoding m.
Proof.
  induction 1 as [|[key v] r He Hr [IH1 IH2]]; [split; [constructor | reflexivity]|].
  pose proof He as He'.
  apply encodable_inv in He'. destruct He' as (Hrange & b & Hb & Hfit).
  pose proof (flatten_entry_bytes _ _ Hb) as Hfb.
  split.
  - constructor; [|exact IH1].
    unfold encodable, flatten_entry. cbn [fst snd]. rewrite Hrange, Hfb.
    now apply Nat.leb_le.
  - cbn [map records flat_map]. unfold flatten_entry at 1. cbn [fst snd].
    rewrite Hfb, Hb. fold (records key_encoding (map flatten_entry r)).
    fold (records key_encoding r). now rewrite IH2.
Qed.

(** X4: what [decode_data] makes of an encoded dictionary encodes to the
    same bytes again: for a dictionary with distinct keys whose entries
    [encode_data] accepts, encoding, decoding and encoding once more gives
    the first buffer. *)
Theorem encode_decode_encode :
  forall (key_encoding : PyStruct.format) (m : data_dict_t),
    NoDup (Dict.keys m) ->
    Forall (fun e => encodable key_encoding e = true) m ->
    exists buf d,
      encode_data key_encoding m = Return buf
      /\ decode_data key_encoding buf = Return d
      /\ encode_data key_encoding d = Return buf.
Proof.
  intros key_encoding m Hnd Hall.
  destruct (flatten_encodable key_encoding m Hall) as [Hall' Hrec].
  exists (records key_encoding m), (map flatten_entry m).
  split; [now apply encode_data_records|]. split.
  - rewrite (decode_data_records _ _ Hall).
    now rewrite (stored_distinct key_encoding m [] Hall Hnd).
  - rewrite (encode_data_records _ _ Hall'). now rewrite Hrec.
Qed.

Lemma encode_decode_encode_witness :
  exists buf d,
    encode_data PyStruct.fmt_B
      [(1, VBytes [x06]); (3, VList [VBytes [x0a; x18]; VBytes [x0f; x18]])]
    = Return buf
    /\ decode_data PyStruct.fmt_B buf = Return d
    /\ encode_data PyStruct.fmt_B d = Return buf.
Proof.
  apply (encode_decode_encode PyStruct.fmt_B
           [(1, VBytes [x06]); (3, VList [VBytes [x0a; x18]; VBytes [x0f; x18]])]).
  - repeat constructor; simpl; intuition discriminate.
  - repeat constructor.
Defined.

Lemma encode_loop_app (key_encoding : PyStruct.format) (items1 items2 : list (Z * value)) :
  forall (data : bytes) (i : nat),
    encode_loop key_encoding (items1 ++ items2) data i
    = (data' <- encode_loop key_encoding items1 data i ;;
       encode_loop key_encoding items2 data'
         (i + records_size key_encoding items1)).
Proof.
  induction items1 as [|[key v] r IH]; intros data i.
  - cbn [app encode_loop bind records_size fold_right]. now rewrite Nat.add_0_r.
  - cbn [app encode_loop].
    destruct (joined v) as [v'| |] eqn:Hj; cbn [bind]; try reflexivity.
    apply joined_entry in Hj. destruct Hj as [Hlen _].
    destruct (PyStruct.pack_into PyStruct.fmt_B data i _) as [data1| |];
      cbn [bind]; try reflexivity.
    destruct (PyStruct.pack_into key_encoding data1 (i + 1) key) as [data2| |];
      cbn [bind]; try reflexivity.
    destruct (py_bytes v') as [b| |]; cbn [bind]; try reflexivity.
    rewrite IH.
    destruct (encode_loop key_encoding r _ _) as [data'| |]; cbn [bind];
      try reflexivity.
    f_equal. cbn [records_size fold_right snd].
    fold (records_size key_encoding r). lia.
Qed.

Lemma pack_out_of_range (f : PyStruct.format) (v : Z) :
  PyStruct.in_range f v = false -> PyStruct.pack f v = Raise StructError.
Proof.
  intros H. unfold PyStruct.pack. now rewrite H.
Qed.

Lemma pack_into_out_of_range (f : PyStruct.format) (v : Z) (buffer : bytes)
  (offset : nat) :
  PyStruct.in_range f v = false ->
  PyStruct.pack_into f buffer offset v = Raise StructError.
Proof.
  intros H. unfold PyStruct.pack_into.
  destruct (offset + PyStruct.calcsize f <=? length buffer)%nat; [|reflexivity].
  now rewrite (pack_out_of_range _ _ H).
Qed.

Lemma pack_into_raises (f : PyStruct.format) (v : Z) (buffer : bytes) (offset : nat) :
  (exists buffer', PyStruct.pack_into f buffer offset v = Return buffer')
  \/ PyStruct.pack_into f buffer offset v = Raise StructError.
Proof.
  unfold PyStruct.pack_into, PyStruct.pack.
  destruct (offset + PyStruct.calcsize f <=? length buffer)%nat; [|now right].
  destruct (PyStruct.in_range f v); cbn [bind]; eauto.
Qed.

(** X5: [encode_data] fails with [struct.error] at the first entry whose key
    is outside the range of the key format or whose key and value are longer
    than 255 bytes together, whatever entries follow it. *)
Theorem encode_data_rejects_oversize :
  forall (key_encoding : PyStruct.format) (items rest : list (Z * value))
         (key : Z) (v : value) (b : bytes),
    Forall (fun e => encodable key_encoding e = true) items ->
    entry_bytes v = Return b ->
    encodable key_encoding (key, v) = false ->
    encode_data key_encoding (items ++ (key, v) :: rest) = Raise StructError.
Proof.
  intros key_encoding items rest key v b Hall Hb Hbad.
  unfold encode_data. rewrite encode_loop_app.
  rewrite compute_length_records_size.
  assert (Hsize : records_size key_encoding (items ++ (key, v) :: rest)
                  = (records_size key_encoding items
                     + records_size key_encoding ((key, v) :: rest))%nat).
  { clear. induction items as [|e r IH]; [reflexivity|].
    cbn [app records_size fold_right] in *.
    fold (records_size key_encoding (r ++ (key, v) :: rest)).
    fold (records_size key_encoding r).
    fold (records_size key_encoding ((key, v) :: rest)) in *.
    rewrite IH. lia. }
  rewrite Hsize, repeat_app.
  pose proof (encode_loop_records key_encoding items []
                (repeat x00 (records_size key_encoding items))
                (repeat x00 (records_size key_encoding ((key, v) :: rest)))
                Hall (repeat_length _ _)) as H.
  cbn [app length] in H. rewrite H. cbn [bind encode_loop].
  destruct (joined_of_entry_bytes _ _ Hb) as (v' & Hj & Hl & _).
  rewrite Hj. cbn [bind]. rewrite Hl.
  unfold encodable in Hbad. cbn [fst snd] in Hbad. rewrite Hb in Hbad.
  destruct (PyStruct.calcsize key_encoding + length b <=? 255)%nat eqn:Hfit.
  - rewrite andb_true_r in Hbad.
    destruct (pack_into_raises PyStruct.fmt_B
                (Z.of_nat (PyStruct.calcsize key_encoding + length b))
                (records key_encoding items
                 ++ repeat x00 (records_size key_encoding ((key, v) :: rest)))
                (0 + records_size key_encoding items))
      as [[data1 ->] | ->]; [|reflexivity].
    cbn [bind]. now rewrite (pack_into_out_of_range _ _ _ _ Hbad).
  - apply Nat.leb_gt in Hfit.
    rewrite pack_into_out_of_range; [reflexivity|].
    unfold PyStruct.in_range. change (PyStruct.signed _) with false.
    change (PyStruct.modulus PyStruct.fmt_B) with 256. cbv iota.
    apply andb_false_intro2. apply Z.ltb_ge. lia.
Qed.

Lemma encode_data_rejects_oversize_witness :
  encode_data PyStruct.fmt_B
    ([(1, VBytes [x06])] ++ (300, VBytes [x41]) :: [(9, VBytes [x42])])
  = Raise StructError.
Proof.
  apply (encode_data_rejects_oversize PyStruct.fmt_B
           [(1, VBytes [x06])] [(9, VBytes [x42])] 300 (VBytes [x41]) [x41]).
  - repeat constructor.
  - reflexivity.
  - reflexivity.
Defined.

Lemma dict_get_None_inv {V : Type} (d : Dict.t V) (k : Z) :
  Dict.get d k = None -> ~ In k (Dict.keys d).
Proof.
  induction d as [|[k' v] r IH]; simpl; intros G; [tauto|].
  destruct (k' =? k) eqn:E; [discriminate|].
  apply Z.eqb_neq in E. intros [?|?]; [congruence | now apply IH].
Qed.

Lemma records_size_app (key_encoding : PyStruct.format) (l1 l2 : list (Z * value)) :
  records_size key_encoding (l1 ++ l2)
  = (records_size key_encoding l1 + records_size key_encoding l2)%nat.
Proof.
  induction l1 as [|e r IH]; [reflexivity|].
  cbn [app records_size fold_right].
  fold (records_size key_encoding (r ++ l2)). fold (records_size key_encoding r).
  rewrite IH. lia.
Qed.

Lemma records_size_cons (key_encoding : PyStruct.format) (e : Z * value)
  (r : list (Z * value)) :
  records_size key_encoding (e :: r)
  = (1 + PyStruct.calcsize key_encoding + entry_len (snd e)
     + records_size key_encoding r)%nat.
Proof. reflexivity. Qed.

Lemma records_size_set_present (key_encoding : PyStruct.format) (d : data_dict_t)
  (k : Z) (old x : value) :
  Dict.get d k = Some old ->
  (records_size key_encoding (Dict.set d k x) + entry_len old
   = records_size key_encoding d + entry_len x)%nat.
Proof.
  induction d as [|[k' v'] r IH]; cbn [Dict.get Dict.set]; intros G;
    [discriminate|].
  destruct (k' =? k).
  - injection G as <-. rewrite !records_size_cons. cbn [snd]. lia.
  - specialize (IH G). rewrite !records_size_cons. cbn [snd]. lia.
Qed.

Lemma sum_len_snoc (items : list value) (x : value) :
  fold_right (fun subv n => py_len subv + n)%nat 0%nat (items ++ [x])
  = (fold_right (fun subv n => py_len subv + n)%nat 0%nat items + py_len x)%nat.
Proof.
  induction items as [|y r IH]; cbn [app fold_right]; [lia | rewrite IH; lia].
Qed.

Lemma records_size_store (key_encoding : PyStruct.format) (d : data_dict_t)
  (key : Z) (v : bytes) :
  (records_size key_encoding (store d key v)
   <= records_size key_encoding d + 1 + PyStruct.calcsize key_encoding + length v)%nat.
Proof.
  unfold store. destruct (Dict.get d key) as [old|] eqn:G.
  - assert (Hlist : forall x, entry_len x = (entry_len old + length v)%nat ->
                              (records_size key_encoding (Dict.set d key x)
                               <= records_size key_encoding d + 1
                                  + PyStruct.calcsize key_encoding + length v)%nat).
    { intros x Hx. pose proof (records_size_set_present key_encoding d key old x G).
      lia. }
    destruct old as [b|flags|items]; apply Hlist.
    + cbn [entry_len py_len fold_right]. lia.
    + cbn [entry_len py_len fold_right]. lia.
    + cbn [entry_len]. rewrite sum_len_snoc. reflexivity.
  - apply dict_get_None_inv in G. rewrite (dict_set_new _ _ _ G).
    rewrite records_size_app, records_size_cons.
    cbn [records_size fold_right snd entry_len py_len]. lia.
Qed.

(** X6: an advertisement built by [from_entry] is never longer than the bytes
    it was decoded from: its [__len__], the size [compute_length] predicts
    for its dictionary, is at most the length of the scanned buffer. *)
Theorem from_entry_len_bound :
  forall (entry : ScanEntry) (adv : Advertisement),
    from_entry entry = Return adv ->
    (Advertisement_len adv <= length (advertisement_bytes entry))%nat.
Proof.
  intros entry adv H. unfold from_entry in H.
  destruct (decode_data PyStruct.fmt_B (advertisement_bytes entry)) as [d| |] eqn:D;
    simpl in H; try discriminate H.
  injection H as <-. unfold Advertisement_len. cbn [data_dict].
  rewrite compute_length_records_size.
  apply decode_data_result_reached in D. destruct D as [i Hr].
  set (data := advertisement_bytes entry) in *.
  enough (Hinv : (records_size PyStruct.fmt_B d <= Nat.min i (length data))%nat) by lia.
  induction Hr as [|i d i' d' Hr IH Hlt Hb]; [simpl; lia|].
  destruct (decode_body_cases PyStruct.fmt_B data i d)
    as [(_ & B) | [(_ & _ & B) | (Hn & Hfit & key & _ & B)]];
    rewrite B in Hb; try discriminate Hb.
  injection Hb as <- <-.
  change (PyStruct.calcsize PyStruct.fmt_B) with 1%nat in *.
  pose proof (records_size_store PyStruct.fmt_B d key
                (slice data (i + 1 + 1) (i + 1 + byte_nat (nth i data x00)))) as Hs.
  change (PyStruct.calcsize PyStruct.fmt_B) with 1%nat in Hs.
  unfold slice in Hs |- *. rewrite length_firstn, length_skipn in Hs. lia.
Qed.

Lemma from_entry_len_bound_witness :
  let adv :=
    {| data_dict := [(7, VList [VBytes [x0a]; VBytes [x0b]]); (9, VBytes [x41])];
       address := Some [x01];
       _rssi := Some (-50);
       connectable := false;
       mutable := false;
       scan_response := false;
       flags_attr := None |} in
  (Advertisement_len adv
   <= length [x02; x07; x0a; x02; x09; x41; x02; x07; x0b; x00; xff])%nat.
Proof.
  intros adv.
  apply (from_entry_len_bound
           {| advertisement_bytes :=
                [x02; x07; x0a; x02; x09; x41; x02; x07; x0b; x00; xff];
              entry_address := [x01];
              entry_rssi := -50;
              entry_connectable := false;
              entry_scan_response := false |}).
  reflexivity.
Defined.

(** * Further properties of the field descriptors *)

Lemma land_pow2 (x p : Z) :
  0 <= p -> Z.land x (2 ^ p) = if Z.testbit x p then 2 ^ p else 0.
Proof.
  intros Hp. apply Z.bits_inj'. intros n Hn.
  rewrite Z.land_spec, Z.pow2_bits_eqb by lia.
  destruct (Z.eqb_spec p n) as [->|Hne].
  - rewrite andb_true_r. destruct (Z.testbit x n) eqn:T.
    + now rewrite Z.pow2_bits_true.
    + now rewrite Z.bits_0.
  - rewrite andb_false_r. destruct (Z.testbit x p).
    + now rewrite Z.pow2_bits_false.
    + now rewrite Z.bits_0.
Qed.

(** A flag is the bit of [flags] at its position. *)
Lemma AdvertisingFlag_get_testbit (bit_position flags : Z) :
  0 <= bit_position ->
  AdvertisingFlag_get bit_position flags = Z.testbit flags bit_position.
Proof.
  intros Hp. unfold AdvertisingFlag_get.
  rewrite Z.shiftl_1_l, land_pow2 by lia.
  assert (0 < 2 ^ bit_position) by (apply Z.pow_pos_nonneg; lia).
  destruct (Z.testbit flags bit_position); simpl.
  - destruct (Z.eqb_spec (2 ^ bit_position) 0); [lia | reflexivity].
  - reflexivity.
Qed.

(** X7: after a flag is set to [v], reading that flag gives [v] and reading
    a flag at any other position gives what it gave before. *)
Theorem AdvertisingFlag_set_get :
  forall (p q flags : Z) (v : bool),
    0 <= p -> 0 <= q ->
    AdvertisingFlag_get q (AdvertisingFlag_set p flags v)
    = if q =? p then v else AdvertisingFlag_get q flags.
Proof.
  intros p q flags v Hp Hq.
  rewrite !AdvertisingFlag_get_testbit by lia.
  unfold AdvertisingFlag_set. rewrite Z.shiftl_1_l.
  destruct v.
  - rewrite Z.lor_spec, Z.pow2_bits_eqb by lia.
    rewrite (Z.eqb_sym p q). destruct (q =? p); [apply orb_true_r | apply orb_false_r].
  - rewrite Z.land_spec, Z.lnot_spec, Z.pow2_bits_eqb by lia.
    rewrite (Z.eqb_sym p q). destruct (q =? p); [apply andb_false_r | apply andb_true_r].
Qed.

Lemma AdvertisingFlag_set_get_witness :
  AdvertisingFlag_get 2 (AdvertisingFlag_set 0 6 true)
  = if 2 =? 0 then true else AdvertisingFlag_get 2 6.
Proof.
  apply (AdvertisingFlag_set_get 0 2 6 true); lia.
Defined.

Lemma small_Z_cases (n : nat) (z : Z) :
  0 <= z < Z.of_nat n -> In z (map Z.of_nat (seq 0 n)).
Proof.
  intros H. apply in_map_iff. exists (Z.to_nat z).
  split; [lia | apply in_seq; lia].
Qed.

(** X8: setting one of the eight flags of a flags byte leaves a value that
    still fits one byte, so [AdvertisingFlags.__bytes__] returns one byte for
    it and raises nothing. *)
Theorem AdvertisingFlag_set_fits_byte :
  forall (p flags : Z) (v : bool),
    0 <= p < 8 -> 0 <= flags < 256 ->
    0 <= AdvertisingFlag_set p flags v < 256
    /\ AdvertisingFlags_bytes (AdvertisingFlag_set p flags v)
       = Return [byte_of_Z (AdvertisingFlag_set p flags v)].
Proof.
  intros p flags v Hp Hf.
  assert (Hr : 0 <= AdvertisingFlag_set p flags v < 256).
  { assert (Hall :
        forallb (fun p =>
          forallb (fun f =>
            forallb (fun v =>
              (0 <=? AdvertisingFlag_set p f v) && (AdvertisingFlag_set p f v <? 256))
              [true; false])
            (map Z.of_nat (seq 0 256)))
          (map Z.of_nat (seq 0 8)) = true) by (vm_compute; reflexivity).
    rewrite forallb_forall in Hall.
    specialize (Hall p (small_Z_cases 8 p Hp)).
    rewrite forallb_forall in Hall.
    specialize (Hall flags (small_Z_cases 256 flags Hf)).
    rewrite forallb_forall in Hall.
    assert (Hv : In v [true; false]) by (destruct v; simpl; auto).
    specialize (Hall v Hv). apply andb_prop in Hall. lia. }
  split; [exact Hr|].
  unfold AdvertisingFlags_bytes.
  destruct (0 <=? AdvertisingFlag_set p flags v) eqn:E1; [|lia].
  destruct (AdvertisingFlag_set p flags v <? 256) eqn:E2; [reflexivity | lia].
Qed.

Lemma AdvertisingFlag_set_fits_byte_witness :
  0 <= AdvertisingFlag_set 1 6 false < 256
  /\ AdvertisingFlags_bytes (AdvertisingFlag_set 1 6 false)
     = Return [byte_of_Z (AdvertisingFlag_set 1 6 false)].
Proof.
  apply (AdvertisingFlag_set_fits_byte 1 6 false); lia.
Defined.

(** X9: on an advertisement that holds no list under type code 1, the first
    read of [flags] that yields a flags object binds it: the object is stored
    under type code 1, its byte fits one byte, every later read returns the
    same object and leaves the advertisement as it is. *)
Theorem flags_read_is_cached :
  forall (adv adv' : Advertisement) (f : Z),
    flags_attr adv = None ->
    (forall items : list value, Dict.get (data_dict adv) 1 <> Some (VList items)) ->
    Advertisement_flags adv = Return (Some f, adv') ->
    Advertisement_flags adv' = Return (Some f, adv')
    /\ Dict.get (data_dict adv') 1 = Some (VFlags f)
    /\ 0 <= f < 256
    /\ mutable adv' = mutable adv.
Proof.
  intros adv adv' f Hattr Hnolist H.
  unfold Advertisement_flags in H. rewrite Hattr in H.
  unfold LazyField_get in H.
  destruct (negb (mutable adv) && negb (Dict.mem (data_dict adv) 1));
    [discriminate H|].
  destruct (AdvertisingFlags_init adv 1) as [z| |] eqn:I; simpl in H;
    try discriminate H.
  injection H as <- <-. cbn [data_dict flags_attr mutable].
  assert (Hz : 0 <= z < 256).
  { unfold AdvertisingFlags_init in I.
    destruct (Dict.get (data_dict adv) 1) as [[b|flags|items]|] eqn:G.
    - unfold index in I. destruct (nth_error b 0) as [x|]; simpl in I;
        try discriminate I.
      injection I as <-. apply byte_Z_range.
    - discriminate I.
    - now destruct (Hnolist items).
    - destruct (mutable adv); injection I as <-; lia. }
  repeat split; try apply dict_get_set; apply Hz.
Qed.

Lemma flags_read_is_cached_witness :
  let adv := {| data_dict := [(1, VBytes [x05]); (9, VBytes [x41])];
                address := Some [x01]; _rssi := Some (-40);
                connectable := true; mutable := false; scan_response := false;
                flags_attr := None |} in
  let adv' := {| data_dict := [(1, VFlags 5); (9, VBytes [x41])];
                 address := Some [x01]; _rssi := Some (-40);
                 connectable := true; mutable := false; scan_response := false;
                 flags_attr := Some 5 |} in
  Advertisement_flags adv' = Return (Some 5, adv')
  /\ Dict.get (data_dict adv') 1 = Some (VFlags 5)
  /\ 0 <= 5 < 256
  /\ mutable adv' = mutable adv.
Proof.
  intros adv adv'.
  apply (flags_read_is_cached adv adv' 5);
    [reflexivity | intros items; discriminate | reflexivity].
Defined.

Lemma encode_loop_flags_raises (key_encoding : PyStruct.format) (z : Z)
  (d : data_dict_t) :
  forall (data : bytes) (i : nat) (buf : bytes),
    Dict.get d 1 = Some (VFlags z) ->
    encode_loop key_encoding d data i <> Return buf.
Proof.
  induction d as [|[k v] r IH]; intros data i buf G; cbn [Dict.get] in G;
    [discriminate|].
  cbn [encode_loop]. destruct (k =? 1) eqn:E.
  - injection G as ->. cbn [joined bind py_len].
    destruct (PyStruct.pack_into PyStruct.fmt_B data i _); cbn [bind];
      try discriminate.
    destruct (PyStruct.pack_into key_encoding a (i + 1) k); cbn [bind];
      try discriminate.
    cbn [py_bytes]. destruct (AdvertisingFlags_bytes z); cbn [bind]; discriminate.
  - destruct (joined v); cbn [bind]; try discriminate.
    destruct (PyStruct.pack_into PyStruct.fmt_B data i _); cbn [bind];
      try discriminate.
    destruct (PyStruct.pack_into key_encoding a0 (i + 1) k); cbn [bind];
      try discriminate.
    destruct (py_bytes a); cbn [bind]; try discriminate.
    now apply IH.
Qed.

Lemma encode_loop_flags_type_error (key_encoding : PyStruct.format) (b : byte)
  (d : data_dict_t) :
  forall (data : bytes) (i : nat) (buf : bytes),
    Dict.get d 1 = Some (VBytes [b]) ->
    encode_loop key_encoding d data i = Return buf ->
    encode_loop key_encoding (Dict.set d 1 (VFlags (byte_Z b))) data i
    = Raise TypeError.
Proof.
  induction d as [|[k v] r IH]; intros data i buf G H; cbn [Dict.get] in G;
    [discriminate|].
  cbn [Dict.set]. destruct (k =? 1) eqn:E.
  - injection G as ->. cbn [encode_loop joined bind py_len length] in H |- *.
    destruct (PyStruct.pack_into PyStruct.fmt_B data i _); cbn [bind] in H |- *;
      try discriminate H.
    destruct (PyStruct.pack_into key_encoding a (i + 1) k); cbn [bind] in H |- *;
      try discriminate H.
    cbn [py_bytes]. unfold AdvertisingFlags_bytes.
    pose proof (byte_Z_range b) as Hb.
    destruct (0 <=? byte_Z b) eqn:E1; [|lia].
    destruct (byte_Z b <? 256) eqn:E2; [|lia].
    reflexivity.
  - cbn [encode_loop] in H |- *.
    destruct (joined v); cbn [bind] in H |- *; try discriminate H.
    destruct (PyStruct.pack_into PyStruct.fmt_B data i _); cbn [bind] in H |- *;
      try discriminate H.
    destruct (PyStruct.pack_into key_encoding a0 (i + 1) k); cbn [bind] in H |- *;
      try discriminate H.
    destruct (py_bytes a); cbn [bind] in H |- *; try discriminate H.
    now apply (IH _ _ buf).
Qed.

(** X10: on an advertisement whose flags entry is one stored byte, reading
    [flags] yields an object with that byte, puts that object in the
    dictionary in place of the byte, and leaves [__len__] as it was. The
    builtin [bytes()] that [encode_data] applies to every value does not
    accept what the object's [__bytes__] returns, so after the read
    [__bytes__] of the advertisement returns no buffer any more; where it
    returned one before the read, it now raises [TypeError]. *)
Theorem flags_read_keeps_length :
  forall (adv : Advertisement) (b : byte),
    flags_attr adv = None ->
    Dict.get (data_dict adv) 1 = Some (VBytes [b]) ->
    exists adv',
      Advertisement_flags adv = Return (Some (byte_Z b), adv')
      /\ Dict.get (data_dict adv') 1 = Some (VFlags (byte_Z b))
      /\ Advertisement_len adv' = Advertisement_len adv
      /\ (forall buf : bytes, Advertisement_bytes adv' <> Return buf)
      /\ (forall buf : bytes,
             Advertisement_bytes adv = Return buf ->
             Advertisement_bytes adv' = Raise TypeError).
Proof.
  intros adv b Hattr G.
  unfold Advertisement_flags, LazyField_get, AdvertisingFlags_init.
  rewrite Hattr. unfold Dict.mem. rewrite G.
  rewrite andb_false_r. cbn [index nth_error bind].
  eexists. split; [reflexivity|].
  assert (Hlen : compute_length PyStruct.fmt_B
                   (Dict.set (data_dict adv) 1 (VFlags (byte_Z b)))
                 = compute_length PyStruct.fmt_B (data_dict adv)).
  { rewrite !compute_length_records_size.
    pose proof (records_size_set_present PyStruct.fmt_B (data_dict adv) 1
                  (VBytes [b]) (VFlags (byte_Z b)) G) as H.
    cbn [entry_len py_len length] in H. lia. }
  cbn [data_dict]. split; [apply dict_get_set|].
  split; [unfold Advertisement_len; cbn [data_dict]; exact Hlen|].
  split.
  - intros buf. unfold Advertisement_bytes, encode_data. cbn [data_dict].
    apply encode_loop_flags_raises with (z := byte_Z b). apply dict_get_set.
  - intros buf. unfold Advertisement_bytes, encode_data. cbn [data_dict].
    rewrite Hlen. now apply encode_loop_flags_type_error.
Qed.

Lemma flags_read_keeps_length_witness :
  let adv := {| data_dict := [(1, VBytes [x05]); (9, VBytes [x41])];
                address := Some [x01]; _rssi := Some (-40);
                connectable := true; mutable := false; scan_response := false;
                flags_attr := None |} in
  exists adv',
    Advertisement_flags adv = Return (Some (byte_Z x05), adv')
    /\ Dict.get (data_dict adv') 1 = Some (VFlags (byte_Z x05))
    /\ Advertisement_len adv' = Advertisement_len adv
    /\ (forall buf : bytes, Advertisement_bytes adv' <> Return buf)
    /\ (forall buf : bytes,
           Advertisement_bytes adv = Return buf ->
           Advertisement_bytes adv' = Raise TypeError).
Proof.
  intros adv.
  apply (flags_read_keeps_length adv x05); reflexivity.
Defined.

Lemma unpack_pack (f : PyStruct.format) (v : Z) (b : bytes) :
  PyStruct.pack f v = Return b -> PyStruct.unpack f b = Return v.
Proof.
  intros Hp. pose proof (pack_length _ _ _ Hp) as Hl.
  unfold PyStruct.pack in Hp.
  destruct (PyStruct.in_range f v) eqn:R; [|discriminate Hp].
  injection Hp as <-. unfold PyStruct.unpack. rewrite Hl, Nat.eqb_refl.
  pose proof (unpack_from_packed f v [] [] R) as H.
  cbn [app length] in H. now rewrite app_nil_r in H.
Qed.

Lemma dict_get_set_other {V : Type} (d : Dict.t V) (k k' : Z) (v : V) :
  k <> k' -> Dict.get (Dict.set d k v) k' = Dict.get d k'.
Proof.
  intros Hne. induction d as [|[k0 v0] r IH]; simpl.
  - destruct (Z.eqb_spec k k'); [contradiction | reflexivity].
  - destruct (Z.eqb_spec k0 k) as [->|Hk]; simpl.
    + destruct (Z.eqb_spec k k'); [contradiction | reflexivity].
    + destruct (k0 =? k'); [reflexivity | exact IH].
Qed.

(** X11: a value in the range of the format that is written through a Struct
    field is the value read back through it. *)
Theorem Struct_set_get :
  forall (_format : PyStruct.format) (_adt : Z) (adv : Advertisement) (v : Z),
    PyStruct.in_range _format v = true ->
    exists adv',
      Struct_set _format _adt adv v = Return adv'
      /\ Struct_get _format _adt adv' = Return (Some v).
Proof.
  intros _format _adt adv v R.
  unfold Struct_set. rewrite (pack_in_range _ _ R). cbn [bind].
  eexists. split; [reflexivity|].
  unfold Struct_get, with_data_dict. cbn [data_dict].
  rewrite dict_get_set.
  rewrite (unpack_pack _format v); [reflexivity | now apply pack_in_range].
Qed.

Lemma Struct_set_get_witness :
  exists adv',
    tx_power_set Advertisement_init (-128) = Return adv'
    /\ tx_power_get adv' = Return (Some (-128)).
Proof.
  apply (Struct_set_get PyStruct.fmt_b 10 Advertisement_init (-128)).
  reflexivity.
Defined.

(** X12: writing a String or a Struct field changes the entry of its own
    type code only: the entry of every other type code, and what a Struct
    field of another type code reads, stay as they were. *)
Theorem set_field_leaves_other_fields :
  forall (_adt other : Z) (adv : Advertisement),
    _adt <> other ->
    (forall (s : string) (adv' : Advertisement),
        String_set _adt adv s = Return adv' ->
        Dict.get (data_dict adv') other = Dict.get (data_dict adv) other
        /\ forall f, Struct_get f other adv' = Struct_get f other adv)
    /\ (forall (_format : PyStruct.format) (v : Z) (adv' : Advertisement),
           Struct_set _format _adt adv v = Return adv' ->
           Dict.get (data_dict adv') other = Dict.get (data_dict adv) other
           /\ forall f, Struct_get f other adv' = Struct_get f other adv).
Proof.
  intros _adt other adv Hne. split.
  - intros s adv' H. injection H as <-. cbn [with_data_dict data_dict].
    split; [now apply dict_get_set_other|].
    intros f. unfold Struct_get, with_data_dict. cbn [data_dict].
    now rewrite dict_get_set_other.
  - intros _format v adv' H. unfold Struct_set in H.
    destruct (PyStruct.pack _format v) as [b| |]; simpl in H; try discriminate H.
    injection H as <-. cbn [data_dict].
    split; [now apply dict_get_set_other|].
    intros f. unfold Struct_get, with_data_dict. cbn [data_dict].
    now rewrite dict_get_set_other.
Qed.

Lemma set_field_leaves_other_fields_witness :
  let adv := {| data_dict := [(10, VBytes [xf8])]; address := None; _rssi := None;
                connectable := false; mutable := true; scan_response := false;
                flags_attr := None |} in
  let adv' := with_data_dict adv [(10, VBytes [xf8]); (9, VBytes [x42; x6f])] in
  Dict.get (data_dict adv') 10 = Dict.get (data_dict adv) 10.
Proof.
  intros adv adv'.
  assert (Hne : 9 <> 10) by lia.
  exact (proj1 (proj1 (set_field_leaves_other_fields 9 10 adv Hne)
                  "Bo"%string adv' eq_refl)).
Defined.

Lemma dict_set_set {V : Type} (d : Dict.t V) (k : Z) (v v' : V) :
  Dict.set (Dict.set d k v) k v' = Dict.set d k v'.
Proof.
  induction d as [|[k0 v0] r IH]; simpl.
  - now rewrite Z.eqb_refl.
  - destruct (k0 =? k) eqn:E; simpl; rewrite E; [reflexivity | now rewrite IH].
Qed.

(** X13: the field setters keep the keys of the dictionary pairwise distinct,
    and writing a String field a second time replaces the first value in
    place: the result is that of the second write alone. *)
Theorem set_field_overwrites :
  forall (_adt : Z) (adv : Advertisement) (s1 s2 : string),
    NoDup (Dict.keys (data_dict adv)) ->
    exists adv1 adv2,
      String_set _adt adv s1 = Return adv1
      /\ String_set _adt adv1 s2 = Return adv2
      /\ String_set _adt adv s2 = Return adv2
      /\ NoDup (Dict.keys (data_dict adv2))
      /\ forall (_format : PyStruct.format) (v : Z) (adv3 : Advertisement),
          Struct_set _format _adt adv v = Return adv3 ->
          NoDup (Dict.keys (data_dict adv3)).
Proof.
  intros _adt adv s1 s2 Hnd.
  unfold String_set. do 2 eexists.
  split; [reflexivity|]. split; [reflexivity|].
  cbn [with_data_dict data_dict address _rssi connectable mutable scan_response
       flags_attr].
  rewrite dict_set_set. split; [reflexivity|].
  split; [now apply dict_set_NoDup|].
  intros _format v adv3 H. unfold Struct_set in H.
  destruct (PyStruct.pack _format v) as [b| |]; simpl in H; try discriminate H.
  injection H as <-. cbn [data_dict]. now apply dict_set_NoDup.
Qed.

Lemma set_field_overwrites_witness :
  exists adv1 adv2,
    String_set 9 Advertisement_init "ab" = Return adv1
    /\ String_set 9 adv1 "c" = Return adv2
    /\ String_set 9 Advertisement_init "c" = Return adv2
    /\ NoDup (Dict.keys (data_dict adv2))
    /\ forall (_format : PyStruct.format) (v : Z) (adv3 : Advertisement),
        Struct_set _format 9 Advertisement_init v = Return adv3 ->
        NoDup (Dict.keys (data_dict adv3)).
Proof.
  apply (set_field_overwrites 9 Advertisement_init "ab" "c"). constructor.
Defined.

(** X14: an advertisement whose dictionary has distinct keys and holds byte
    strings that [encode_data] accepts survives transmission: [from_entry] on
    a scan entry carrying its [__bytes__] gives an immutable advertisement
    with the same dictionary. *)
Theorem advertisement_transmission :
  forall (adv : Advertisement) (entry_address : bytes) (entry_rssi : Z)
         (entry_connectable entry_scan_response : bool),
    NoDup (Dict.keys (data_dict adv)) ->
    Forall (fun e => encodable PyStruct.fmt_B e = true
                     /\ exists b, snd e = VBytes b) (data_dict adv) ->
    exists buf received,
      Advertisement_bytes adv = Return buf
      /\ from_entry {| advertisement_bytes := buf;
                       entry_address := entry_address;
                       entry_rssi := entry_rssi;
                       entry_connectable := entry_connectable;
                       entry_scan_response := entry_scan_response |}
         = Return received
      /\ data_dict received = data_dict adv
      /\ mutable received = false.
Proof.
  intros adv a r c sr Hnd Hall.
  assert (Henc : Forall (fun e => encodable PyStruct.fmt_B e = true) (data_dict adv))
    by (revert Hall; apply Forall_impl; tauto).
  assert (Hid : map flatten_entry (data_dict adv) = data_dict adv).
  { clear - Hall. induction Hall as [|[k v] l [_ [b Hb]] _ IH]; [reflexivity|].
    cbn [map]. rewrite IH. cbn [snd] in Hb. subst v. reflexivity. }
  exists (records PyStruct.fmt_B (data_dict adv)). eexists.
  split; [now apply encode_data_records|].
  unfold from_entry. cbn [advertisement_bytes].
  rewrite (decode_data_records _ _ Henc).
  rewrite (stored_distinct PyStruct.fmt_B _ [] Henc Hnd).
  cbn [app bind]. rewrite Hid. split; [reflexivity|]. split; reflexivity.
Qed.

Lemma advertisement_transmission_witness :
  let adv := {| data_dict := [(9, VBytes [x42; x6f]); (10, VBytes [xf8])];
                address := None; _rssi := None; connectable := true;
                mutable := true; scan_response := false; flags_attr := None |} in
  exists buf received,
    Advertisement_bytes adv = Return buf
    /\ from_entry {| advertisement_bytes := buf;
                     entry_address := [x01; x02];
                     entry_rssi := -60;
                     entry_connectable := true;
                     entry_scan_response := false |}
       = Return received
    /\ data_dict received = data_dict adv
    /\ mutable received = false.
Proof.
  intros adv.
  apply (advertisement_transmission adv [x01; x02] (-60) true false).
  - repeat constructor; simpl; intuition discriminate.
  - repeat constructor; eexists; reflexivity.
Defined.

(** * Further properties of the HID descriptor parser *)

Lemma parse_loop_result_reached (hid_descriptor : bytes) (fuel : nat) :
  forall (i : nat) (p0 p : parser),
    parse_reaches hid_descriptor i p0 ->
    parse_loop hid_descriptor fuel i p0 = Return p ->
    exists i', parse_reaches hid_descriptor i' p.
Proof.
  induction fuel as [|fuel IH]; intros i p0 p Hr H; simpl in H;
    destruct (length hid_descriptor <=? i)%nat eqn:E;
    try (injection H as <-; eauto; fail); try discriminate H.
  apply Nat.leb_gt in E.
  destruct (parse_body hid_descriptor i p0) as [[i' p']|e|] eqn:B;
    simpl in H; try discriminate H.
  eapply IH; [|exact H]. eapply parse_next; eauto.
Qed.

Lemma parse_descriptor_reached (hid_descriptor : bytes) (tops : list collection) :
  parse_descriptor hid_descriptor = Return tops ->
  exists i p, parse_reaches hid_descriptor i p /\ top_level_collections p = tops.
Proof.
  unfold parse_descriptor. intros H.
  destruct (parse_loop hid_descriptor (length hid_descriptor) 0 initial_parser)
    as [p| |] eqn:L; simpl in H; try discriminate H.
  injection H as <-.
  destruct (parse_loop_result_reached _ _ _ _ _ (parse_start _) L) as [i Hr].
  eauto.
Qed.

(** The result of [_init_devices] when the item at a state the loop passes
    through raises. *)
Lemma parse_body_raises (hid_descriptor : bytes) (i : nat) (p : parser) (e : exn) :
  parse_reaches hid_descriptor i p ->
  (i < length hid_descriptor)%nat ->
  parse_body hid_descriptor i p = Raise e ->
  _init_devices hid_descriptor = Raise e.
Proof.
  intros Hr Hlt B. unfold _init_devices, parse_descriptor.
  rewrite (parse_reaches_result _ _ _ Hr).
  destruct (length hid_descriptor - i)%nat as [|k] eqn:Ek; [lia|].
  simpl. destruct (length hid_descriptor <=? i)%nat eqn:E;
    [apply Nat.leb_le in E; lia|].
  rewrite B. reflexivity.
Qed.

(** X15: when the item loop arrives at a Main item whose tag is none of
    Start Collection, End Collection, Input and Output (a Feature item, for
    one), [_init_devices] fails with the [RuntimeError] for an unsupported
    main item, whatever the state of the collection stack. *)
Theorem unsupported_main_item :
  forall (hid_descriptor : bytes) (i : nat) (p : parser),
    let b := byte_Z (nth i hid_descriptor x00) in
    parse_reaches hid_descriptor i p ->
    (i < length hid_descriptor)%nat ->
    item_type_of b = _ITEM_TYPE_MAIN ->
    item_tag_of b <> _MAIN_ITEM_TAG_START_COLLECTION ->
    item_tag_of b <> _MAIN_ITEM_TAG_END_COLLECTION ->
    item_tag_of b <> _MAIN_ITEM_TAG_INPUT ->
    item_tag_of b <> _MAIN_ITEM_TAG_OUTPUT ->
    _init_devices hid_descriptor
    = Raise (RuntimeError "Unsupported main item in HID descriptor").
Proof.
  intros desc i p b Hr Hlt Htype H1 H2 H3 H4.
  apply (parse_body_raises desc i p _ Hr Hlt).
  unfold parse_body. fold b. rewrite Htype. unfold parse_item.
  change (_ITEM_TYPE_MAIN =? _ITEM_TYPE_GLOBAL) with false.
  change (_ITEM_TYPE_MAIN =? _ITEM_TYPE_MAIN) with true. cbv iota.
  apply Z.eqb_neq in H1, H2, H3, H4. rewrite H1, H2, H3, H4. reflexivity.
Qed.

Lemma unsupported_main_item_witness :
  _init_devices [x05; x01; x09; x06; xa1; x01; xb1; x02; xc0]
  = Raise (RuntimeError "Unsupported main item in HID descriptor").
Proof.
  apply (unsupported_main_item
           [x05; x01; x09; x06; xa1; x01; xb1; x02; xc0] 6
           {| global_table := Some [x01] :: repeat None 9;
              local_table := repeat None 3;
              collections := [{| c_type := [x01];
                                 c_locals := [Some [x06]; None; None];
                                 c_globals := Some [x01] :: repeat None 9;
                                 c_mains := [] |}];
              top_level_collections := [] |}).
  - eapply parse_next
      with (i := 4%nat)
           (p := {| global_table := Some [x01] :: repeat None 9;
                    local_table := [Some [x06]; None; None];
                    collections := [];
                    top_level_collections := [] |});
      [|simpl; lia | reflexivity].
    eapply parse_next
      with (i := 2%nat)
           (p := {| global_table := Some [x01] :: repeat None 9;
                    local_table := repeat None 3;
                    collections := [];
                    top_level_collections := [] |});
      [|simpl; lia | reflexivity].
    eapply parse_next with (i := 0%nat) (p := initial_parser);
      [|simpl; lia | reflexivity].
    apply parse_start.
  - simpl. lia.
  - reflexivity.
  - discriminate.
  - discriminate.
  - discriminate.
  - discriminate.
Defined.

Lemma set_index_length {A : Type} (l : list A) :
  forall (n : nat) (x : A) (l' : list A),
    set_index l n x = Return l' -> length l' = length l.
Proof.
  induction l as [|h t IH]; intros [|n] x l' H; simpl in H; try discriminate H.
  - now injection H as <-.
  - destruct (set_index t n x) as [t'| |] eqn:S; simpl in H; try discriminate H.
    injection H as <-. simpl. f_equal. eapply IH; eauto.
Qed.

Lemma set_index_out_of_range {A : Type} (l : list A) :
  forall (n : nat) (x : A),
    (length l <= n)%nat -> set_index l n x = Raise IndexError.
Proof.
  induction l as [|h t IH]; intros [|n] x H; simpl in *; try reflexivity; try lia.
  rewrite IH by lia. reflexivity.
Qed.

Lemma pop_inv {A : Type} (l rest : list A) (x : A) :
  pop l = Return (rest, x) -> l = rest ++ [x].
Proof.
  unfold pop. destruct (rev l) as [|y r] eqn:R; [discriminate|].
  intros H. injection H as <- <-.
  rewrite <- (rev_involutive l), R. reflexivity.
Qed.

Lemma append_to_last_inv (cs cs' : list collection) (m : main) :
  append_to_last cs m = Return cs' ->
  exists r c, cs = r ++ [c] /\ cs' = r ++ [append_main c m].
Proof.
  unfold append_to_last. destruct (rev cs) as [|c r] eqn:R; [discriminate|].
  intros H. injection H as <-. exists (rev r), c. split; [|reflexivity].
  rewrite <- (rev_involutive cs), R. reflexivity.
Qed.

Lemma well_sized_parser_iff (p : parser) :
  well_sized_parser p = true
  <-> length (global_table p) = 10%nat
      /\ length (local_table p) = 3%nat
      /\ forallb well_sized_collection (collections p) = true
      /\ forallb well_sized_collection (top_level_collections p) = true.
Proof.
  unfold well_sized_parser. rewrite !andb_true_iff, !Nat.eqb_eq. tauto.
Qed.

Lemma well_sized_collection_iff (c : collection) :
  well_sized_collection c = true
  <-> length (c_locals c) = 3%nat
      /\ length (c_globals c) = 10%nat
      /\ forallb well_sized (c_mains c) = true.
Proof.
  unfold well_sized_collection. rewrite !andb_true_iff, !Nat.eqb_eq. tauto.
Qed.

Lemma well_sized_append_main (c : collection) (m : main) :
  well_sized_collection c = true -> well_sized m = true ->
  well_sized_collection (append_main c m) = true.
Proof.
  rewrite !well_sized_collection_iff. cbn [append_main c_locals c_globals c_mains].
  intros (Hl & Hg & Hm) Hw. repeat split; auto.
  rewrite forallb_app, Hm. simpl. now rewrite Hw.
Qed.

Lemma well_sized_as_main (c : collection) :
  well_sized_collection c = true -> well_sized (as_main c) = true.
Proof.
  intros H. exact H.
Qed.

Lemma append_to_last_well_sized (cs cs' : list collection) (m : main) :
  forallb well_sized_collection cs = true -> well_sized m = true ->
  append_to_last cs m = Return cs' ->
  forallb well_sized_collection cs' = true.
Proof.
  intros Hcs Hm H. apply append_to_last_inv in H.
  destruct H as (r & c & -> & ->).
  rewrite forallb_app in Hcs |- *. apply andb_prop in Hcs.
  destruct Hcs as [Hr Hc]. rewrite Hr. simpl in Hc |- *.
  rewrite andb_true_r in Hc |- *. now apply well_sized_append_main.
Qed.

Lemma parse_item_well_sized (_type tag : Z) (data : bytes) (p p' : parser) :
  well_sized_parser p = true ->
  parse_item _type tag data p = Return p' ->
  well_sized_parser p' = true.
Proof.
  rewrite !well_sized_parser_iff. intros (Hg & Hl & Hcs & Htops) H.
  unfold parse_item in H.
  destruct (_type =? _ITEM_TYPE_GLOBAL).
  { destruct (set_index (global_table p) _ _) as [g| |] eqn:S; simpl in H;
      try discriminate H.
    injection H as <-. cbn. apply set_index_length in S. repeat split; auto; lia. }
  destruct (_type =? _ITEM_TYPE_MAIN).
  2:{ destruct (set_index (local_table p) _ _) as [l| |] eqn:S; simpl in H;
        try discriminate H.
      injection H as <-. cbn. apply set_index_length in S. repeat split; auto; lia. }
  assert (Hitem : forall t, well_sized (Item t (local_table p) (global_table p)) = true).
  { intros t. cbn [well_sized]. now rewrite Hg, Hl. }
  destruct (tag =? _MAIN_ITEM_TAG_START_COLLECTION).
  { simpl in H. injection H as <-. cbn. repeat split; auto.
    rewrite forallb_app, Hcs. cbn [forallb]. rewrite andb_true_r.
    apply well_sized_collection_iff. cbn. auto. }
  destruct (tag =? _MAIN_ITEM_TAG_END_COLLECTION).
  { destruct (pop (collections p)) as [[rest c]| |] eqn:P; simpl in H;
      try discriminate H.
    apply pop_inv in P. rewrite P, forallb_app in Hcs.
    apply andb_prop in Hcs. destruct Hcs as [Hrest Hc].
    cbn [forallb] in Hc. rewrite andb_true_r in Hc.
    destruct rest as [|c0 rest].
    - simpl in H. injection H as <-. cbn. repeat split; auto.
      rewrite forallb_app, Htops. cbn [forallb]. now rewrite Hc.
    - destruct (append_to_last (c0 :: rest) (as_main c)) as [cs| |] eqn:Q;
        simpl in H; try discriminate H.
      injection H as <-. cbn. repeat split; auto.
      exact (append_to_last_well_sized _ _ _ Hrest (well_sized_as_main c Hc) Q). }
  destruct (tag =? _MAIN_ITEM_TAG_INPUT).
  { destruct (append_to_last (collections p) _) as [cs| |] eqn:Q;
      simpl in H; try discriminate H.
    injection H as <-. cbn. repeat split; auto.
    exact (append_to_last_well_sized _ _ _ Hcs (Hitem _) Q). }
  destruct (tag =? _MAIN_ITEM_TAG_OUTPUT).
  { destruct (append_to_last (collections p) _) as [cs| |] eqn:Q;
      simpl in H; try discriminate H.
    injection H as <-. cbn. repeat split; auto.
    exact (append_to_last_well_sized _ _ _ Hcs (Hitem _) Q). }
  discriminate H.
Qed.

Lemma parse_reaches_well_sized (hid_descriptor : bytes) (i : nat) (p : parser) :
  parse_reaches hid_descriptor i p -> well_sized_parser p = true.
Proof.
  induction 1 as [|i p i' p' Hr IH Hlt Hb]; [reflexivity|].
  unfold parse_body in Hb.
  destruct (parse_item _ _ _ p) as [q| |] eqn:P; simpl in Hb; try discriminate Hb.
  injection Hb as _ <-. eapply parse_item_well_sized; eauto.
Qed.

Lemma well_sized_items (m : main) :
  well_sized m = true ->
  Forall (fun item => length (snd item) = 10%nat) (items_of m).
Proof.
  induction m as [type locals globals mains IH | tag locals globals]
    using main_nested_ind; intros H.
  - cbn [well_sized] in H. apply andb_prop in H. destruct H as [_ H].
    cbn [items_of].
    induction IH as [|m' r Hm' _ IHr]; [constructor|].
    cbn [forallb] in H. apply andb_prop in H. destruct H as [H1 H2].
    apply Forall_app. split; auto.
  - cbn [well_sized] in H. apply andb_prop in H. destruct H as [_ H].
    apply Nat.eqb_eq in H. repeat constructor. exact H.
Qed.

(** X16: the register tables keep their sizes. In every top-level collection
    that the item loop completes, the snapshot of the local table has 3
    slots, the snapshot of the global table has 10, and so has the snapshot
    of the global table in every Input/Output item beneath it: the slice
    [globals[7:10]] that [get_report_info] unpacks always has three
    entries. *)
Theorem parse_descriptor_table_sizes :
  forall (hid_descriptor : bytes) (tops : list collection),
    parse_descriptor hid_descriptor = Return tops ->
    Forall (fun c =>
              length (c_locals c) = 3%nat
              /\ length (c_globals c) = 10%nat
              /\ Forall (fun item => length (snd item) = 10%nat
                                     /\ length (slice (snd item) 7 10) = 3%nat)
                   (items_of_collection c))
      tops.
Proof.
  intros desc tops H.
  apply parse_descriptor_reached in H. destruct H as (i & p & Hr & <-).
  apply parse_reaches_well_sized in Hr.
  apply well_sized_parser_iff in Hr. destruct Hr as (_ & _ & _ & Htops).
  rewrite forallb_forall in Htops. apply Forall_forall. intros c Hc.
  specialize (Htops c Hc). apply well_sized_collection_iff in Htops.
  destruct Htops as (Hl & Hg & Hm). repeat split; auto.
  unfold items_of_collection. rewrite forallb_forall in Hm.
  induction (c_mains c) as [|m r IH]; [constructor|].
  cbn [flat_map]. apply Forall_app. split.
  - pose proof (well_sized_items m (Hm m (or_introl eq_refl))) as Hi.
    revert Hi. apply Forall_impl. intros item Hlen. split; [exact Hlen|].
    unfold slice. rewrite length_firstn, length_skipn. lia.
  - apply IH. intros x Hx. apply Hm. now right.
Qed.

Lemma parse_descriptor_table_sizes_witness :
  Forall (fun c =>
            length (c_locals c) = 3%nat
            /\ length (c_globals c) = 10%nat
            /\ Forall (fun item => length (snd item) = 10%nat
                                   /\ length (slice (snd item) 7 10) = 3%nat)
                 (items_of_collection c))
    [{| c_type := [x01];
        c_locals := [Some [x06]; None; None];
        c_globals := Some [x01] :: repeat None 9;
        c_mains := [Item input [None; None; None]
                      [Some [x01]; None; None; None; None; None; None;
                       Some [x08]; Some [x01]; Some [x08]]] |}].
Proof.
  apply (parse_descriptor_table_sizes
           [x05; x01; x09; x06; xa1; x01; x85; x01; x75; x08; x95; x08;
            x81; x02; xc0]).
  vm_compute. reflexivity.
Defined.

(** X17: a Global item whose tag is 10 or more (Push and Pop, for two), and
    a Local or reserved-type item whose tag is 3 or more, index past the end
    of their register table: when the item loop arrives at one,
    [_init_devices] fails with [IndexError]. *)
Theorem register_tag_out_of_range :
  forall (hid_descriptor : bytes) (i : nat) (p : parser),
    let b := byte_Z (nth i hid_descriptor x00) in
    parse_reaches hid_descriptor i p ->
    (i < length hid_descriptor)%nat ->
    (item_type_of b = _ITEM_TYPE_GLOBAL /\ 10 <= item_tag_of b)
    \/ (item_type_of b <> _ITEM_TYPE_GLOBAL
        /\ item_type_of b <> _ITEM_TYPE_MAIN
        /\ 3 <= item_tag_of b) ->
    _init_devices hid_descriptor = Raise IndexError.
Proof.
  intros desc i p b Hr Hlt Hcase.
  apply (parse_body_raises desc i p _ Hr Hlt).
  pose proof (parse_reaches_well_sized _ _ _ Hr) as Hw.
  apply well_sized_parser_iff in Hw. destruct Hw as (Hg & Hl & _ & _).
  unfold parse_body. fold b. unfold parse_item.
  destruct Hcase as [[Ht Htag] | (Ht1 & Ht2 & Htag)].
  - rewrite Ht. change (_ITEM_TYPE_GLOBAL =? _ITEM_TYPE_GLOBAL) with true.
    cbv iota. rewrite set_index_out_of_range by lia. reflexivity.
  - apply Z.eqb_neq in Ht1, Ht2. rewrite Ht1, Ht2.
    rewrite set_index_out_of_range by lia. reflexivity.
Qed.

Lemma register_tag_out_of_range_witness :
  _init_devices [x05; x01; xa4; xb4] = Raise IndexError.
Proof.
  apply (register_tag_out_of_range [x05; x01; xa4; xb4] 2
           {| global_table := Some [x01] :: repeat None 9;
              local_table := repeat None 3;
              collections := [];
              top_level_collections := [] |}).
  - eapply parse_next with (i := 0%nat) (p := initial_parser);
      [apply parse_start | simpl; lia | reflexivity].
  - simpl. lia.
  - left. split; [reflexivity | vm_compute; discriminate].
Defined.

Lemma devices_loop_app (pre post : list collection) :
  forall devices,
    devices_loop (pre ++ post) devices
    = (ds <- devices_loop pre devices ;; devices_loop post ds).
Proof.
  induction pre as [|c r IH]; intros devices; [reflexivity|].
  cbn [app devices_loop].
  destruct (collection_devices c); cbn [bind]; auto.
Qed.

(** X18: a top-level collection whose type is not Application (1) makes
    [_init_devices] fail with the [NotImplementedError] for top level
    collections, once the collections completed before it have given their
    devices. *)
Theorem non_application_collection :
  forall (hid_descriptor : bytes) (pre rest : list collection) (c : collection)
         (devices : list device) (t : byte),
    parse_descriptor hid_descriptor = Return (pre ++ c :: rest) ->
    devices_loop pre [] = Return devices ->
    index (c_type c) 0 = Return t ->
    byte_Z t <> 1 ->
    _init_devices hid_descriptor
    = Raise (NotImplementedError
               "Only Application top level collections supported.").
Proof.
  intros desc pre rest c devices t Hparse Hpre Ht Hne.
  unfold _init_devices. rewrite Hparse. cbn [bind].
  rewrite devices_loop_app, Hpre. cbn [bind devices_loop].
  unfold collection_devices. rewrite Ht. cbn [bind].
  apply Z.eqb_neq in Hne. rewrite Hne. reflexivity.
Qed.

Lemma non_application_collection_witness :
  _init_devices
    [x05; x01; x09; x06; xa1; x01; x85; x01; x75; x08; x95; x08; x81; x02; xc0;
     x09; x02; xa1; x00; xc0]
  = Raise (NotImplementedError
             "Only Application top level collections supported.").
Proof.
  set (g := [Some [x01]; None; None; None; None; None; None;
             Some [x08]; Some [x01]; Some [x08]]).
  apply (non_application_collection _
           [{| c_type := [x01];
               c_locals := [Some [x06]; None; None];
               c_globals := Some [x01] :: repeat None 9;
               c_mains := [Item input [None; None; None] g] |}]
           []
           {| c_type := [x00];
              c_locals := [Some [x02]; None; None];
              c_globals := g;
              c_mains := [] |}
           [ReportIn 1 1 6 8] x00).
  - vm_compute. reflexivity.
  - vm_compute. reflexivity.
  - reflexivity.
  - discriminate.
Defined.

Lemma report_info_item_known (tag : item_tag) (globals : table) (rid : Z)
  (r0 : report) :
  report_id_of (tag, globals) = Some rid ->
  report_info_item tag globals [(rid, r0)]
  = Return [(rid,
             {| input_size :=
                  input_size r0
                  + (if is_input (tag, globals) then item_bits (tag, globals) else 0);
                output_size :=
                  output_size r0
                  + (if is_input (tag, globals) then 0 else item_bits (tag, globals)) |})].
Proof.
  unfold report_id_of, item_bits, is_input, report_info_item. cbn [fst snd].
  destruct (item_fields globals) as [[[rs rid'] rc]| |]; try discriminate.
  intros H. injection H as ->. cbn [bind].
  unfold Dict.mem. cbn [Dict.get]. rewrite Z.eqb_refl. cbn [Dict.get].
  rewrite Z.eqb_refl. cbn [Dict.set]. rewrite Z.eqb_refl.
  destruct tag; now rewrite Z.add_0_r.
Qed.

Lemma report_info_item_first (tag : item_tag) (globals : table) (rid : Z) :
  report_id_of (tag, globals) = Some rid ->
  report_info_item tag globals []
  = report_info_item tag globals [(rid, {| input_size := 0; output_size := 0 |})].
Proof.
  unfold report_id_of, report_info_item. cbn [snd].
  destruct (item_fields globals) as [[[rs rid'] rc]| |]; try discriminate.
  intros H. injection H as ->. cbn [bind].
  unfold Dict.mem.
  do 3 (cbn [Dict.get Dict.set]; rewrite ?Z.eqb_refl). reflexivity.
Qed.

Lemma report_info_items_known (items : list (item_tag * table)) (rid : Z) :
  forall r0 : report,
    Forall (fun item => report_id_of item = Some rid) items ->
    report_info_items items [(rid, r0)]
    = Return [(rid, {| input_size := input_size r0 + input_bits items;
                       output_size := output_size r0 + output_bits items |})].
Proof.
  induction items as [|[tag globals] r IH]; intros r0 Hall.
  - cbn [report_info_items input_bits output_bits fold_right].
    rewrite !Z.add_0_r. now destruct r0.
  - inversion Hall as [|x l Hx Hr]; subst x l.
    cbn [report_info_items]. rewrite (report_info_item_known _ _ _ _ Hx).
    cbn [bind]. rewrite (IH _ Hr). cbn [input_size output_size].
    cbn [input_bits output_bits fold_right].
    fold (input_bits r). fold (output_bits r).
    destruct (is_input (tag, globals));
      rewrite ?Z.add_0_r, <- ?Z.add_assoc; reflexivity.
Qed.

Lemma report_info_items_single (items : list (item_tag * table)) (rid : Z) :
  items <> [] ->
  Forall (fun item => report_id_of item = Some rid) items ->
  report_info_items items []
  = Return [(rid, {| input_size := input_bits items;
                     output_size := output_bits items |})].
Proof.
  intros Hne Hall. destruct items as [|[tag globals] r]; [contradiction|].
  inversion Hall as [|x l Hx Hr]; subst x l.
  pose proof (report_info_items_known ((tag, globals) :: r) rid
                {| input_size := 0; output_size := 0 |} Hall) as H.
  cbn [report_info_items] in H |- *.
  rewrite (report_info_item_first _ _ _ Hx). rewrite H.
  cbn [input_size output_size]. reflexivity.
Qed.

(** X19: when every Input/Output item beneath a collection, nested
    collections included, carries the same report ID, [get_report_info]
    returns that one report, whose input size is the sum of
    [report_size * report_count] over the Input items and whose output size
    is that sum over the Output items. *)
Theorem get_report_info_sums :
  forall (c : collection) (rid : Z),
    items_of_collection c <> [] ->
    Forall (fun item => report_id_of item = Some rid) (items_of_collection c) ->
    get_report_info c []
    = Return [(rid, {| input_size := input_bits (items_of_collection c);
                       output_size := output_bits (items_of_collection c) |})].
Proof.
  intros c rid Hne Hall.
  rewrite get_report_info_items. now apply report_info_items_single.
Qed.

Lemma get_report_info_sums_witness :
  let g := [Some [x01]; None; None; None; None; None; None;
            Some [x08]; Some [x01]; Some [x03]] in
  let c := {| c_type := [x01];
              c_locals := [Some [x06]; None; None];
              c_globals := Some [x01] :: repeat None 9;
              c_mains := [Item input [None; None; None] g;
                          Collection [x00] [None; None; None] g
                            [Item output [None; None; None] g;
                             Item input [None; None; None] g]] |} in
  get_report_info c []
  = Return [(1, {| input_size := input_bits (items_of_collection c);
                   output_size := output_bits (items_of_collection c) |})].
Proof.
  intros g c. apply (get_report_info_sums c 1).
  - discriminate.
  - repeat constructor.
Defined.

(** X20: for a descriptor whose one top-level collection is an Application
    collection with Usage Page and Usage set and whose items all carry the
    same report ID, [_init_devices] creates an output report when the output
    bits are positive, then an input report when the input bits are
    positive, each sized to its bits divided by 8 and rounded down. *)
Theorem single_report_devices :
  forall (hid_descriptor : bytes) (c : collection) (t : byte)
         (usage_page usage rid : Z),
    let items := items_of_collection c in
    parse_descriptor hid_descriptor = Return [c] ->
    index (c_type c) 0 = Return t ->
    byte_Z t = 1 ->
    (g <- index (c_globals c) 0 ;; first_byte g) = Return usage_page ->
    (l <- index (c_locals c) 0 ;; first_byte l) = Return usage ->
    items <> [] ->
    Forall (fun item => report_id_of item = Some rid) items ->
    _init_devices hid_descriptor
    = Return ((if 0 <? output_bits items
               then [ReportOut rid usage_page usage (output_bits items / 8)]
               else [])
              ++ (if 0 <? input_bits items
                  then [ReportIn rid usage_page usage (input_bits items / 8)]
                  else [])).
Proof.
  intros desc c t usage_page usage rid items Hparse Htype Happ Hpage Husage
         Hne Hall.
  subst items. unfold _init_devices. rewrite Hparse. cbn [bind devices_loop].
  unfold collection_devices. rewrite Htype. cbn [bind]. rewrite Happ.
  cbn [Z.eqb Pos.eqb negb].
  destruct (index (c_globals c) 0) as [g| |]; cbn [bind] in Hpage |- *;
    try discriminate Hpage.
  rewrite Hpage. cbn [bind].
  destruct (index (c_locals c) 0) as [l| |]; cbn [bind] in Husage |- *;
    try discriminate Husage.
  rewrite Husage. cbn [bind].
  rewrite get_report_info_items.
  rewrite (report_info_items_single _ rid Hne Hall). cbn [bind length].
  cbn [Nat.ltb Nat.leb index nth_error bind Dict.get].
  rewrite Z.eqb_refl. cbn [output_size input_size app]. reflexivity.
Qed.

Lemma single_report_devices_witness :
  let g := [Some [x01]; None; None; None; None; None; None;
            Some [x03]; Some [x01]; Some [x04]] in
  let items := [(input, g); (output, g)] in
  _init_devices
    [x05; x01; x09; x06; xa1; x01; x85; x01; x75; x03; x95; x04;
     x81; x02; x91; x02; xc0]
  = Return ((if 0 <? output_bits items
             then [ReportOut 1 1 6 (output_bits items / 8)]
             else [])
            ++ (if 0 <? input_bits items
                then [ReportIn 1 1 6 (input_bits items / 8)]
                else [])).
Proof.
  intros g items.
  apply (single_report_devices _
           {| c_type := [x01];
              c_locals := [Some [x06]; None; None];
              c_globals := Some [x01] :: repeat None 9;
              c_mains := [Item input [None; None; None] g;
                          Item output [None; None; None] g] |}
           x01 1 6 1).
  - vm_compute. reflexivity.
  - reflexivity.
  - reflexivity.
  - reflexivity.
  - reflexivity.
  - discriminate.
  - repeat constructor.
Defined.

(** X21: an Application collection with Usage Page and Usage set that has no
    Input or Output item beneath it leaves [reports] empty, and
    [list(reports.items())[0]] raises: [_init_devices] fails with
    [IndexError] when the first top-level collection is such a collection. *)
Theorem collection_without_items :
  forall (hid_descriptor : bytes) (c : collection) (rest : list collection)
         (t : byte) (usage_page usage : Z),
    parse_descriptor hid_descriptor = Return (c :: rest) ->
    index (c_type c) 0 = Return t ->
    byte_Z t = 1 ->
    (g <- index (c_globals c) 0 ;; first_byte g) = Return usage_page ->
    (l <- index (c_locals c) 0 ;; first_byte l) = Return usage ->
    items_of_collection c = [] ->
    _init_devices hid_descriptor = Raise IndexError.
Proof.
  intros desc c rest t usage_page usage Hparse Htype Happ Hpage Husage Hempty.
  unfold _init_devices. rewrite Hparse. cbn [bind devices_loop].
  unfold collection_devices. rewrite Htype. cbn [bind]. rewrite Happ.
  cbn [Z.eqb Pos.eqb negb].
  destruct (index (c_globals c) 0) as [g| |]; cbn [bind] in Hpage |- *;
    try discriminate Hpage.
  rewrite Hpage. cbn [bind].
  destruct (index (c_locals c) 0) as [l| |]; cbn [bind] in Husage |- *;
    try discriminate Husage.
  rewrite Husage. cbn [bind].
  rewrite get_report_info_items, Hempty. reflexivity.
Qed.

Lemma collection_without_items_witness :
  _init_devices [x05; x01; x09; x06; xa1; x01; xa1; x00; xc0; xc0]
  = Raise IndexError.
Proof.
  apply (collection_without_items _
           {| c_type := [x01];
              c_locals := [Some [x06]; None; None];
              c_globals := Some [x01] :: repeat None 9;
              c_mains := [Collection [x00] [None; None; None]
                            (Some [x01] :: repeat None 9) []] |}
           [] x01 1 6).
  - vm_compute. reflexivity.
  - reflexivity.
  - reflexivity.
  - reflexivity.
  - reflexivity.
  - reflexivity.
Defined.

Lemma index_fuel {A : Type} (l : list A) (n : nat) : index l n <> OutOfFuel.
Proof.
  unfold index. destruct (nth_error l n); discriminate.
Qed.

Lemma first_byte_fuel (x : option bytes) : first_byte x <> OutOfFuel.
Proof.
  destruct x as [data|]; simpl; [|discriminate].
  unfold index. destruct (nth_error data 0); discriminate.
Qed.

Lemma first_bytes_fuel (l : table) : first_bytes l <> OutOfFuel.
Proof.
  induction l as [|x r IH]; simpl; [discriminate|].
  destruct (first_byte x) eqn:F; simpl; try discriminate.
  - destruct (first_bytes r); simpl; try discriminate. exact IH.
  - exfalso. revert F. apply first_byte_fuel.
Qed.

Lemma report_info_item_fuel (tag : item_tag) (globals : table) (reports : reports_t) :
  report_info_item tag globals reports <> OutOfFuel.
Proof.
  unfold report_info_item, item_fields.
  destruct (first_bytes (slice globals 7 10)) as [zs| |] eqn:F; simpl;
    try discriminate.
  - destruct zs as [|a [|b [|c [|d zs]]]]; simpl; try discriminate.
    destruct (Dict.get _ b); discriminate.
  - exfalso. revert F. apply first_bytes_fuel.
Qed.

Lemma report_info_items_fuel (items : list (item_tag * table)) :
  forall reports, report_info_items items reports <> OutOfFuel.
Proof.
  induction items as [|[tag globals] r IH]; intros reports; simpl;
    [discriminate|].
  destruct (report_info_item tag globals reports) eqn:R; simpl;
    try discriminate; [apply IH|].
  exfalso. revert R. apply report_info_item_fuel.
Qed.

Lemma collection_devices_fuel (c : collection) :
  collection_devices c <> OutOfFuel.
Proof.
  unfold collection_devices.
  destruct (index (c_type c) 0) as [t| |] eqn:I1; simpl; try discriminate;
    [|exfalso; revert I1; apply index_fuel].
  destruct (negb (byte_Z t =? 1)); [discriminate|].
  destruct (index (c_globals c) 0) as [g| |] eqn:I2; simpl; try discriminate;
    [|exfalso; revert I2; apply index_fuel].
  destruct (first_byte g) as [up| |] eqn:F1; simpl; try discriminate;
    [|exfalso; revert F1; apply first_byte_fuel].
  destruct (index (c_locals c) 0) as [l| |] eqn:I3; simpl; try discriminate;
    [|exfalso; revert I3; apply index_fuel].
  destruct (first_byte l) as [u| |] eqn:F2; simpl; try discriminate;
    [|exfalso; revert F2; apply first_byte_fuel].
  rewrite get_report_info_items.
  destruct (report_info_items (items_of_collection c) []) as [reports| |] eqn:R;
    simpl; try discriminate;
    [|exfalso; revert R; apply report_info_items_fuel].
  destruct (1 <? length reports)%nat; [discriminate|].
  destruct (index reports 0) as [[rid r]| |] eqn:I4; simpl; try discriminate;
    [|exfalso; revert I4; apply index_fuel].
  destruct (Dict.get reports rid); discriminate.
Qed.

Lemma devices_loop_fuel (cs : list collection) :
  forall devices, devices_loop cs devices <> OutOfFuel.
Proof.
  induction cs as [|c r IH]; intros devices; simpl; [discriminate|].
  destruct (collection_devices c) eqn:C; simpl; try discriminate; [apply IH|].
  exfalso. revert C. apply collection_devices_fuel.
Qed.

(** X22: [_init_devices] terminates on every descriptor. An iteration of the
    item loop that does not raise moves the position on by one prefix byte
    and at most four data bytes, so fuel equal to the length of the
    descriptor is never used up, and [_init_devices] returns or raises. *)
Theorem _init_devices_terminates :
  forall hid_descriptor : bytes,
    (forall (i : nat) (p : parser),
        match parse_body hid_descriptor i p with
        | Return (i', _) => (i < i')%nat /\ (i' <= i + 5)%nat
        | Raise _ => True
        | OutOfFuel => False
        end)
    /\ ((exists devices, _init_devices hid_descriptor = Return devices)
        \/ (exists e, _init_devices hid_descriptor = Raise e)).
Proof.
  intros desc. split.
  - intros i p. unfold parse_body.
    destruct (parse_item _ _ _ p) as [q| |] eqn:P; cbn [bind]; auto.
    + split; [lia|]. unfold item_size_of.
      set (b := byte_Z (nth i desc x00)).
      destruct (Z.land b 3 =? 3); [lia|].
      assert (0 <= Z.land b 3 < 4).
      { change 3 with (Z.ones 2). rewrite Z.land_ones by lia.
        apply Z.mod_pos_bound. lia. }
      lia.
    + revert P. apply parse_item_fuel.
  - unfold _init_devices.
    pose proof (parse_descriptor_terminates desc) as Hp.
    destruct (parse_descriptor desc) as [tops| |]; cbn [bind];
      [| right; eauto | contradiction].
    pose proof (devices_loop_fuel tops []) as Hd.
    destruct (devices_loop tops []) as [ds| |]; [left | right | contradiction];
      eauto.
Qed.

(** X23: an item changes only what its type owns. A Main item that does not
    raise clears the local table and leaves the global table as it was; a
    Global or Local item that does not raise leaves the collection stack and
    the completed collections as they were. *)
Theorem item_effects :
  forall (hid_descriptor : bytes) (i i' : nat) (p p' : parser),
    let b := byte_Z (nth i hid_descriptor x00) in
    parse_body hid_descriptor i p = Return (i', p') ->
    if item_type_of b =? _ITEM_TYPE_MAIN
    then local_table p' = [None; None; None]
         /\ global_table p' = global_table p
    else collections p' = collections p
         /\ top_level_collections p' = top_level_collections p.
Proof.
  intros desc i i' p p' b H. unfold parse_body in H. fold b in H.
  destruct (parse_item _ _ _ p) as [q| |] eqn:P; simpl in H; try discriminate H.
  injection H as _ <-. unfold parse_item in P.
  destruct (item_type_of b =? _ITEM_TYPE_GLOBAL) eqn:G.
  - apply Z.eqb_eq in G. rewrite G.
    change (_ITEM_TYPE_GLOBAL =? _ITEM_TYPE_MAIN) with false. cbv iota.
    destruct (set_index (global_table p) _ _); simpl in P; try discriminate P.
    injection P as <-. auto.
  - destruct (item_type_of b =? _ITEM_TYPE_MAIN).
    + destruct (item_tag_of b =? _MAIN_ITEM_TAG_START_COLLECTION).
      { simpl in P. injection P as <-. auto. }
      destruct (item_tag_of b =? _MAIN_ITEM_TAG_END_COLLECTION).
      { destruct (pop (collections p)) as [[rest c]| |]; simpl in P;
          try discriminate P.
        destruct rest as [|c0 rest]; simpl in P.
        - injection P as <-. auto.
        - destruct (append_to_last (c0 :: rest) (as_main c)); simpl in P;
            try discriminate P.
          injection P as <-. auto. }
      destruct (item_tag_of b =? _MAIN_ITEM_TAG_INPUT).
      { destruct (append_to_last (collections p) _); simpl in P;
          try discriminate P.
        injection P as <-. auto. }
      destruct (item_tag_of b =? _MAIN_ITEM_TAG_OUTPUT).
      { destruct (append_to_last (collections p) _); simpl in P;
          try discriminate P.
        injection P as <-. auto. }
      discriminate P.
    + destruct (set_index (local_table p) _ _); simpl in P; try discriminate P.
      injection P as <-. auto.
Qed.

Lemma item_effects_witness :
  let p := {| global_table := Some [x01] :: repeat None 9;
              local_table := [Some [x06]; None; None];
              collections := [];
              top_level_collections := [] |} in
  let p' := {| global_table := Some [x01] :: repeat None 9;
               local_table := [None; None; None];
               collections := [{| c_type := [x01];
                                  c_locals := [Some [x06]; None; None];
                                  c_globals := Some [x01] :: repeat None 9;
                                  c_mains := [] |}];
               top_level_collections := [] |} in
  local_table p' = [None; None; None] /\ global_table p' = global_table p.
Proof.
  intros p p'.
  apply (item_effects [x05; x01; x09; x06; xa1; x01; xc0] 4 6 p p').
  reflexivity.
Defined.

(** * Properties of the printing helpers *)

Lemma string_length_append (s1 s2 : string) :
  String.length (s1 ++ s2) = (String.length s1 + String.length s2)%nat.
Proof.
  induction s1 as [|c s IH]; simpl; [reflexivity | now rewrite IH].
Qed.

Lemma parse_format_02x (v : byte) : parse_02x (format_02x v) = Some v.
Proof.
  destruct v; vm_compute; reflexivity.
Qed.

Lemma format_02x_inj (a b : byte) : format_02x a = format_02x b -> a = b.
Proof.
  intros H. pose proof (parse_format_02x a) as Ha.
  rewrite H, parse_format_02x in Ha. now injection Ha.
Qed.

Lemma format_02x_shape (v : byte) :
  exists c1 c2, format_02x v = String c1 (String c2 EmptyString).
Proof.
  unfold format_02x. eauto.
Qed.

Lemma to_hex_cons (a : byte) (r : bytes) :
  to_hex (a :: r)
  = (format_02x a ++ match r with [] => "" | _ :: _ => " " ++ to_hex r end)%string.
Proof.
  unfold to_hex. destruct r as [|b r]; cbn [map str_join].
  - destruct (format_02x_shape a) as (c1 & c2 & ->). reflexivity.
  - reflexivity.
Qed.

Lemma str_join_length (sep : string) (parts : list string) :
  String.length (str_join sep parts)
  = (fold_right (fun s n => String.length s + n) 0 parts
     + (length parts - 1) * String.length sep)%nat.
Proof.
  induction parts as [|s r IH]; [reflexivity|].
  destruct r as [|t r].
  - cbn [str_join fold_right length]. lia.
  - change (str_join sep (s :: t :: r))
      with (s ++ sep ++ str_join sep (t :: r))%string.
    rewrite !string_length_append, IH. cbn [fold_right length]. lia.
Qed.

Lemma sum_lengths_map (f : byte -> string) (k : nat) (seq : bytes) :
  (forall v, String.length (f v) = k) ->
  fold_right (fun s n => String.length s + n)%nat 0%nat (map f seq)
  = (k * length seq)%nat.
Proof.
  intros Hf. induction seq as [|a r IH]; cbn [map fold_right length]; [lia|].
  rewrite IH, Hf. lia.
Qed.

Lemma to_hex_length (seq : bytes) :
  String.length (to_hex seq) = (3 * length seq - 1)%nat.
Proof.
  unfold to_hex. rewrite str_join_length, (sum_lengths_map _ 2), length_map.
  - cbn [String.length]. lia.
  - reflexivity.
Qed.

Lemma literal_body_length (seq : bytes) :
  String.length (str_join "" (map (fun v => "\x" ++ format_02x v)%string seq))
  = (4 * length seq)%nat.
Proof.
  rewrite str_join_length, (sum_lengths_map _ 4), length_map.
  - cbn [String.length]. lia.
  - reflexivity.
Qed.

Lemma to_bytes_literal_length (seq : bytes) :
  String.length (to_bytes_literal seq) = (4 * length seq + 3)%nat.
Proof.
  unfold to_bytes_literal.
  rewrite !string_length_append, literal_body_length.
  cbn [String.length quote]. lia.
Qed.

(** X24: [to_hex] prints three characters per byte less the last separator,
    and nothing for an empty sequence; [to_bytes_literal] prints four
    characters per byte between the opening [b] with its quote and the
    closing quote. *)
Theorem printed_lengths :
  forall seq : bytes,
    String.length (to_hex seq) = (3 * length seq - 1)%nat
    /\ String.length (to_bytes_literal seq) = (4 * length seq + 3)%nat.
Proof.
  intros seq. split; [apply to_hex_length | apply to_bytes_literal_length].
Qed.

(** X25: the [repr] of an advertisement that can be encoded is
    [4 * len(advertisement) + 23] characters long: four for each byte that
    [__len__] counts, and the fixed text around them. *)
Theorem repr_length :
  forall (adv : Advertisement) (s : string),
    Advertisement_repr adv = Return s ->
    String.length s = (4 * Advertisement_len adv + 23)%nat.
Proof.
  intros adv s H. unfold Advertisement_repr in H.
  destruct (encode_data PyStruct.fmt_B (data_dict adv)) as [data| |] eqn:E;
    cbn [bind] in H; try discriminate H.
  assert (Hs : s = ("Advertisement(data=" ++ to_bytes_literal data ++ ")")%string)
    by congruence.
  rewrite Hs. clear H Hs.
  rewrite !string_length_append, to_bytes_literal_length.
  unfold Advertisement_len.
  unfold encode_data in E. apply encode_loop_length in E.
  - rewrite repeat_length in E. rewrite E. cbn [String.length]. lia.
  - rewrite repeat_length, compute_length_records_size. lia.
Qed.

Lemma repr_length_witness :
  let adv := {| data_dict := [(1, VBytes [x06]); (9, VBytes [x42; x6f])];
                address := None; _rssi := None; connectable := false;
                mutable := true; scan_response := false; flags_attr := None |} in
  String.length
    ("Advertisement(data=" ++ to_bytes_literal [x02; x01; x06; x03; x09; x42; x6f]
     ++ ")")
  = (4 * Advertisement_len adv + 23)%nat.
Proof.
  intros adv. apply (repr_length adv). reflexivity.
Defined.

Lemma to_hex_inj (seq1 : bytes) :
  forall seq2, to_hex seq1 = to_hex seq2 -> seq1 = seq2.
Proof.
  induction seq1 as [|a r IH]; intros [|b r'] H.
  - reflexivity.
  - rewrite to_hex_cons in H.
    destruct (format_02x_shape b) as (c1 & c2 & Hb). rewrite Hb in H.
    discriminate H.
  - rewrite to_hex_cons in H.
    destruct (format_02x_shape a) as (c1 & c2 & Ha). rewrite Ha in H.
    discriminate H.
  - rewrite !to_hex_cons in H.
    destruct (format_02x_shape a) as (c1 & c2 & Ha).
    destruct (format_02x_shape b) as (d1 & d2 & Hb).
    rewrite Ha, Hb in H. cbn [String.append] in H.
    injection H as H1 H2 H3. subst d1 d2.
    rewrite <- Hb in Ha. apply format_02x_inj in Ha. subst b. f_equal.
    destruct r as [|x r], r' as [|y r']; try reflexivity; try discriminate H3.
    cbn [String.append] in H3. injection H3 as H3. now apply IH.
Qed.

(** X26: [to_hex] prints different byte sequences differently: two
    sequences with the same printed form are the same sequence. *)
Theorem to_hex_unambiguous :
  forall seq1 seq2 : bytes,
    to_hex seq1 = to_hex seq2 -> seq1 = seq2.
Proof.
  intros seq1 seq2. apply to_hex_inj.
Qed.

Lemma to_hex_unambiguous_witness :
  [x02; x01; xff] = [x02; x01; xff].
Proof.
  apply (to_hex_unambiguous [x02; x01; xff] [x02; x01; xff]). reflexivity.
Defined.

(** * Properties of [BLEConnection] *)

Section ConnectionFacts.

Variable bleio_connection : Type.
Variable bleio_service : Type.
Variable discover_remote_services :
  bleio_connection -> Z -> list bleio_service * bleio_connection.
Variable service_class : Type.
Variable class_uuid : service_class -> Z.

Local Abbreviation connection := (BLEConnection bleio_connection bleio_service service_class).
Local Abbreviation discover := (@_discover_remote _ _ discover_remote_services service_class).
Local Abbreviation contains := (BLEConnection_contains discover_remote_services class_uuid).
Local Abbreviation getitem := (BLEConnection_getitem discover_remote_services class_uuid).

Lemma discover_cases (self : connection) (uuid : Z) :
  (exists r, Dict.get (_discovered_bleio_services self) uuid = Some r
             /\ discover self uuid = (Some r, self))
  \/ (Dict.get (_discovered_bleio_services self) uuid = None
      /\ exists r self',
          discover self uuid = (Some r, self')
          /\ _discovered_bleio_services self'
             = Dict.set (_discovered_bleio_services self) uuid r
          /\ _constructed_services self' = _constructed_services self)
  \/ (Dict.get (_discovered_bleio_services self) uuid = None
      /\ exists self',
          discover self uuid = (None, self')
          /\ _discovered_bleio_services self' = _discovered_bleio_services self
          /\ _constructed_services self' = _constructed_services self).
Proof.
  unfold _discover_remote.
  destruct (Dict.get (_discovered_bleio_services self) uuid) as [r|] eqn:G.
  - left. eauto.
  - right.
    destruct (discover_remote_services (_bleio_connection self) uuid)
      as [[|r results] c].
    + right. split; [reflexivity|]. eexists. repeat split.
    + left. split; [reflexivity|]. do 2 eexists. repeat split.
Qed.

(** X27: a service object that subscription by a [Service] class returns is
    cached: subscribing again with the same class returns the same object
    and leaves the connection, native connection included, as it is. *)
Theorem getitem_is_cached :
  forall (self self' : connection) (cls : service_class)
         (s : service bleio_service service_class),
    getitem self (KeyClass cls) = (Return (Some s), self') ->
    getitem self' (KeyClass cls) = (Return (Some s), self').
Proof.
  intros self self' cls s H. unfold BLEConnection_getitem in H |- *.
  cbn [key_uuid] in H |- *.
  destruct (Dict.get (_constructed_services self) (class_uuid cls)) as [s0|] eqn:G.
  - injection H as <- <-. now rewrite G.
  - destruct (discover self (class_uuid cls)) as [[r|] self1];
      [|discriminate H].
    injection H as <- <-. cbn [_constructed_services].
    now rewrite dict_get_set.
Qed.

(** X28: subscription by a bare UUID that has no constructed service never
    yields a service object and never constructs one: the result is [None]
    when the remote service is found and [KeyError] when it is not, and the
    constructed services stay as they were. *)
Theorem getitem_by_uuid :
  forall (self : connection) (uuid : Z),
    Dict.get (_constructed_services self) uuid = None ->
    exists self',
      _constructed_services self' = _constructed_services self
      /\ ((exists r, discover self uuid = (Some r, self')
                     /\ getitem self (KeyUuid service_class uuid) = (Return None, self'))
          \/ (discover self uuid = (None, self')
              /\ getitem self (KeyUuid service_class uuid) = (Raise KeyError, self'))).
Proof.
  intros self uuid G. unfold BLEConnection_getitem. cbn [key_uuid]. rewrite G.
  destruct (discover_cases self uuid)
    as [(r & _ & D) | [(_ & r & self' & D & _ & C) | (_ & self' & D & _ & C)]];
    rewrite D.
  - exists self. split; [reflexivity|]. left. eauto.
  - exists self'. split; [exact C|]. left. eauto.
  - exists self'. split; [exact C|]. right. eauto.
Qed.

(** X29: a membership test that succeeds is remembered: the same test on
    the connection it leaves succeeds again without changing anything, and a
    subscription with the same key then does not call the native connection.
    A test that fails caches nothing. *)
Theorem contains_is_cached :
  forall (self self' : connection) (key : connection_key service_class) (b : bool),
    contains self key = (b, self') ->
    _constructed_services self' = _constructed_services self
    /\ if b
       then contains self' key = (true, self')
            /\ _bleio_connection (snd (getitem self' key)) = _bleio_connection self'
       else _discovered_bleio_services self' = _discovered_bleio_services self.
Proof.
  intros self self' key b H. unfold BLEConnection_contains in H.
  assert (Hhit : forall r (c : connection),
             Dict.get (_discovered_bleio_services c) (key_uuid class_uuid key) = Some r ->
             contains c key = (true, c)
             /\ _bleio_connection (snd (getitem c key)) = _bleio_connection c).
  { intros r c G. unfold BLEConnection_contains, BLEConnection_getitem.
    unfold _discover_remote. rewrite G. split; [reflexivity|].
    destruct (Dict.get (_constructed_services c) _); [reflexivity|].
    destruct key; reflexivity. }
  destruct (discover_cases self (key_uuid class_uuid key))
    as [(r & G & D) | [(_ & r & self1 & D & Hd & C) | (_ & self1 & D & Hd & C)]];
    rewrite D in H; injection H as <- <-.
  - split; [reflexivity|]. now apply (Hhit r).
  - split; [exact C|]. apply (Hhit r). rewrite Hd. apply dict_get_set.
  - split; [exact C | exact Hd].
Qed.

End ConnectionFacts.

Lemma getitem_is_cached_witness :
  let self' := {| _bleio_connection := 1%nat;
                  _discovered_bleio_services := [(6, 100)];
                  _constructed_services := [(6, (6, 100))] |} in
  BLEConnection_getitem counting_discover (fun cls : Z => cls) self' (KeyClass 6)
  = (Return (Some (6, 100)), self').
Proof.
  intros self'.
  apply (getitem_is_cached nat Z counting_discover Z (fun cls => cls)
           (BLEConnection_init Z Z 0%nat) self' 6 (6, 100)).
  reflexivity.
Defined.

Lemma getitem_by_uuid_witness :
  let self := BLEConnection_init Z Z 0%nat in
  exists self',
    _constructed_services self' = _constructed_services self
    /\ ((exists r, _discover_remote counting_discover self 6 = (Some r, self')
                   /\ BLEConnection_getitem counting_discover (fun cls : Z => cls)
                        self (KeyUuid Z 6)
                      = (Return None, self'))
        \/ (_discover_remote counting_discover self 6 = (None, self')
            /\ BLEConnection_getitem counting_discover (fun cls : Z => cls)
                 self (KeyUuid Z 6)
               = (Raise KeyError, self'))).
Proof.
  intros self.
  apply (getitem_by_uuid nat Z counting_discover Z (fun cls => cls) self 6).
  reflexivity.
Defined.

Lemma contains_is_cached_witness :
  let self' := {| _bleio_connection := 1%nat;
                  _discovered_bleio_services := [(6, 100)];
                  _constructed_services := [] |} in
  _constructed_services self'
  = _constructed_services (BLEConnection_init Z Z 0%nat)
  /\ BLEConnection_contains counting_discover (fun cls : Z => cls) self' (KeyClass 6)
     = (true, self')
  /\ _bleio_connection
       (snd (BLEConnection_getitem counting_discover (fun cls : Z => cls)
               self' (KeyClass 6)))
     = _bleio_connection self'.
Proof.
  intros self'.
  apply (contains_is_cached nat Z counting_discover Z (fun cls => cls)
           (BLEConnection_init Z Z 0%nat) self' (KeyClass 6) true).
  reflexivity.
Defined.
